(** * libads: the doubly-linked list of [src/list.c]

    A shallow embedding of the list module over an explicit C-like heap,
    and machine-checked statements about its operations.

    Modelling conventions.
    - Memory is a finite map from block identifiers to objects.  A pointer
      is [Vnull], a block identifier, or [Vundef] (the indeterminate value
      of a field of a freshly [malloc]ed struct).
    - Every operation is a function from a memory to an [outcome]: a normal
      return with the new memory, [Abort] (a failed [assert]; the module is
      modelled as compiled without [NDEBUG]), [Fault] (behaviour that C
      leaves undefined: dereferencing an invalid pointer, reading outside
      a block, reading an indeterminate value) or [Timeout] (a [while] loop
      that used up its fuel).
    - Whether an allocation request succeeds is decided by the environment:
      the memory carries the list of the outcomes of the coming requests.
    - [size_t] is a 64-bit unsigned integer: a value of [N] with its
      wrap-around written out. *)

From Stdlib Require Import Strings.Byte.
From stdpp Require Import gmap list numbers.

Local Open Scope N_scope.

(** ** Values and objects *)

Definition loc := positive.

Inductive val : Type :=
| Vundef
| Vnull
| Vptr (l : loc).

Arguments Vptr l%_positive.

#[global] Instance val_eq_dec : EqDecision val.
Proof. solve_decision. Defined.

(** Modelled from the spec: [list.h] is not part of the sources at hand; the
    two structs are declared with the fields [list.c] reads and writes
    ([data->payload], [data->size], [node->data], [node->prev],
    [node->next]), which are also the attributes section 3 of the
    specification lists. *)
Record list_data_t : Type := mk_data {
  data_payload : val;
  data_size : option N
}.

Record list_node_t : Type := mk_node {
  node_data : val;
  node_prev : val;
  node_next : val
}.

(** A byte of memory is either initialised or indeterminate ([None]). *)
Definition mbyte := option byte.

Inductive obj : Type :=
| OBytes (bs : list mbyte)
| OData (d : list_data_t)
| ONode (n : list_node_t).

Record mem : Type := mk_mem {
  heap : gmap loc obj;
  allocs : list bool
}.

(** ** Outcomes and the monad of operations *)

Inductive outcome (A : Type) : Type :=
| Ret (a : A) (m : mem)
| Abort
| Fault
| Timeout.

Arguments Ret {A} a m.
Arguments Abort {A}.
Arguments Fault {A}.
Arguments Timeout {A}.

Definition M (A : Type) : Type := mem -> outcome A.

Definition ret {A} (a : A) : M A := fun m => Ret a m.

Definition bind {A B} (c : M A) (k : A -> M B) : M B :=
  fun m =>
    match c m with
    | Ret a m' => k a m'
    | Abort => Abort
    | Fault => Fault
    | Timeout => Timeout
    end.

Notation "'do' x <- c ; k" := (bind c (fun x => k))
  (at level 10, x name, c at level 100, k at level 200).
Notation "'run' c ; k" := (bind c (fun _ => k))
  (at level 10, c at level 100, k at level 200).

Definition fault {A} : M A := fun _ => Fault.
Definition timeout {A} : M A := fun _ => Timeout.

(** [assert(e)] *)
Definition assert (b : bool) : M unit :=
  fun m => if b then Ret tt m else Abort.

(** ** [size_t] arithmetic *)

Definition SIZE_MOD : N := 2 ^ 64.
Definition wrap (n : N) : N := n mod SIZE_MOD.

(** Conversion of an [int] to [size_t] followed by an addition. *)
Definition size_add_int (a : N) (i : Z) : N :=
  Z.to_N ((Z.of_N a + i) mod Z.of_N SIZE_MOD).

(** [a - b] on [size_t]. *)
Definition size_sub (a b : N) : N := (a + SIZE_MOD - b mod SIZE_MOD) mod SIZE_MOD.

(** ** Memory primitives *)

(** [p == NULL]; comparing an indeterminate pointer is undefined. *)
Definition is_null (p : val) : M bool :=
  match p with
  | Vundef => fault
  | Vnull => ret true
  | Vptr _ => ret false
  end.

Definition load (p : val) : M obj :=
  fun m =>
    match p with
    | Vptr l => match heap m !! l with
                | Some o => Ret o m
                | None => Fault
                end
    | _ => Fault
    end.

(** Overwrites the object of a live block. *)
Definition store (p : val) (o : obj) : M unit :=
  fun m =>
    match p with
    | Vptr l => match heap m !! l with
                | Some _ => Ret tt (mk_mem (<[l := o]> (heap m)) (allocs m))
                | None => Fault
                end
    | _ => Fault
    end.

Definition load_node (p : val) : M list_node_t :=
  do o <- load p ;
  match o with
  | ONode n => ret n
  | _ => fault
  end.

Definition load_data (p : val) : M list_data_t :=
  do o <- load p ;
  match o with
  | OData d => ret d
  | _ => fault
  end.

Definition load_bytes (p : val) : M (list mbyte) :=
  do o <- load p ;
  match o with
  | OBytes bs => ret bs
  | _ => fault
  end.

(** Field reads: [p->next], [p->prev], [p->data], [d->payload]. *)
Definition get_next (p : val) : M val := do n <- load_node p ; ret (node_next n).
Definition get_prev (p : val) : M val := do n <- load_node p ; ret (node_prev n).
Definition get_data (p : val) : M val := do n <- load_node p ; ret (node_data n).
Definition get_payload (p : val) : M val := do d <- load_data p ; ret (data_payload d).

(** Field writes. *)
Definition set_next (p v : val) : M unit :=
  do n <- load_node p ; store p (ONode (mk_node (node_data n) (node_prev n) v)).
Definition set_prev (p v : val) : M unit :=
  do n <- load_node p ; store p (ONode (mk_node (node_data n) v (node_next n))).
Definition set_data (p v : val) : M unit :=
  do n <- load_node p ; store p (ONode (mk_node v (node_prev n) (node_next n))).
Definition set_payload (p v : val) : M unit :=
  do d <- load_data p ; store p (OData (mk_data v (data_size d))).
Definition set_size (p : val) (s : N) : M unit :=
  do d <- load_data p ; store p (OData (mk_data (data_payload d) (Some s))).

(** [malloc]: the environment decides whether the request succeeds; a
    successful request returns a block that is not live, holding the
    indeterminate object [o]. *)
Definition malloc (o : obj) : M val :=
  fun m =>
    let l := fresh (dom (heap m)) in
    match allocs m with
    | false :: rest => Ret Vnull (mk_mem (heap m) rest)
    | true :: rest => Ret (Vptr l) (mk_mem (<[l := o]> (heap m)) rest)
    | [] => Ret (Vptr l) (mk_mem (<[l := o]> (heap m)) [])
    end.

Definition undef_node : obj := ONode (mk_node Vundef Vundef Vundef).
Definition undef_data : obj := OData (mk_data Vundef None).
Definition undef_bytes (n : N) : obj := OBytes (replicate (N.to_nat n) None).

(** [free]: a no-op on [NULL], undefined on anything but a live block. *)
Definition free (p : val) : M unit :=
  fun m =>
    match p with
    | Vnull => Ret tt m
    | Vptr l => match heap m !! l with
                | Some _ => Ret tt (mk_mem (delete l (heap m)) (allocs m))
                | None => Fault
                end
    | Vundef => Fault
    end.

(** [realloc(p, n)] of a byte block: on success the contents move to a new
    block of [n] bytes, the bytes beyond the old length are indeterminate,
    and the old block is released; on failure the old block is untouched. *)
Definition realloc (p : val) (n : N) : M val :=
  do bs <- load_bytes p ;
  do q <- malloc (OBytes (take (N.to_nat n) bs
                           ++ replicate (N.to_nat n - length bs)%nat None)) ;
  do b <- is_null q ;
  if b then ret Vnull else run free p ; ret q.

(** [memcpy(dst, src, n)]: both blocks must hold at least [n] bytes and be
    different objects. *)
Definition memcpy (dst src : val) (n : N) : M unit :=
  do s <- load_bytes src ;
  do d <- load_bytes dst ;
  if bool_decide (dst = src) then fault
  else if (N.of_nat (length s) <? n) || (N.of_nat (length d) <? n) then fault
  else store dst (OBytes (take (N.to_nat n) s ++ drop (N.to_nat n) d)).

(** Lexicographic comparison of the first [n] bytes of two runs, read as
    unsigned chars; [None] when one of the [2 * n] bytes is indeterminate or
    lies beyond the end of its run. *)
Fixpoint bytes_cmp (n : nat) (a b : list mbyte) : option Z :=
  match n with
  | O => Some 0%Z
  | S n' =>
      match a, b with
      | Some x :: a', Some y :: b' =>
          match bytes_cmp n' a' b' with
          | Some r =>
              match N.compare (Byte.to_N x) (Byte.to_N y) with
              | Eq => Some r
              | Lt => Some (-1)%Z
              | Gt => Some 1%Z
              end
          | None => None
          end
      | _, _ => None
      end
  end.

(** [memcmp(a, b, n)] *)
Definition memcmp (a b : val) (n : N) : M Z :=
  do x <- load_bytes a ;
  do y <- load_bytes b ;
  match bytes_cmp (N.to_nat n) x y with
  | Some r => ret r
  | None => fault
  end.

(** Writes the run [w] at offset [off] of a byte block; writing past the end
    of the block is undefined. *)
Definition write_at (p : val) (off : N) (w : list mbyte) : M unit :=
  do bs <- load_bytes p ;
  if (N.of_nat (length bs) <? off + N.of_nat (length w)) then fault
  else store p (OBytes (take (N.to_nat off) bs ++ w
                          ++ drop (N.to_nat off + length w) bs)).

(** [memset(p + off, c, n)] *)
Definition memset (p : val) (off : N) (c : byte) (n : N) : M unit :=
  write_at p off (replicate (N.to_nat n) (Some c)).

(** ** The operations of [list.c] *)

Definition LIST_PRINT_BUFF_SIZE : N := 16.
Definition REALLOC_THRESHOLD : N := 8.

(** [free_node] *)
Definition free_node (ptr_node : val) : M unit :=
  do d <- get_data ptr_node ;
  do pl <- get_payload d ;
  run free pl ;
  do d' <- get_data ptr_node ;
  run free d' ;
  free ptr_node.

(** The three cleanup labels of [list_init]; each falls through to the next. *)
Definition init_err_data (ptr_data : val) : M val :=
  run free ptr_data ;
  ret Vnull.

Definition init_err_payload (ptr_data : val) : M val :=
  do pl <- get_payload ptr_data ;
  run free pl ;
  init_err_data ptr_data.

Definition init_err_node (ptr_node ptr_data : val) : M val :=
  run free ptr_node ;
  init_err_payload ptr_data.

(** [list_init] *)
Definition list_init (payload : val) (size : N) : M val :=
  do pnull <- is_null payload ;
  if pnull || (size <=? 0) then ret Vnull
  else
    do ptr_data <- malloc undef_data ;
    do dnull <- is_null ptr_data ;
    if dnull then init_err_data ptr_data
    else
      run set_size ptr_data size ;
      do buf <- malloc (undef_bytes size) ;
      run set_payload ptr_data buf ;
      do pl <- get_payload ptr_data ;
      do bnull <- is_null pl ;
      if bnull then init_err_payload ptr_data
      else
        do pl <- get_payload ptr_data ;
        run memcpy pl payload size ;
        do ptr_node <- malloc undef_node ;
        do nnull <- is_null ptr_node ;
        if nnull then init_err_node ptr_node ptr_data
        else
          run set_data ptr_node ptr_data ;
          run set_next ptr_node Vnull ;
          run set_prev ptr_node Vnull ;
          do d <- get_data ptr_node ;
          do pl <- get_payload d ;
          do r <- memcmp payload pl size ;
          run assert (r =? 0)%Z ;
          do nx <- get_next ptr_node ;
          do nxn <- is_null nx ;
          run assert nxn ;
          do pv <- get_prev ptr_node ;
          do pvn <- is_null pv ;
          run assert pvn ;
          ret ptr_node.

(** The serialisation callback of [list_print]: from the bytes of a payload
    to the bytes it stores at the cursor and the [int] it returns. *)
Definition print_fn : Type := list mbyte -> list byte * Z.

(** The [while] loop of [list_print]. It returns the buffer (or [Vnull] on a
    failure) together with the write cursor and the capacity, so that the
    state at the end of the traversal can be inspected. *)
Fixpoint list_print_loop (fuel : nat) (print_payload : print_fn)
    (root buff : val) (buff_ptr curr_buff_size : N) : M (val * N * N) :=
  match fuel with
  | O => timeout
  | S fuel' =>
      do rn <- is_null root ;
      if rn then ret (buff, buff_ptr, curr_buff_size)
      else
        do d <- get_data root ;
        do pl <- get_payload d ;
        do content <- load_bytes pl ;
        let (w, written) := print_payload content in
        run write_at buff buff_ptr (Some <$> w) ;
        if (written =? -1)%Z then
          run free buff ;
          ret (Vnull, buff_ptr, curr_buff_size)
        else
          let buff_ptr := size_add_int buff_ptr written in
          if size_sub curr_buff_size REALLOC_THRESHOLD <? buff_ptr then
            do new_buff <- realloc buff (wrap (curr_buff_size * 2)) ;
            do nn <- is_null new_buff ;
            if nn then
              run free buff ;
              ret (Vnull, buff_ptr, curr_buff_size)
            else
              run memset new_buff buff_ptr "000"%byte curr_buff_size ;
              do nx <- get_next root ;
              list_print_loop fuel' print_payload nx new_buff buff_ptr
                (wrap (curr_buff_size * 2))
          else
            do nx <- get_next root ;
            list_print_loop fuel' print_payload nx buff buff_ptr curr_buff_size
  end.

(** [list_print], returning the final cursor and capacity with the buffer. *)
Definition list_print_state (fuel : nat) (root : val)
    (print_payload : option print_fn) : M (val * N * N) :=
  do buff <- malloc (undef_bytes LIST_PRINT_BUFF_SIZE) ;
  run memset buff 0 "000"%byte LIST_PRINT_BUFF_SIZE ;
  match print_payload with
  | None => ret (Vnull, 0, LIST_PRINT_BUFF_SIZE)
  | Some f => list_print_loop fuel f root buff 0 LIST_PRINT_BUFF_SIZE
  end.

(** [list_print] *)
Definition list_print (fuel : nat) (root : val)
    (print_payload : option print_fn) : M val :=
  do r <- list_print_state fuel root print_payload ;
  ret (fst (fst r)).

(** The loop of [list_len]. *)
Fixpoint list_len_loop (fuel : nat) (root : val) (len : N) : M N :=
  match fuel with
  | O => timeout
  | S fuel' =>
      do rn <- is_null root ;
      if rn then ret len
      else
        do nx <- get_next root ;
        list_len_loop fuel' nx (wrap (len + 1))
  end.

(** [list_len] *)
Definition list_len (fuel : nat) (root : val) : M N :=
  list_len_loop fuel root 0.

(** The first loop of [list_insert]: [pos] steps forward from the root,
    remembering the node left behind. *)
Fixpoint insert_walk (pos : nat) (ptr_prev ptr_pos : val) : M (val * val) :=
  match pos with
  | O => ret (ptr_prev, ptr_pos)
  | S pos' =>
      do pn <- is_null ptr_pos ;
      run assert (negb pn) ;
      do nx <- get_next ptr_pos ;
      insert_walk pos' ptr_pos nx
  end.

(** [list_insert] *)
Definition list_insert (fuel : nat) (ptr_root payload : val) (size pos : N)
  : M val :=
  do rn <- is_null ptr_root ;
  if rn then ret Vnull
  else
    do pn <- is_null payload ;
    if pn then ret Vnull
    else
      do len <- list_len fuel ptr_root ;
      if len <? pos then ret Vnull
      else
        do w <- insert_walk (N.to_nat pos) Vnull ptr_root ;
        let (ptr_prev, ptr_pos) := w in
        do ptr_node <- malloc undef_node ;
        do ptr_data <- malloc undef_data ;
        do buf <- malloc (undef_bytes size) ;
        run set_payload ptr_data buf ;
        do nn <- is_null ptr_node ;
        do dn <- (if nn then ret true else is_null ptr_data) ;
        do bn <- (if dn then ret true
                  else do pl <- get_payload ptr_data ; is_null pl) ;
        if bn then
          (* err_node_data *)
          run free_node ptr_node ;
          ret Vnull
        else
          do posn <- is_null ptr_pos ;
          do new_root <-
            (if posn then
               (* appending at the end *)
               do pvn <- is_null ptr_prev ;
               run assert (negb nn && negb pvn) ;
               run set_next ptr_node Vnull ;
               run set_prev ptr_node ptr_prev ;
               run set_next ptr_prev ptr_node ;
               ret ptr_root
             else
               do pp <- get_prev ptr_pos ;
               do ppn <- is_null pp ;
               if ppn then
                 (* beginning of the list *)
                 run assert (negb nn && negb posn) ;
                 run set_next ptr_node ptr_root ;
                 run set_prev ptr_node Vnull ;
                 run set_prev ptr_pos ptr_node ;
                 ret ptr_node
               else
                 (* adding in the middle *)
                 do pp0 <- get_prev ptr_pos ;
                 do pp0n <- is_null pp0 ;
                 run assert (negb nn && negb posn && negb pp0n) ;
                 run set_next ptr_node ptr_pos ;
                 do pp1 <- get_prev ptr_pos ;
                 run set_prev ptr_node pp1 ;
                 run set_prev ptr_pos ptr_node ;
                 do pp2 <- get_prev ptr_pos ;
                 run set_next pp2 ptr_node ;
                 ret ptr_root) ;
          do pl <- get_payload ptr_data ;
          run memcpy pl payload size ;
          run set_size ptr_data size ;
          run set_data ptr_node ptr_data ;
          do d <- get_data ptr_node ;
          do pl' <- get_payload d ;
          do r <- memcmp payload pl' size ;
          run assert (r =? 0)%Z ;
          ret new_root.

(** The loop of [list_del], followed by the [assert(0)] after it. *)
Fixpoint list_del_loop (fuel : nat) (ptr_root ptr_node payload : val)
    (size : N) : M val :=
  match fuel with
  | O => timeout
  | S fuel' =>
      do nn <- is_null ptr_node ;
      if nn then
        (* should never reach here *)
        run assert false ;
        fault
      else
        do d <- get_data ptr_node ;
        do pl <- get_payload d ;
        do r <- memcmp pl payload size ;
        if (r =? 0)%Z then
          do pv <- get_prev ptr_node ;
          do pvn <- is_null pv ;
          if pvn then
            (* first node of the list *)
            do nx <- get_next ptr_node ;
            do nxn <- is_null nx ;
            if negb nxn then
              do nx' <- get_next ptr_node ;
              run set_prev nx' Vnull ;
              do temp <- get_next ptr_node ;
              run free_node ptr_node ;
              ret temp
            else
              run free_node ptr_node ;
              ret Vnull
          else
            (* node is not the first in the list *)
            do nx <- get_next ptr_node ;
            do nxn <- is_null nx ;
            run (if negb nxn then
                   do nx' <- get_next ptr_node ;
                   do pv' <- get_prev ptr_node ;
                   run set_prev nx' pv' ;
                   do pv'' <- get_prev ptr_node ;
                   do nx'' <- get_next ptr_node ;
                   run set_next pv'' nx'' ;
                   free_node ptr_node
                 else
                   do pv' <- get_prev ptr_node ;
                   run set_next pv' Vnull ;
                   free_node ptr_node) ;
            ret ptr_root
        else
          do nx <- get_next ptr_node ;
          list_del_loop fuel' ptr_root nx payload size
  end.

(** [list_del] *)
Definition list_del (fuel : nat) (ptr_root payload : val) (size : N) : M val :=
  list_del_loop fuel ptr_root ptr_root payload size.

(** [list_search] *)
Fixpoint list_search (fuel : nat) (ptr_root payload : val) (size : N) : M val :=
  match fuel with
  | O => timeout
  | S fuel' =>
      do rn <- is_null ptr_root ;
      if rn then ret Vnull
      else
        do d <- get_data ptr_root ;
        do pl <- get_payload d ;
        do r <- memcmp pl payload size ;
        if (r =? 0)%Z then ret ptr_root
        else
          do nx <- get_next ptr_root ;
          list_search fuel' nx payload size
  end.

(** The loop of [list_get]. *)
Fixpoint get_walk (pos : nat) (ptr_root : val) : M val :=
  match pos with
  | O => ret ptr_root
  | S pos' =>
      do rn <- is_null ptr_root ;
      run assert (negb rn) ;
      do nx <- get_next ptr_root ;
      get_walk pos' nx
  end.

(** [list_get] *)
Definition list_get (fuel : nat) (ptr_root : val) (pos : N) : M val :=
  do rn <- is_null ptr_root ;
  if rn then ret Vnull
  else
    do len <- list_len fuel ptr_root ;
    if len <=? pos then ret Vnull
    else
      do p <- get_walk (N.to_nat pos) ptr_root ;
      do d <- get_data p ;
      get_payload d.

(** The loop of [list_destroy]. *)
Fixpoint list_destroy_loop (fuel : nat) (root : val) : M unit :=
  match fuel with
  | O => timeout
  | S fuel' =>
      do rn <- is_null root ;
      if rn then ret tt
      else
        do next <- get_next root ;
        do d <- get_data root ;
        do pl <- get_payload d ;
        run free pl ;
        do d' <- get_data root ;
        run free d' ;
        run free root ;
        list_destroy_loop fuel' next
  end.

(** [list_destroy] *)
Definition list_destroy (fuel : nat) (root : val) : M unit :=
  do pv <- get_prev root ;
  do pvn <- is_null pv ;
  run (if negb pvn then
         do pv' <- get_prev root ;
         set_next pv' Vnull
       else ret tt) ;
  list_destroy_loop fuel root.

(** ** The abstract view of a list

    A list in memory is described by the sequence of its entries: for each
    node, the three blocks it owns (node, payload holder, payload bytes) and
    what the holder stores. *)

Record entry : Type := mk_entry {
  e_node : loc;
  e_data : loc;
  e_buf : loc;
  e_bytes : list mbyte;
  e_size : option N
}.

Arguments mk_entry (e_node e_data e_buf)%_positive e_bytes e_size.

(** The node reference at position [i] of a sequence, [Vnull] past its end. *)
Definition node_at (es : list entry) (i : nat) : val :=
  match es !! i with
  | Some e => Vptr (e_node e)
  | None => Vnull
  end.

(** The back-relation of the node at position [i], where [prv] is the
    back-relation of the first node. *)
Definition prev_at (prv : val) (es : list entry) (i : nat) : val :=
  match i with
  | O => prv
  | S j => node_at es j
  end.

(** The structural invariant: every node holds its payload holder, points
    back to its predecessor ([prv] for the first node) and forward to its
    successor ([Vnull] for the last node). *)
Fixpoint linked (h : gmap loc obj) (prv : val) (es : list entry) : Prop :=
  match es with
  | [] => True
  | e :: es' =>
      h !! e_node e
        = Some (ONode (mk_node (Vptr (e_data e)) prv (node_at es' 0))) /\
      h !! e_data e = Some (OData (mk_data (Vptr (e_buf e)) (e_size e))) /\
      h !! e_buf e = Some (OBytes (e_bytes e)) /\
      linked h (Vptr (e_node e)) es'
  end.

(** The forward chain alone: every node holds its payload holder and points
    forward to its successor; the back-relations are not looked at. *)
Fixpoint chain (h : gmap loc obj) (es : list entry) : Prop :=
  match es with
  | [] => True
  | e :: es' =>
      (exists pv,
         h !! e_node e
           = Some (ONode (mk_node (Vptr (e_data e)) pv (node_at es' 0)))) /\
      h !! e_data e = Some (OData (mk_data (Vptr (e_buf e)) (e_size e))) /\
      h !! e_buf e = Some (OBytes (e_bytes e)) /\
      chain h es'
  end.

Definition entry_locs (e : entry) : list loc := [e_node e; e_data e; e_buf e].

(** No block is owned twice. *)
Definition separate (es : list entry) : Prop := NoDup (es ≫= entry_locs).

(** [root] is the first node of the well-formed list [es]. *)
Definition is_list (h : gmap loc obj) (root : val) (es : list entry) : Prop :=
  root = node_at es 0 /\ linked h Vnull es /\ separate es.

(** The outcome of comparing the first [size] bytes of a stored payload
    with the bytes [buf] of the supplied buffer. *)
Definition matches (size : N) (buf : list mbyte) (e : entry) : Prop :=
  bytes_cmp (N.to_nat size) (e_bytes e) buf = Some 0%Z.

Definition differs (size : N) (buf : list mbyte) (e : entry) : Prop :=
  exists r, bytes_cmp (N.to_nat size) (e_bytes e) buf = Some r /\ r <> 0%Z.

(** The first [n] coming allocation requests succeed. *)
Fixpoint allocs_succeed (n : nat) (al : list bool) : Prop :=
  match n, al with
  | O, _ => True
  | S _, [] => True
  | S n', b :: al' => b = true /\ allocs_succeed n' al'
  end.

(** The first [n] bytes of a run are initialised. *)
Definition readable (n : nat) (bs : list mbyte) : Prop :=
  exists cs : list byte, length cs = n /\ take n bs = Some <$> cs.

(** The memory after the node at position [i] has been taken out of the
    chain: its successor points back to its predecessor, its predecessor
    points forward to its successor, and its three blocks are released. *)
Definition relink_next (es : list entry) (i : nat) (h : gmap loc obj)
  : gmap loc obj :=
  match es !! S i with
  | Some e1 =>
      <[e_node e1 := ONode (mk_node (Vptr (e_data e1)) (prev_at Vnull es i)
                              (node_at es (S (S i))))]> h
  | None => h
  end.

Definition relink_prev (es : list entry) (i : nat) (h : gmap loc obj)
  : gmap loc obj :=
  match i with
  | S k =>
      match es !! k with
      | Some e0 =>
          <[e_node e0 := ONode (mk_node (Vptr (e_data e0)) (prev_at Vnull es k)
                                  (node_at es (S i)))]> h
      | None => h
      end
  | O => h
  end.

Definition release (e : entry) (h : gmap loc obj) : gmap loc obj :=
  delete (e_node e) (delete (e_data e) (delete (e_buf e) h)).

Definition unlinked (es : list entry) (i : nat) (e : entry) (h : gmap loc obj)
  : gmap loc obj :=
  release e (relink_prev es i (relink_next es i h)).

(** The memory after the three blocks of every entry have been released. *)
Fixpoint release_all (es : list entry) (h : gmap loc obj) : gmap loc obj :=
  match es with
  | [] => h
  | e :: es' => release_all es' (release e h)
  end.

(** What the callback stores at the cursor for the payload of an entry. *)
Definition printed (f : print_fn) (e : entry) : list byte := fst (f (e_bytes e)).

(** The callback returns the number of bytes it has stored, and stores no
    more than [REALLOC_THRESHOLD] of them. *)
Definition well_behaved (f : print_fn) (e : entry) : Prop :=
  snd (f (e_bytes e)) = Z.of_nat (length (printed f e)) /\
  N.of_nat (length (printed f e)) <= REALLOC_THRESHOLD.

(** The state of the output buffer between two iterations of [list_print]:
    the block has the current capacity, it starts with the bytes printed so
    far, the cursor leaves the threshold free, and the bytes from the cursor
    up to the threshold are zero. *)
Definition print_inv (m : mem) (buff : loc) (buff_ptr curr : N)
    (out : list byte) : Prop :=
  exists content,
    heap m !! buff = Some (OBytes content) /\
    length content = N.to_nat curr /\
    take (N.to_nat buff_ptr) content = Some <$> out /\
    buff_ptr + REALLOC_THRESHOLD <= curr /\
    curr < SIZE_MOD /\
    (forall j, (N.to_nat buff_ptr <= j)%nat -> (j + 8 <= N.to_nat curr)%nat ->
               content !! j = Some (Some "000"%byte)).

(** A callback that prints the first byte of a payload. *)
Definition print_head : print_fn := fun content =>
  match content with
  | Some b :: _ => ([b], 1%Z)
  | _ => ([], 0%Z)
  end.

(** A callback that prints eight characters for every payload. *)
Definition print_eight : print_fn := fun _ => (replicate 8 x61, 8%Z).

(** A callback that gives up on payloads starting with [20]. *)
Definition print_small : print_fn := fun content =>
  match content with
  | Some b :: _ => if Byte.eqb b x14 then ([], (-1)%Z) else ([b], 1%Z)
  | _ => ([], 0%Z)
  end.

(** ** Example memories

    A two-node list holding the one-byte payloads [10] and [20], as
    [list_init] followed by an appending [list_insert] lay it out, next to
    three buffers of the caller. *)

Definition node_a : entry := mk_entry 1 2 3 [Some x0a] (Some 1).
Definition node_b : entry := mk_entry 4 5 6 [Some x14] (Some 1).

Definition two_nodes : mem :=
  mk_mem
    (list_to_map
       [ (1%positive, ONode (mk_node (Vptr 2) Vnull (Vptr 4)));
         (2%positive, OData (mk_data (Vptr 3) (Some 1)));
         (3%positive, OBytes [Some x0a]);
         (4%positive, ONode (mk_node (Vptr 5) (Vptr 1) Vnull));
         (5%positive, OData (mk_data (Vptr 6) (Some 1)));
         (6%positive, OBytes [Some x14]);
         (7%positive, OBytes [Some x05]);
         (8%positive, OBytes [Some x14; Some x00]);
         (9%positive, OBytes [Some x07; Some x07]) ])
    [].

(** A one-node list holding [10], and the same buffers. *)
Definition node_c : entry := mk_entry 1 2 3 [Some x0a] (Some 1).

Definition one_node : mem :=
  mk_mem
    (list_to_map
       [ (1%positive, ONode (mk_node (Vptr 2) Vnull Vnull));
         (2%positive, OData (mk_data (Vptr 3) (Some 1)));
         (3%positive, OBytes [Some x0a]);
         (7%positive, OBytes [Some x05]) ])
    [].

(** A two-node list whose payloads have two bytes each, [10; 11] and
    [20; 21], and a caller buffer that shares only its first byte with the
    second payload. *)
Definition wide_a : entry := mk_entry 1 2 3 [Some x0a; Some x0b] (Some 2).
Definition wide_b : entry := mk_entry 4 5 6 [Some x14; Some x15] (Some 2).

Definition wide_nodes : mem :=
  mk_mem
    (list_to_map
       [ (1%positive, ONode (mk_node (Vptr 2) Vnull (Vptr 4)));
         (2%positive, OData (mk_data (Vptr 3) (Some 2)));
         (3%positive, OBytes [Some x0a; Some x0b]);
         (4%positive, ONode (mk_node (Vptr 5) (Vptr 1) Vnull));
         (5%positive, OData (mk_data (Vptr 6) (Some 2)));
         (6%positive, OBytes [Some x14; Some x15]);
         (8%positive, OBytes [Some x14; Some x00]) ])
    [].

(** A memory holding only a buffer of the caller. *)
Definition caller_only : mem :=
  mk_mem (list_to_map [ (7%positive, OBytes [Some x05; Some x06]) ]) [].

(** A callback that prints nine characters for every payload. *)
Definition print_nine : print_fn := fun _ => (replicate 9 x61, 9%Z).

(** * Basic facts *)

Section Steps.

Context {A B : Type}.

Lemma bind_ret (c : M A) (k : A -> M B) (m m' : mem) (a : A) :
  c m = Ret a m' -> bind c k m = k a m'.
Proof. intros H. unfold bind. now rewrite H. Qed.

End Steps.

(** ** Tactics *)

(** Rewrites the head of a sequence of operations with its known result. *)
Ltac exec H :=
  rewrite (bind_ret _ _ _ _ _ H);
  cbn [node_data node_prev node_next data_payload data_size].

(** Names the memory the next operation runs in. *)
Ltac name_mem x :=
  match goal with |- context [bind _ _ ?m] => set (x := m) in * end.

(** Evaluates the left-hand side of an equation between closed terms. *)
Ltac compute_lhs H :=
  match type of H with
  | ?l = _ =>
      let v := eval vm_compute in l in
      replace l with v in H by (vm_compute; reflexivity)
  end.

(** Solves a lookup in a memory built by insertions. *)
Ltac lk :=
  cbn [heap];
  repeat (rewrite lookup_insert_eq || rewrite lookup_insert_ne by congruence);
  trivial.

Lemma load_node_ok l n m :
  heap m !! l = Some (ONode n) -> load_node (Vptr l) m = Ret n m.
Proof. intros H. unfold load_node, bind, load. now rewrite H. Qed.

Lemma load_data_ok l d m :
  heap m !! l = Some (OData d) -> load_data (Vptr l) m = Ret d m.
Proof. intros H. unfold load_data, bind, load. now rewrite H. Qed.

Lemma load_bytes_ok l bs m :
  heap m !! l = Some (OBytes bs) -> load_bytes (Vptr l) m = Ret bs m.
Proof. intros H. unfold load_bytes, bind, load. now rewrite H. Qed.

Lemma get_next_ok l n m :
  heap m !! l = Some (ONode n) -> get_next (Vptr l) m = Ret (node_next n) m.
Proof. intros H. unfold get_next. now rewrite (bind_ret _ _ _ _ _ (load_node_ok _ _ _ H)). Qed.

Lemma get_prev_ok l n m :
  heap m !! l = Some (ONode n) -> get_prev (Vptr l) m = Ret (node_prev n) m.
Proof. intros H. unfold get_prev. now rewrite (bind_ret _ _ _ _ _ (load_node_ok _ _ _ H)). Qed.

Lemma get_data_ok l n m :
  heap m !! l = Some (ONode n) -> get_data (Vptr l) m = Ret (node_data n) m.
Proof. intros H. unfold get_data. now rewrite (bind_ret _ _ _ _ _ (load_node_ok _ _ _ H)). Qed.

Lemma get_payload_ok l d m :
  heap m !! l = Some (OData d) ->
  get_payload (Vptr l) m = Ret (data_payload d) m.
Proof. intros H. unfold get_payload. now rewrite (bind_ret _ _ _ _ _ (load_data_ok _ _ _ H)). Qed.

Lemma store_ok l o o' m :
  heap m !! l = Some o' ->
  store (Vptr l) o m = Ret tt (mk_mem (<[l := o]> (heap m)) (allocs m)).
Proof. intros H. unfold store. now rewrite H. Qed.

Lemma set_next_ok l n v m :
  heap m !! l = Some (ONode n) ->
  set_next (Vptr l) v m
  = Ret tt (mk_mem (<[l := ONode (mk_node (node_data n) (node_prev n) v)]> (heap m))
              (allocs m)).
Proof.
  intros H. unfold set_next.
  rewrite (bind_ret _ _ _ _ _ (load_node_ok _ _ _ H)). eapply store_ok, H.
Qed.

Lemma set_prev_ok l n v m :
  heap m !! l = Some (ONode n) ->
  set_prev (Vptr l) v m
  = Ret tt (mk_mem (<[l := ONode (mk_node (node_data n) v (node_next n))]> (heap m))
              (allocs m)).
Proof.
  intros H. unfold set_prev.
  rewrite (bind_ret _ _ _ _ _ (load_node_ok _ _ _ H)). eapply store_ok, H.
Qed.

Lemma set_data_ok l n v m :
  heap m !! l = Some (ONode n) ->
  set_data (Vptr l) v m
  = Ret tt (mk_mem (<[l := ONode (mk_node v (node_prev n) (node_next n))]> (heap m))
              (allocs m)).
Proof.
  intros H. unfold set_data.
  rewrite (bind_ret _ _ _ _ _ (load_node_ok _ _ _ H)). eapply store_ok, H.
Qed.

Lemma set_payload_ok l d v m :
  heap m !! l = Some (OData d) ->
  set_payload (Vptr l) v m
  = Ret tt (mk_mem (<[l := OData (mk_data v (data_size d))]> (heap m)) (allocs m)).
Proof.
  intros H. unfold set_payload.
  rewrite (bind_ret _ _ _ _ _ (load_data_ok _ _ _ H)). eapply store_ok, H.
Qed.

Lemma set_size_ok l d s m :
  heap m !! l = Some (OData d) ->
  set_size (Vptr l) s m
  = Ret tt (mk_mem (<[l := OData (mk_data (data_payload d) (Some s))]> (heap m))
              (allocs m)).
Proof.
  intros H. unfold set_size.
  rewrite (bind_ret _ _ _ _ _ (load_data_ok _ _ _ H)). eapply store_ok, H.
Qed.

Lemma free_ok l o m :
  heap m !! l = Some o ->
  free (Vptr l) m = Ret tt (mk_mem (delete l (heap m)) (allocs m)).
Proof. intros H. unfold free. now rewrite H. Qed.

Lemma memcmp_ok a b x y n r m :
  heap m !! a = Some (OBytes x) ->
  heap m !! b = Some (OBytes y) ->
  bytes_cmp (N.to_nat n) x y = Some r ->
  memcmp (Vptr a) (Vptr b) n m = Ret r m.
Proof.
  intros Ha Hb Hr. unfold memcmp.
  rewrite (bind_ret _ _ _ _ _ (load_bytes_ok _ _ _ Ha)).
  rewrite (bind_ret _ _ _ _ _ (load_bytes_ok _ _ _ Hb)).
  now rewrite Hr.
Qed.

Lemma malloc_ok o m :
  allocs_succeed 1 (allocs m) ->
  let l := fresh (dom (heap m)) in
  heap m !! l = None /\
  malloc o m = Ret (Vptr l) (mk_mem (<[l := o]> (heap m)) (tail (allocs m))).
Proof.
  intros Hal l. split.
  - apply not_elem_of_dom, is_fresh.
  - unfold malloc. destruct (allocs m) as [|[] rest]; simpl in *; try reflexivity.
    destruct Hal; discriminate.
Qed.

Lemma allocs_succeed_tail n al :
  allocs_succeed (S n) al -> allocs_succeed n (tail al).
Proof. destruct al as [|b al]; simpl; [now destruct n | tauto]. Qed.

Lemma allocs_succeed_one n al :
  allocs_succeed (S n) al -> allocs_succeed 1 al.
Proof. destruct al as [|b al]; simpl; tauto. Qed.

(** ** Facts about well-formed lists *)

Lemma linked_lookup h prv es i e :
  linked h prv es -> es !! i = Some e ->
  h !! e_node e
    = Some (ONode (mk_node (Vptr (e_data e)) (prev_at prv es i) (node_at es (S i)))) /\
  h !! e_data e = Some (OData (mk_data (Vptr (e_buf e)) (e_size e))) /\
  h !! e_buf e = Some (OBytes (e_bytes e)).
Proof.
  revert prv i. induction es as [|e0 es IH]; intros prv i Hl Hi; [discriminate|].
  destruct Hl as (Hn & Hd & Hb & Hl). destruct i as [|i]; simpl in Hi.
  - injection Hi as <-. auto.
  - destruct (IH _ _ Hl Hi) as (Hn' & Hd' & Hb'). repeat split; trivial.
    rewrite Hn'. now destruct i.
Qed.

Lemma linked_intro h prv es :
  (forall i e, es !! i = Some e ->
     h !! e_node e
       = Some (ONode (mk_node (Vptr (e_data e)) (prev_at prv es i) (node_at es (S i)))) /\
     h !! e_data e = Some (OData (mk_data (Vptr (e_buf e)) (e_size e))) /\
     h !! e_buf e = Some (OBytes (e_bytes e))) ->
  linked h prv es.
Proof.
  revert prv. induction es as [|e0 es IH]; intros prv H; simpl; [exact I|].
  destruct (H O e0 eq_refl) as (Hn & Hd & Hb). repeat split; trivial.
  apply IH. intros i e Hi. destruct (H (S i) e Hi) as (Hn' & Hd' & Hb').
  repeat split; trivial. rewrite Hn'. now destruct i.
Qed.

Lemma node_at_Some es i e : es !! i = Some e -> node_at es i = Vptr (e_node e).
Proof. intros H. unfold node_at. now rewrite H. Qed.

Lemma node_at_None es i : (length es <= i)%nat -> node_at es i = Vnull.
Proof. intros H. unfold node_at. now rewrite lookup_ge_None_2. Qed.

Lemma wrap_small n : n < SIZE_MOD -> wrap n = n.
Proof. apply N.mod_small. Qed.

Lemma wrap_le n : wrap n <= n.
Proof. apply N.Div0.mod_le. Qed.

Lemma wrap_lt n : wrap n < SIZE_MOD.
Proof. apply N.mod_lt. discriminate. Qed.

Lemma linked_chain h prv es : linked h prv es -> chain h es.
Proof.
  revert prv. induction es as [|e es IH]; intros prv H; [exact I|].
  destruct H as (Hn & Hd & Hb & Hl). repeat split; eauto.
Qed.

Lemma chain_lookup h es i e :
  chain h es -> es !! i = Some e ->
  (exists pv,
     h !! e_node e
       = Some (ONode (mk_node (Vptr (e_data e)) pv (node_at es (S i))))) /\
  h !! e_data e = Some (OData (mk_data (Vptr (e_buf e)) (e_size e))) /\
  h !! e_buf e = Some (OBytes (e_bytes e)).
Proof.
  revert i. induction es as [|e0 es IH]; intros i Hc Hi; [discriminate|].
  destruct Hc as (Hn & Hd & Hb & Hc). destruct i as [|i]; simpl in Hi.
  - injection Hi as <-. auto.
  - exact (IH _ Hc Hi).
Qed.

Lemma chain_intro h es :
  (forall i e, es !! i = Some e ->
     (exists pv,
        h !! e_node e
          = Some (ONode (mk_node (Vptr (e_data e)) pv (node_at es (S i))))) /\
     h !! e_data e = Some (OData (mk_data (Vptr (e_buf e)) (e_size e))) /\
     h !! e_buf e = Some (OBytes (e_bytes e))) ->
  chain h es.
Proof.
  induction es as [|e0 es IH]; intros H; simpl; [exact I|].
  destruct (H O e0 eq_refl) as (Hn & Hd & Hb). repeat split; trivial.
  apply IH. intros i e Hi. exact (H (S i) e Hi).
Qed.

(** [list_len] counts the nodes of the chain, modulo the range of [size_t]. *)
Lemma list_len_loop_ok m es :
  forall fuel acc,
    chain (heap m) es -> (length es < fuel)%nat -> acc < SIZE_MOD ->
    list_len_loop fuel (node_at es 0) acc m
    = Ret (wrap (acc + N.of_nat (length es))) m.
Proof.
  induction es as [|e es IH]; intros fuel acc Hc Hf Hacc;
    (destruct fuel as [|fuel]; [simpl in Hf; lia|]).
  - simpl. unfold bind. simpl. now rewrite N.add_0_r, wrap_small.
  - destruct Hc as ((pv & Hn) & _ & _ & Hc). simpl length in *.
    cbn [list_len_loop node_at lookup list_lookup]. unfold bind at 1. simpl.
    rewrite (bind_ret _ _ _ _ _ (get_next_ok _ _ _ Hn)). simpl.
    rewrite (IH _ _ Hc) by (lia || apply wrap_lt).
    f_equal. unfold wrap. rewrite N.Div0.add_mod_idemp_l. f_equal. lia.
Qed.

Lemma list_len_ok m es fuel :
  chain (heap m) es -> (length es < fuel)%nat ->
  list_len fuel (node_at es 0) m = Ret (wrap (N.of_nat (length es))) m.
Proof.
  intros Hc Hf. unfold list_len.
  rewrite (list_len_loop_ok m es) by (trivial || reflexivity). reflexivity.
Qed.

(** The loop of [list_get] walks to the node at position [pos]. *)
Lemma get_walk_ok m es :
  forall pos,
    chain (heap m) es -> (pos < length es)%nat ->
    get_walk pos (node_at es 0) m = Ret (node_at es pos) m.
Proof.
  induction es as [|e es IH]; intros pos Hc Hp; [simpl in Hp; lia|].
  destruct pos as [|pos]; [reflexivity|].
  destruct Hc as ((pv & Hn) & _ & _ & Hc). simpl in Hp.
  cbn [get_walk node_at lookup list_lookup]. unfold bind at 1. simpl.
  unfold bind at 1. simpl.
  rewrite (bind_ret _ _ _ _ _ (get_next_ok _ _ _ Hn)). simpl.
  rewrite (IH _ Hc) by lia. reflexivity.
Qed.

(** Below the length of the chain, [list_get] returns the payload stored at
    the position. *)
Lemma list_get_chain m es fuel j e :
  chain (heap m) es -> (length es < fuel)%nat ->
  N.of_nat (length es) < SIZE_MOD ->
  es !! j = Some e ->
  list_get fuel (node_at es 0) (N.of_nat j) m = Ret (Vptr (e_buf e)) m.
Proof.
  intros Hc Hf Hlen Hj. pose proof (lookup_lt_Some _ _ _ Hj) as Hlt.
  destruct (chain_lookup _ _ _ _ Hc Hj) as ((pv & Hn) & Hd & _).
  unfold list_get. destruct es as [|e0 es'] eqn:Ees; [discriminate|].
  rewrite <- Ees in *.
  assert (Hroot : node_at es 0 = Vptr (e_node e0)) by now subst.
  rewrite Hroot. unfold bind at 1. cbn [is_null ret]. rewrite <- Hroot.
  rewrite (bind_ret _ _ _ _ _ (list_len_ok m es fuel Hc Hf)).
  rewrite wrap_small by exact Hlen.
  replace (N.of_nat (length es) <=? N.of_nat j) with false
    by (symmetry; apply N.leb_gt; lia).
  rewrite Nat2N.id. rewrite (bind_ret _ _ _ _ _ (get_walk_ok m es _ Hc Hlt)).
  rewrite (node_at_Some _ _ _ Hj). exec (get_data_ok _ _ _ Hn).
  now rewrite (get_payload_ok _ _ _ Hd).
Qed.

Lemma separate_cons e es :
  separate (e :: es) ->
  NoDup (entry_locs e) /\
  (forall x, x ∈ entry_locs e -> forall b, b ∈ es -> x ∉ entry_locs b) /\
  separate es.
Proof.
  unfold separate. intros H.
  change (NoDup (entry_locs e ++ (es ≫= entry_locs))) in H.
  apply list.NoDup_app in H as (H1 & H2 & H3).
  repeat split; trivial. intros x Hx b Hb Hxb. apply (H2 x Hx).
  apply list_elem_of_bind. eauto.
Qed.

(** Blocks owned by entries at different positions are different. *)
Lemma separate_ne es :
  forall i j a b x y,
    separate es -> es !! i = Some a -> es !! j = Some b -> i <> j ->
    x ∈ entry_locs a -> y ∈ entry_locs b -> x <> y.
Proof.
  induction es as [|e es IH]; intros i j a b x y Hs Hi Hj Hij Hx Hy; [discriminate|].
  apply separate_cons in Hs as (_ & Hd & Hs).
  destruct i as [|i], j as [|j]; simpl in Hi, Hj; try lia.
  - injection Hi as <-. intros ->. apply list_elem_of_lookup_2 in Hj.
    exact (Hd _ Hx _ Hj Hy).
  - injection Hj as <-. intros ->. apply list_elem_of_lookup_2 in Hi.
    exact (Hd _ Hy _ Hi Hx).
  - eapply (IH i j); eauto.
Qed.

(** The three blocks of one entry are different. *)
Lemma separate_own es i a :
  separate es -> es !! i = Some a ->
  e_node a <> e_data a /\ e_node a <> e_buf a /\ e_data a <> e_buf a.
Proof.
  revert i. induction es as [|e es IH]; intros i Hs Hi; [discriminate|].
  apply separate_cons in Hs as (Hn & _ & Hs). destruct i as [|i]; simpl in Hi.
  - injection Hi as <-. unfold entry_locs in Hn.
    apply list.NoDup_cons in Hn as (H1 & Hn). apply list.NoDup_cons in Hn as (H2 & _).
    rewrite !not_elem_of_cons in H1. rewrite !not_elem_of_cons in H2. tauto.
  - eauto.
Qed.

Lemma node_at_delete_lt es i j :
  (j < i)%nat -> node_at (delete i es) j = node_at es j.
Proof. intros H. unfold node_at. now rewrite list_lookup_delete_lt. Qed.

Lemma node_at_delete_ge es i j :
  (i <= j)%nat -> node_at (delete i es) j = node_at es (S j).
Proof. intros H. unfold node_at. now rewrite list_lookup_delete_ge. Qed.

Lemma separate_delete es i : separate es -> separate (delete i es).
Proof.
  unfold separate. intros H. eapply sublist_NoDup; [exact H|].
  apply bind_sublist, sublist_delete.
Qed.

(** ** Scanning for a payload *)


Section Scan.

Variables (m : mem) (prv : val) (es : list entry).
Variables (pb : loc) (buf : list mbyte) (size : N).
Hypothesis Hlinked : linked (heap m) prv es.
Hypothesis Hbuf : heap m !! pb = Some (OBytes buf).

(** Comparing the node at position [k] with the supplied buffer. *)
Lemma compare_at k e r (K : Z -> M val) :
  es !! k = Some e ->
  bytes_cmp (N.to_nat size) (e_bytes e) buf = Some r ->
  (do d <- get_data (Vptr (e_node e)) ;
   do pl <- get_payload d ;
   do r <- memcmp pl (Vptr pb) size ;
   K r) m = K r m.
Proof.
  intros Hk Hr. destruct (linked_lookup _ _ _ _ _ Hlinked Hk) as (Hn & Hd & Hb).
  exec (get_data_ok _ _ _ Hn). exec (get_payload_ok _ _ _ Hd).
  exec (memcmp_ok _ _ _ _ _ _ _ Hb Hbuf Hr). reflexivity.
Qed.

Lemma next_at k e : es !! k = Some e ->
  get_next (Vptr (e_node e)) m = Ret (node_at es (S k)) m.
Proof.
  intros Hk. destruct (linked_lookup _ _ _ _ _ Hlinked Hk) as (Hn & _).
  now rewrite (get_next_ok _ _ _ Hn).
Qed.

(** [list_search] walks over the nodes that differ from the buffer. *)
Lemma list_search_skip n :
  forall k fuel,
    (forall j e, (k <= j < k + n)%nat -> es !! j = Some e -> differs size buf e) ->
    (k + n <= length es)%nat ->
    list_search (n + fuel) (node_at es k) (Vptr pb) size m
    = list_search fuel (node_at es (k + n)) (Vptr pb) size m.
Proof.
  induction n as [|n IH]; intros k fuel Hd Hlen.
  - now rewrite Nat.add_0_r.
  - destruct (lookup_lt_is_Some_2 es k) as [e Hk]; [lia|].
    destruct (Hd k e) as (r & Hr & Hr0); [lia|exact Hk|].
    rewrite (node_at_Some _ _ _ Hk). cbn [Nat.add list_search].
    unfold bind at 1. cbn [is_null ret].
    rewrite (compare_at _ _ _ _ Hk Hr).
    apply Z.eqb_neq in Hr0. rewrite Hr0.
    exec (next_at _ _ Hk). rewrite IH by (try lia; intros; eapply Hd; eauto; lia).
    now rewrite Nat.add_succ_r.
Qed.

(** [list_del] walks over the nodes that differ from the buffer. *)
Lemma list_del_skip root n :
  forall k fuel,
    (forall j e, (k <= j < k + n)%nat -> es !! j = Some e -> differs size buf e) ->
    (k + n <= length es)%nat ->
    list_del_loop (n + fuel) root (node_at es k) (Vptr pb) size m
    = list_del_loop fuel root (node_at es (k + n)) (Vptr pb) size m.
Proof.
  induction n as [|n IH]; intros k fuel Hd Hlen.
  - now rewrite Nat.add_0_r.
  - destruct (lookup_lt_is_Some_2 es k) as [e Hk]; [lia|].
    destruct (Hd k e) as (r & Hr & Hr0); [lia|exact Hk|].
    rewrite (node_at_Some _ _ _ Hk). cbn [Nat.add list_del_loop].
    unfold bind at 1. cbn [is_null ret].
    rewrite (compare_at _ _ _ _ Hk Hr).
    apply Z.eqb_neq in Hr0. rewrite Hr0.
    exec (next_at _ _ Hk). rewrite IH by (try lia; intros; eapply Hd; eauto; lia).
    now rewrite Nat.add_succ_r.
Qed.

(** A search stops at the first node that matches. *)
Lemma list_search_found i e fuel :
  es !! i = Some e ->
  Forall (differs size buf) (take i es) ->
  matches size buf e ->
  (i < fuel)%nat ->
  list_search fuel (node_at es 0) (Vptr pb) size m = Ret (Vptr (e_node e)) m.
Proof.
  intros Hi Hd Hm Hf. replace fuel with (i + S (fuel - S i))%nat by lia.
  rewrite list_search_skip.
  - cbn [Nat.add list_search]. rewrite (node_at_Some _ _ _ Hi).
    unfold bind at 1. cbn [is_null ret].
    rewrite (compare_at _ _ _ _ Hi Hm). reflexivity.
  - intros j e' Hj He'. apply (Forall_lookup_1 _ _ j e' Hd).
    rewrite lookup_take_lt by lia. exact He'.
  - apply lookup_lt_Some in Hi. lia.
Qed.

(** A search that finds no match returns the absent result. *)
Lemma list_search_miss fuel :
  Forall (differs size buf) es ->
  (length es < fuel)%nat ->
  list_search fuel (node_at es 0) (Vptr pb) size m = Ret Vnull m.
Proof.
  intros Hd Hf. replace fuel with (length es + S (fuel - S (length es)))%nat by lia.
  rewrite list_search_skip.
  - cbn [Nat.add list_search]. now rewrite node_at_None by lia.
  - intros j e' _ He'. eapply Forall_lookup_1; eauto.
  - lia.
Qed.

(** A deletion that finds no match fails its final assertion. *)
Lemma list_del_miss root fuel :
  Forall (differs size buf) es ->
  (length es < fuel)%nat ->
  list_del_loop fuel root (node_at es 0) (Vptr pb) size m = Abort.
Proof.
  intros Hd Hf. replace fuel with (length es + S (fuel - S (length es)))%nat by lia.
  rewrite list_del_skip.
  - cbn [Nat.add list_del_loop]. now rewrite node_at_None by lia.
  - intros j e' _ He'. eapply Forall_lookup_1; eauto.
  - lia.
Qed.

End Scan.

(** ** Unlinking a node *)

Lemma free_node_ok m n d b nd dd o :
  heap m !! n = Some (ONode nd) -> node_data nd = Vptr d ->
  heap m !! d = Some (OData dd) -> data_payload dd = Vptr b ->
  heap m !! b = Some o ->
  n <> d -> n <> b -> d <> b ->
  free_node (Vptr n) m
  = Ret tt (mk_mem (delete n (delete d (delete b (heap m)))) (allocs m)).
Proof.
  intros Hn End Hd Edd Hb Hnd Hnb Hdb. unfold free_node.
  exec (get_data_ok _ _ _ Hn). rewrite End.
  exec (get_payload_ok _ _ _ Hd). rewrite Edd.
  exec (free_ok _ _ _ Hb).
  assert (Hn' : delete b (heap m) !! n = Some (ONode nd))
    by now rewrite lookup_delete_ne.
  assert (Hd' : delete b (heap m) !! d = Some (OData dd))
    by now rewrite lookup_delete_ne.
  exec (get_data_ok n nd (mk_mem (delete b (heap m)) (allocs m)) Hn').
  rewrite End.
  exec (free_ok d _ (mk_mem (delete b (heap m)) (allocs m)) Hd').
  refine (free_ok n (ONode nd) (mk_mem (delete d (delete b (heap m))) (allocs m)) _).
  cbn [heap]. rewrite lookup_delete_ne by congruence. exact Hn'.
Qed.

Lemma in_locs_node (a : entry) : e_node a ∈ entry_locs a.
Proof. unfold entry_locs. apply list_elem_of_here. Qed.

Lemma in_locs_data (a : entry) : e_data a ∈ entry_locs a.
Proof. unfold entry_locs. apply list_elem_of_further, list_elem_of_here. Qed.

Lemma in_locs_buf (a : entry) : e_buf a ∈ entry_locs a.
Proof. unfold entry_locs. do 2 apply list_elem_of_further. apply list_elem_of_here. Qed.

Create HintDb locs.

#[local] Hint Resolve in_locs_node in_locs_data in_locs_buf : locs.

(** Relinking the neighbours touches only their node blocks. *)
Lemma relinked_other h es i l :
  (forall e', es !! S i = Some e' -> e_node e' <> l) ->
  (forall k e', i = S k -> es !! k = Some e' -> e_node e' <> l) ->
  relink_prev es i (relink_next es i h) !! l = h !! l.
Proof.
  intros Hn Hp. unfold relink_prev, relink_next.
  assert (Hnext : match es !! S i with
                  | Some e1 =>
                      <[e_node e1 := ONode (mk_node (Vptr (e_data e1))
                                              (prev_at Vnull es i)
                                              (node_at es (S (S i))))]> h
                  | None => h
                  end !! l = h !! l).
  { destruct (es !! S i) as [e1|] eqn:E1; [|reflexivity].
    apply lookup_insert_ne. now apply Hn. }
  destruct i as [|k]; [exact Hnext|].
  destruct (es !! k) as [e0|] eqn:E0; [|exact Hnext].
  rewrite lookup_insert_ne by now apply (Hp k). exact Hnext.
Qed.

(** The successor of the unlinked node now points back to its predecessor. *)
Lemma relinked_next h es i e e1 :
  separate es -> es !! i = Some e -> es !! S i = Some e1 ->
  relink_prev es i (relink_next es i h) !! e_node e1
  = Some (ONode (mk_node (Vptr (e_data e1)) (prev_at Vnull es i)
                   (node_at es (S (S i))))).
Proof.
  intros Hs Hi H1. unfold relink_prev, relink_next. rewrite H1.
  destruct i as [|k]; [apply lookup_insert_eq|].
  destruct (es !! k) as [e0|] eqn:E0; [|apply lookup_insert_eq].
  rewrite lookup_insert_ne; [apply lookup_insert_eq|].
  apply (separate_ne es k (S (S k)) e0 e1); auto with locs. lia.
Qed.

(** The predecessor of the unlinked node now points forward to its
    successor. *)
Lemma relinked_prev h es k e0 :
  es !! k = Some e0 ->
  relink_prev es (S k) (relink_next es (S k) h) !! e_node e0
  = Some (ONode (mk_node (Vptr (e_data e0)) (prev_at Vnull es k)
                   (node_at es (S (S k))))).
Proof. intros H0. unfold relink_prev. rewrite H0. apply lookup_insert_eq. Qed.

(** The blocks of the other entries survive the release of entry [i]. *)
Lemma release_other e (h : gmap loc obj) l :
  l ∉ entry_locs e -> release e h !! l = h !! l.
Proof.
  unfold entry_locs, release. rewrite !not_elem_of_cons. intros (H1 & H2 & H3 & _).
  now rewrite !lookup_delete_ne by congruence.
Qed.

Lemma release_own e (h : gmap loc obj) l :
  l ∈ entry_locs e -> release e h !! l = None.
Proof.
  unfold entry_locs, release. intros H.
  destruct (decide (l = e_node e)) as [->|H1]; [apply lookup_delete_eq|].
  rewrite lookup_delete_ne by congruence.
  destruct (decide (l = e_data e)) as [->|H2]; [apply lookup_delete_eq|].
  rewrite lookup_delete_ne by congruence.
  destruct (decide (l = e_buf e)) as [->|H3]; [apply lookup_delete_eq|].
  exfalso. rewrite !elem_of_cons in H. destruct H as [|[|[|H]]]; try congruence.
  now apply not_elem_of_nil in H.
Qed.

(** Unlinking a node leaves a well-formed chain of the remaining nodes. *)
Lemma unlinked_linked h es i e :
  linked h Vnull es -> separate es -> es !! i = Some e ->
  linked (unlinked es i e h) Vnull (delete i es).
Proof.
  intros Hl Hs Hi. apply linked_intro. intros j e' Hj.
  assert (Hcase : exists j', es !! j' = Some e' /\ j' <> i /\
                    ((j < i)%nat /\ j' = j \/ (i <= j)%nat /\ j' = S j)).
  { destruct (decide (j < i)%nat).
    - exists j. rewrite list_lookup_delete_lt in Hj by trivial.
      repeat split; trivial; [lia | left; now split].
    - exists (S j). rewrite list_lookup_delete_ge in Hj by lia.
      repeat split; trivial; [lia | right; split; [lia|reflexivity]]. }
  destruct Hcase as (j' & Hj' & Hne & Hcase).
  destruct (linked_lookup _ _ _ _ _ Hl Hj') as (Hn' & Hd' & Hb').
  destruct (separate_own _ _ _ Hs Hj') as (Hnd & Hnb & Hdb).
  assert (Hout : forall x, x ∈ entry_locs e' -> x ∉ entry_locs e).
  { intros x Hx Hx'. exact (separate_ne es j' i e' e x x Hs Hj' Hi Hne Hx Hx' eq_refl). }
  assert (Hother : forall k e'' x, es !! k = Some e'' -> x ∈ entry_locs e' ->
                     x <> e_node e' -> e_node e'' <> x).
  { intros k e'' x Hk Hx Hxn E. destruct (decide (k = j')) as [->|Hkj].
    - rewrite Hj' in Hk. injection Hk as ->. congruence.
    - apply (separate_ne es k j' e'' e' (e_node e'') x); auto with locs. }
  unfold unlinked. repeat split.
  - rewrite release_other by auto with locs.
    destruct Hcase as [[Hlt ->]|[Hge ->]].
    + replace (prev_at Vnull (delete i es) j) with (prev_at Vnull es j)
        by (destruct j; simpl; [|rewrite node_at_delete_lt by lia]; reflexivity).
      destruct (decide (S j = i)) as [<-|Hji].
      * rewrite (relinked_prev _ _ _ _ Hj').
        now rewrite node_at_delete_ge by lia.
      * rewrite relinked_other; [now rewrite node_at_delete_lt by lia| |].
        -- intros e1 H1. apply (separate_ne es (S i) j e1 e'); auto with locs; lia.
        -- intros k e0 -> H0. apply (separate_ne es k j e0 e'); auto with locs; lia.
    + rewrite (node_at_delete_ge _ i (S j)) by lia.
      destruct (decide (j = i)) as [->|Hji].
      * rewrite (relinked_next _ _ _ _ _ Hs Hi Hj').
        replace (prev_at Vnull (delete i es) i) with (prev_at Vnull es i)
          by (destruct i; simpl; [|rewrite node_at_delete_lt by lia]; reflexivity).
        reflexivity.
      * rewrite relinked_other.
        -- rewrite Hn'. destruct j as [|j]; [lia|]. simpl.
           now rewrite node_at_delete_ge by lia.
        -- intros e1 H1. apply (separate_ne es (S i) (S j) e1 e'); auto with locs; lia.
        -- intros k e0 -> H0. apply (separate_ne es k (S j) e0 e'); auto with locs; lia.
  - rewrite release_other by auto with locs.
    rewrite relinked_other; [exact Hd'| |]; intros; eapply Hother; eauto with locs.
  - rewrite release_other by auto with locs.
    rewrite relinked_other; [exact Hb'| |]; intros; eapply Hother; eauto with locs.
Qed.

(** Releasing the node at position [i] once its neighbours are relinked. *)
Lemma free_unlinked m' h es i e :
  heap m' = relink_prev es i (relink_next es i h) ->
  linked h Vnull es -> separate es -> es !! i = Some e ->
  free_node (Vptr (e_node e)) m'
  = Ret tt (mk_mem (unlinked es i e h) (allocs m')).
Proof.
  intros Hm' Hl Hs Hi.
  destruct (linked_lookup _ _ _ _ _ Hl Hi) as (Hn & Hd & Hb).
  destruct (separate_own _ _ _ Hs Hi) as (Hnd & Hnb & Hdb).
  assert (Hown : forall x, x ∈ entry_locs e -> heap m' !! x = h !! x).
  { intros x Hx. rewrite Hm'. apply relinked_other.
    - intros e1 H1. apply (separate_ne es (S i) i e1 e); auto with locs; lia.
    - intros k e0 -> H0. apply (separate_ne es k (S k) e0 e); auto with locs; lia. }
  unfold unlinked, release. rewrite <- Hm'.
  eapply free_node_ok;
    try (rewrite Hown by auto with locs; eassumption); trivial.
Qed.

(** The body of the loop of [list_del] at a node that matches. *)
Lemma list_del_at m root es i e pb buf size fuel :
  linked (heap m) Vnull es -> separate es ->
  heap m !! pb = Some (OBytes buf) ->
  es !! i = Some e -> matches size buf e ->
  list_del_loop (S fuel) root (node_at es i) (Vptr pb) size m
  = Ret (match i with O => node_at es 1 | S _ => root end)
        (mk_mem (unlinked es i e (heap m)) (allocs m)).
Proof.
  intros Hl Hs Hbuf Hi Hm.
  destruct (linked_lookup _ _ _ _ _ Hl Hi) as (Hn & Hd & Hb).
  rewrite (node_at_Some _ _ _ Hi). cbn [list_del_loop].
  unfold bind at 1. cbn [is_null ret].
  rewrite (compare_at m Vnull es pb buf size Hl Hbuf i e 0%Z _ Hi Hm).
  cbn [Z.eqb]. exec (get_prev_ok _ _ _ Hn).
  destruct (es !! S i) as [e1|] eqn:E1.
  - (* the node has a successor *)
    destruct (linked_lookup _ _ _ _ _ Hl E1) as (Hn1 & _).
    assert (Hne1 : e_node e1 <> e_node e)
      by (apply (separate_ne es (S i) i e1 e); auto with locs; lia).
    rewrite (node_at_Some _ _ _ E1) in *.
    destruct i as [|k]; cbn [prev_at] in *.
    + (* first node, followed by another one *)
      unfold bind at 1. cbn [is_null ret]. exec (get_next_ok _ _ _ Hn).
      unfold bind at 1. cbn [is_null ret negb].
      exec (get_next_ok _ _ _ Hn). exec (set_prev_ok _ _ Vnull _ Hn1).
      set (m1 := mk_mem _ (allocs m)).
      assert (Hn' : heap m1 !! e_node e = Some (ONode
                 (mk_node (Vptr (e_data e)) Vnull (Vptr (e_node e1)))))
        by (unfold m1; cbn [heap]; now rewrite lookup_insert_ne).
      exec (get_next_ok _ _ _ Hn').
      rewrite (bind_ret _ _ _ _ _ (free_unlinked m1 (heap m) es 0 e
                                     ltac:(unfold m1, relink_prev, relink_next;
                                           now rewrite E1) Hl Hs Hi)).
      now rewrite (node_at_Some _ _ _ E1).
    + (* interior node *)
      destruct (lookup_lt_is_Some_2 es k) as [e0 E0];
        [apply lookup_lt_Some in Hi; lia|].
      destruct (linked_lookup _ _ _ _ _ Hl E0) as (Hn0 & _).
      assert (Hne0 : e_node e0 <> e_node e)
        by (apply (separate_ne es k (S k) e0 e); auto with locs; lia).
      assert (Hne01 : e_node e0 <> e_node e1)
        by (apply (separate_ne es k (S (S k)) e0 e1); auto with locs; lia).
      rewrite (node_at_Some _ _ _ E0), ?(node_at_Some _ _ _ Hi) in *.
      unfold bind at 1. cbn [is_null ret]. exec (get_next_ok _ _ _ Hn).
      unfold bind at 1. cbn [is_null ret negb]. unfold bind at 1.
      exec (get_next_ok _ _ _ Hn). exec (get_prev_ok _ _ _ Hn).
      exec (set_prev_ok _ _ (Vptr (e_node e0)) _ Hn1).
      set (m1 := mk_mem _ (allocs m)).
      assert (Hn' : heap m1 !! e_node e = Some (ONode
                 (mk_node (Vptr (e_data e)) (Vptr (e_node e0)) (Vptr (e_node e1)))))
        by (unfold m1; cbn [heap]; now rewrite lookup_insert_ne).
      assert (Hn0' : heap m1 !! e_node e0 = Some (ONode
                 (mk_node (Vptr (e_data e0)) (prev_at Vnull es k) (Vptr (e_node e)))))
        by (unfold m1; cbn [heap]; rewrite lookup_insert_ne by congruence; exact Hn0).
      exec (get_prev_ok _ _ _ Hn'). exec (get_next_ok _ _ _ Hn').
      exec (set_next_ok _ _ (Vptr (e_node e1)) _ Hn0').
      set (m2 := mk_mem _ (allocs m1)).
      rewrite (free_unlinked m2 (heap m) es (S k) e); trivial.
      unfold m2, m1, relink_prev, relink_next. cbn [heap]. rewrite E1, E0.
      cbn [prev_at].
      now rewrite (node_at_Some _ _ _ E0), (node_at_Some _ _ _ E1).
  - (* the node is the last one *)
    rewrite (node_at_None es (S i)) in *
      by (apply lookup_ge_None; exact E1).
    destruct i as [|k]; cbn [prev_at] in *.
    + (* the only node *)
      unfold bind at 1. cbn [is_null ret]. exec (get_next_ok _ _ _ Hn).
      unfold bind at 1. cbn [is_null ret negb].
      rewrite (bind_ret _ _ _ _ _ (free_unlinked m (heap m) es 0 e
                                     ltac:(unfold relink_prev, relink_next;
                                           now rewrite E1) Hl Hs Hi)).
      now rewrite (node_at_None es 1) by (apply lookup_ge_None; exact E1).
    + (* last node, with a predecessor *)
      destruct (lookup_lt_is_Some_2 es k) as [e0 E0];
        [apply lookup_lt_Some in Hi; lia|].
      destruct (linked_lookup _ _ _ _ _ Hl E0) as (Hn0 & _).
      rewrite (node_at_Some _ _ _ E0), ?(node_at_Some _ _ _ Hi) in *.
      unfold bind at 1. cbn [is_null ret]. exec (get_next_ok _ _ _ Hn).
      unfold bind at 1. cbn [is_null ret negb]. unfold bind at 1.
      exec (get_prev_ok _ _ _ Hn). exec (set_next_ok _ _ Vnull _ Hn0).
      set (m1 := mk_mem _ (allocs m)).
      rewrite (free_unlinked m1 (heap m) es (S k) e); trivial.
      unfold m1, relink_prev, relink_next. cbn [heap]. rewrite E1, E0.
      now rewrite (node_at_None es (S (S k))) by (apply lookup_ge_None; exact E1).
Qed.

(** A deletion unlinks and releases the first node that matches. *)
Lemma list_del_found m root es i e pb buf size fuel :
  is_list (heap m) root es ->
  heap m !! pb = Some (OBytes buf) ->
  es !! i = Some e ->
  Forall (differs size buf) (take i es) ->
  matches size buf e ->
  (i < fuel)%nat ->
  list_del fuel root (Vptr pb) size m
  = Ret (node_at (delete i es) 0) (mk_mem (unlinked es i e (heap m)) (allocs m)).
Proof.
  intros (-> & Hl & Hs) Hbuf Hi Hd Hm Hf. unfold list_del.
  replace fuel with (i + S (fuel - S i))%nat by lia.
  rewrite (list_del_skip m Vnull es pb buf size Hl Hbuf).
  - cbn [Nat.add]. rewrite (list_del_at _ _ _ _ _ _ _ _ _ Hl Hs Hbuf Hi Hm).
    f_equal. destruct i.
    + now rewrite node_at_delete_ge by lia.
    + now rewrite node_at_delete_lt by lia.
  - intros j e' Hj He'. apply (Forall_lookup_1 _ _ j e' Hd).
    rewrite lookup_take_lt by lia. exact He'.
  - apply lookup_lt_Some in Hi. lia.
Qed.

(** Comparing two runs of bytes yields zero exactly when the first [n]
    bytes of both are initialised and equal. *)
Lemma bytes_cmp_zero n :
  forall a b,
    bytes_cmp n a b = Some 0%Z <->
    exists bs : list byte,
      length bs = n /\ take n a = Some <$> bs /\ take n b = Some <$> bs.
Proof.
  induction n as [|n IH]; intros a b.
  - split; [|reflexivity]. intros _. exists []. now rewrite !take_0.
  - destruct a as [|[x|] a], b as [|[y|] b]; simpl;
      try (split; [discriminate|];
           intros ([|z bs] & Hlen & Ha & Hb); discriminate).
    split.
    + destruct (bytes_cmp n a b) as [r|] eqn:Er; [|discriminate].
      destruct (N.compare_spec (Byte.to_N x) (Byte.to_N y)) as [E|E|E];
        [|discriminate..].
      intros [= ->]. apply IH in Er as (bs & Hlen & Ha & Hb).
      assert (x = y) as ->.
      { apply (f_equal Byte.of_N) in E. rewrite !Byte.of_to_N in E. congruence. }
      exists (y :: bs). rewrite fmap_cons, Ha, Hb. simpl. auto.
    + intros ([|z bs] & Hlen & Ha & Hb); [discriminate|].
      rewrite fmap_cons in Ha, Hb. injection Ha as -> Ha. injection Hb as -> Hb.
      injection Hlen as Hlen.
      rewrite (proj2 (IH a b)) by eauto. now rewrite N.compare_refl.
Qed.

Lemma matches_not_differs size buf e : matches size buf e -> ~ differs size buf e.
Proof. unfold matches. intros H (r & Hr & Hr0). congruence. Qed.

(** Either every node differs from the buffer or there is a first node
    that matches it. *)
Lemma first_match size buf es :
  Forall (fun e => matches size buf e \/ differs size buf e) es ->
  Forall (differs size buf) es \/
  exists i e, es !! i = Some e /\ Forall (differs size buf) (take i es) /\
              matches size buf e.
Proof.
  induction 1 as [|e es [Hm|Hd] _ IH].
  - left. constructor.
  - right. exists O, e. repeat split; trivial.
  - destruct IH as [IH|(i & e' & Hi & Hpre & Hm)].
    + left. now constructor.
    + right. exists (S i), e'. repeat split; trivial. simpl. now constructor.
Qed.

(** ** Construction *)


Lemma bytes_cmp_take n a (cs : list byte) :
  length cs = n -> take n a = Some <$> cs ->
  bytes_cmp n a (take n a) = Some 0%Z.
Proof.
  intros Hlen Ha. apply bytes_cmp_zero. exists cs. repeat split; trivial.
  now rewrite take_take, Nat.min_id.
Qed.

Lemma list_init_ok m p bs (cs : list byte) size :
  heap m !! p = Some (OBytes bs) ->
  0 < size ->
  length cs = N.to_nat size ->
  take (N.to_nat size) bs = Some <$> cs ->
  allocs_succeed 3 (allocs m) ->
  exists n d b m',
    list_init (Vptr p) size m = Ret (Vptr n) m' /\
    heap m' !! n = Some (ONode (mk_node (Vptr d) Vnull Vnull)) /\
    heap m' !! d = Some (OData (mk_data (Vptr b) (Some size))) /\
    heap m' !! b = Some (OBytes (Some <$> cs)) /\
    (heap m !! n = None /\ heap m !! d = None /\ heap m !! b = None) /\
    (n <> d /\ n <> b /\ d <> b) /\
    (forall l, l <> n -> l <> d -> l <> b -> heap m' !! l = heap m !! l) /\
    allocs m' = drop 3 (allocs m).
Proof.
  intros Hp Hsize Hlen Hcs Hal. unfold list_init.
  unfold bind at 1. cbn [is_null ret orb].
  replace (size <=? 0) with false by (symmetry; apply N.leb_gt; exact Hsize).
  (* the payload holder *)
  destruct (malloc_ok undef_data m (allocs_succeed_one _ _ Hal)) as [Hd Ed].
  set (d := fresh (dom (heap m))) in *. exec Ed.
  name_mem m1.
  unfold bind at 1. cbn [is_null ret].
  assert (H1 : heap m1 !! d = Some undef_data) by (unfold m1; lk).
  exec (set_size_ok _ _ size _ H1). name_mem m2.
  (* the payload bytes *)
  assert (Hal2 : allocs_succeed 2 (allocs m2))
    by (apply allocs_succeed_tail in Hal; exact Hal).
  destruct (malloc_ok (undef_bytes size) m2 (allocs_succeed_one _ _ Hal2)) as [Hb Eb].
  set (b := fresh (dom (heap m2))) in *. exec Eb.
  name_mem m3.
  assert (Hbd : b <> d).
  { intros E. rewrite E in Hb. unfold m2 in Hb. cbn [heap] in Hb.
    rewrite lookup_insert_eq in Hb. discriminate. }
  assert (Hbp : heap m !! b = None).
  { unfold m2, m1 in Hb. cbn [heap] in Hb.
    now rewrite !lookup_insert_ne in Hb by congruence. }
  assert (H3 : heap m3 !! d = Some (OData (mk_data Vundef (Some size))))
    by (unfold m3, m2; lk).
  exec (set_payload_ok _ _ (Vptr b) _ H3). name_mem m4.
  assert (H4 : heap m4 !! d = Some (OData (mk_data (Vptr b) (Some size))))
    by (unfold m4; lk).
  exec (get_payload_ok _ _ _ H4). unfold bind at 1. cbn [is_null ret].
  exec (get_payload_ok _ _ _ H4).
  (* the copy *)
  assert (H4b : heap m4 !! b = Some (undef_bytes size))
    by (unfold m4, m3; lk).
  assert (H4p : heap m4 !! p = Some (OBytes bs)).
  { unfold m4, m3, m2, m1. cbn [heap].
    rewrite !lookup_insert_ne; trivial; intros E; rewrite E in *; congruence. }
  assert (Hlenbs : (N.to_nat size <= length bs)%nat).
  { apply (f_equal length) in Hcs. rewrite length_take, length_fmap in Hcs. lia. }
  assert (Ecpy : memcpy (Vptr b) (Vptr p) size m4
                 = Ret tt (mk_mem (<[b := OBytes (Some <$> cs)]> (heap m4))
                             (allocs m4))).
  { unfold memcpy. exec (load_bytes_ok _ _ _ H4p). exec (load_bytes_ok _ _ _ H4b).
    rewrite bool_decide_false by (intros E; injection E as E; congruence).
    rewrite length_replicate.
    replace (N.of_nat (length bs) <? size) with false by (symmetry; apply N.ltb_ge; lia).
    replace (N.of_nat (N.to_nat size) <? size) with false
      by (symmetry; apply N.ltb_ge; lia).
    cbn [orb]. rewrite Hcs, drop_replicate, Nat.sub_diag, app_nil_r.
    eapply store_ok. exact H4b. }
  exec Ecpy. name_mem m5.
  (* the node *)
  assert (Hal5 : allocs_succeed 1 (allocs m5))
    by (apply allocs_succeed_tail in Hal2; exact Hal2).
  destruct (malloc_ok undef_node m5 Hal5) as [Hn En].
  set (n := fresh (dom (heap m5))) in *. exec En.
  name_mem m6.
  assert (Hnb : n <> b).
  { intros E. rewrite E in Hn. unfold m5 in Hn. cbn [heap] in Hn.
    rewrite lookup_insert_eq in Hn. discriminate. }
  assert (Hnd : n <> d).
  { intros E. rewrite E in Hn. unfold m5, m4 in Hn. cbn [heap] in Hn.
    rewrite lookup_insert_ne, lookup_insert_eq in Hn by congruence. discriminate. }
  assert (Hnp : heap m !! n = None).
  { unfold m5, m4, m3, m2, m1 in Hn. cbn [heap] in Hn.
    now rewrite !lookup_insert_ne in Hn by congruence. }
  unfold bind at 1. cbn [is_null ret].
  assert (H6 : heap m6 !! n = Some undef_node) by (unfold m6; lk).
  exec (set_data_ok _ _ (Vptr d) _ H6). name_mem m7.
  assert (H7 : heap m7 !! n = Some (ONode (mk_node (Vptr d) Vundef Vundef)))
    by (unfold m7; lk).
  exec (set_next_ok _ _ Vnull _ H7). name_mem m8.
  assert (H8 : heap m8 !! n = Some (ONode (mk_node (Vptr d) Vundef Vnull)))
    by (unfold m8; lk).
  exec (set_prev_ok _ _ Vnull _ H8). name_mem m9.
  assert (H9 : heap m9 !! n = Some (ONode (mk_node (Vptr d) Vnull Vnull)))
    by (unfold m9; lk).
  assert (H9d : heap m9 !! d = Some (OData (mk_data (Vptr b) (Some size))))
    by (unfold m9, m8, m7, m6, m5; lk).
  assert (H9b : heap m9 !! b = Some (OBytes (Some <$> cs)))
    by (unfold m9, m8, m7, m6, m5; lk).
  assert (H9p : heap m9 !! p = Some (OBytes bs)).
  { unfold m9, m8, m7, m6, m5. cbn [heap].
    rewrite !lookup_insert_ne; trivial; intros E; rewrite E in *; congruence. }
  (* the three assertions *)
  exec (get_data_ok _ _ _ H9). exec (get_payload_ok _ _ _ H9d).
  assert (Hcmp : bytes_cmp (N.to_nat size) bs (Some <$> cs) = Some 0%Z).
  { rewrite <- Hcs. eapply bytes_cmp_take; eauto. }
  exec (memcmp_ok _ _ _ _ _ _ _ H9p H9b Hcmp).
  unfold bind at 1. cbn [assert Z.eqb].
  exec (get_next_ok _ _ _ H9). unfold bind at 1. cbn [is_null ret].
  unfold bind at 1. cbn [assert].
  exec (get_prev_ok _ _ _ H9). unfold bind at 1. cbn [is_null ret].
  unfold bind at 1. cbn [assert].
  exists n, d, b, m9. repeat split; trivial.
  - congruence.
  - intros l Hln Hld Hlb. unfold m9, m8, m7, m6, m5, m4, m3, m2, m1. lk.
  - unfold m9, m8, m7, m6, m5, m4, m3, m2, m1. cbn [allocs].
    now destruct (allocs m) as [|? [|? [|? ?]]].
Qed.

(** ** Insertion in the middle *)

(** The first loop of [list_insert] stops at the node at position [pos],
    with the node before it at hand. *)
Lemma insert_walk_ok m es :
  chain (heap m) es ->
  forall n k pv,
    (k + n <= length es)%nat ->
    insert_walk n pv (node_at es k) m
    = Ret (match n with O => pv | S n' => node_at es (k + n') end,
           node_at es (k + n)) m.
Proof.
  intros Hc. induction n as [|n IH]; intros k pv Hlen.
  - now rewrite Nat.add_0_r.
  - destruct (lookup_lt_is_Some_2 es k) as [e Hk]; [lia|].
    destruct (chain_lookup _ _ _ _ Hc Hk) as ((pv' & Hn) & _).
    cbn [insert_walk]. rewrite (node_at_Some _ _ _ Hk).
    unfold bind at 1. cbn [is_null ret]. unfold bind at 1. cbn [assert negb].
    exec (get_next_ok _ _ _ Hn). rewrite <- (node_at_Some _ _ _ Hk).
    rewrite IH by lia. rewrite Nat.add_succ_r. f_equal. f_equal.
    destruct n; [now rewrite Nat.add_0_r | now rewrite Nat.add_succ_r].
Qed.

(** What the middle branch of [list_insert] leaves behind: the new node
    points back to the predecessor and forward to itself, the node at the
    position points back to the new node, and nothing else has changed. *)
Lemma list_insert_middle m root es p bs (cs : list byte) size k ek fuel :
  is_list (heap m) root es ->
  heap m !! p = Some (OBytes bs) ->
  length cs = N.to_nat size ->
  take (N.to_nat size) bs = Some <$> cs ->
  es !! S k = Some ek ->
  N.of_nat (length es) < SIZE_MOD ->
  (length es < fuel)%nat ->
  allocs_succeed 3 (allocs m) ->
  exists n d b m',
    list_insert fuel root (Vptr p) size (N.of_nat (S k)) m = Ret root m' /\
    (heap m !! n = None /\ heap m !! d = None /\ heap m !! b = None) /\
    heap m' !! n = Some (ONode (mk_node (Vptr d) (node_at es k) (Vptr n))) /\
    heap m' !! d = Some (OData (mk_data (Vptr b) (Some size))) /\
    heap m' !! b = Some (OBytes (Some <$> cs)) /\
    heap m' !! e_node ek
      = Some (ONode (mk_node (Vptr (e_data ek)) (Vptr n) (node_at es (S (S k))))) /\
    (forall l, l <> n -> l <> d -> l <> b -> l <> e_node ek ->
               heap m' !! l = heap m !! l).
Proof.
  intros (-> & Hl & Hs) Hp Hlen Hcs Hk Hmax Hf Hal.
  pose proof (linked_chain _ _ _ Hl) as Hc.
  pose proof (lookup_lt_Some _ _ _ Hk) as Hlt.
  destruct (lookup_lt_is_Some_2 es k) as [e0 H0]; [lia|].
  destruct (lookup_lt_is_Some_2 es 0) as [er Hr]; [lia|].
  destruct (linked_lookup _ _ _ _ _ Hl Hk) as (Hnk & _).
  cbn [prev_at] in Hnk.
  pose proof (list_len_ok m es fuel Hc Hf) as Elen.
  pose proof (insert_walk_ok m es Hc (S k) 0%nat Vnull ltac:(lia)) as Ewalk.
  cbn [Nat.add] in Ewalk.
  rewrite (node_at_Some _ _ _ H0), ?(node_at_Some _ _ _ Hk),
    ?(node_at_Some _ _ _ Hr) in *.
  unfold list_insert.
  unfold bind at 1. cbn [is_null ret]. unfold bind at 1. cbn [is_null ret].
  exec Elen. rewrite wrap_small by exact Hmax.
  replace (N.of_nat (length es) <? N.of_nat (S k)) with false
    by (symmetry; apply N.ltb_ge; lia).
  rewrite Nat2N.id. exec Ewalk.
  (* the three blocks of the new node *)
  destruct (malloc_ok undef_node m (allocs_succeed_one _ _ Hal)) as [Fn En].
  set (n := fresh (dom (heap m))) in *. exec En. name_mem m1.
  assert (Hal1 : allocs_succeed 2 (allocs m1))
    by (apply allocs_succeed_tail in Hal; exact Hal).
  destruct (malloc_ok undef_data m1 (allocs_succeed_one _ _ Hal1)) as [Fd Ed].
  set (d := fresh (dom (heap m1))) in *. exec Ed. name_mem m2.
  assert (Hal2 : allocs_succeed 1 (allocs m2))
    by (apply allocs_succeed_tail in Hal1; exact Hal1).
  destruct (malloc_ok (undef_bytes size) m2 Hal2) as [Fb Eb].
  set (b := fresh (dom (heap m2))) in *. exec Eb. name_mem m3.
  assert (Hdn : d <> n).
  { intros E. rewrite E in Fd. unfold m1 in Fd. cbn [heap] in Fd.
    rewrite lookup_insert_eq in Fd. discriminate. }
  assert (Hbd : b <> d).
  { intros E. rewrite E in Fb. unfold m2 in Fb. cbn [heap] in Fb.
    rewrite lookup_insert_eq in Fb. discriminate. }
  assert (Hbn : b <> n).
  { intros E. rewrite E in Fb. unfold m2, m1 in Fb. cbn [heap] in Fb.
    rewrite lookup_insert_ne, lookup_insert_eq in Fb by congruence. discriminate. }
  assert (Fd' : heap m !! d = None).
  { unfold m1 in Fd. cbn [heap] in Fd. now rewrite lookup_insert_ne in Fd by congruence. }
  assert (Fb' : heap m !! b = None).
  { unfold m2, m1 in Fb. cbn [heap] in Fb.
    now rewrite !lookup_insert_ne in Fb by congruence. }
  assert (Hold : forall l o, heap m !! l = Some o -> l <> n /\ l <> d /\ l <> b).
  { intros l o Hlo. repeat split; intros E; rewrite E in Hlo; congruence. }
  destruct (Hold _ _ Hp) as (Hpn & Hpd & Hpb).
  destruct (Hold _ _ Hnk) as (Hkn & Hkd & Hkb).
  assert (H3d : heap m3 !! d = Some undef_data) by (unfold m3, m2; lk).
  exec (set_payload_ok _ _ (Vptr b) _ H3d). name_mem m4.
  unfold bind at 1. cbn [is_null ret]. unfold bind at 1. cbn [is_null ret].
  unfold bind at 1.
  assert (H4d : heap m4 !! d = Some (OData (mk_data (Vptr b) None)))
    by (unfold m4; lk).
  exec (get_payload_ok _ _ _ H4d). cbn [is_null ret].
  unfold bind at 1. cbn [is_null ret].
  (* the middle branch *)
  assert (H4k : heap m4 !! e_node ek = Some (ONode
            (mk_node (Vptr (e_data ek)) (Vptr (e_node e0)) (node_at es (S (S k))))))
    by (unfold m4, m3, m2, m1; lk).
  unfold bind at 1. exec (get_prev_ok _ _ _ H4k).
  unfold bind at 1. cbn [is_null ret].
  exec (get_prev_ok _ _ _ H4k). unfold bind at 1. cbn [is_null ret].
  unfold bind at 1. cbn [assert negb andb].
  assert (H4n : heap m4 !! n = Some undef_node) by (unfold m4, m3, m2, m1; lk).
  exec (set_next_ok _ _ (Vptr (e_node ek)) _ H4n). name_mem m5.
  assert (H5k : heap m5 !! e_node ek = Some (ONode
            (mk_node (Vptr (e_data ek)) (Vptr (e_node e0)) (node_at es (S (S k))))))
    by (unfold m5; lk).
  exec (get_prev_ok _ _ _ H5k).
  assert (H5n : heap m5 !! n = Some (ONode (mk_node Vundef Vundef (Vptr (e_node ek)))))
    by (unfold m5; lk).
  exec (set_prev_ok _ _ (Vptr (e_node e0)) _ H5n). name_mem m6.
  assert (H6k : heap m6 !! e_node ek = Some (ONode
            (mk_node (Vptr (e_data ek)) (Vptr (e_node e0)) (node_at es (S (S k))))))
    by (unfold m6; lk).
  exec (set_prev_ok _ _ (Vptr n) _ H6k). name_mem m7.
  assert (H7k : heap m7 !! e_node ek = Some (ONode
            (mk_node (Vptr (e_data ek)) (Vptr n) (node_at es (S (S k))))))
    by (unfold m7; lk).
  exec (get_prev_ok _ _ _ H7k).
  assert (H7n : heap m7 !! n = Some (ONode
            (mk_node Vundef (Vptr (e_node e0)) (Vptr (e_node ek)))))
    by (unfold m7, m6; lk).
  exec (set_next_ok _ _ (Vptr n) _ H7n). cbn [ret]. name_mem m8.
  (* the copy of the payload *)
  assert (H8d : heap m8 !! d = Some (OData (mk_data (Vptr b) None)))
    by (unfold m8, m7, m6, m5; lk).
  assert (H8b : heap m8 !! b = Some (undef_bytes size))
    by (unfold m8, m7, m6, m5, m4, m3; lk).
  assert (H8p : heap m8 !! p = Some (OBytes bs)).
  { unfold m8, m7, m6, m5, m4, m3, m2, m1. cbn [heap].
    rewrite !lookup_insert_ne; trivial; intros E; rewrite E in *; congruence. }
  assert (Hlenbs : (N.to_nat size <= length bs)%nat).
  { apply (f_equal length) in Hcs. rewrite length_take, length_fmap in Hcs. lia. }
  assert (Ecpy : memcpy (Vptr b) (Vptr p) size m8
                 = Ret tt (mk_mem (<[b := OBytes (Some <$> cs)]> (heap m8))
                             (allocs m8))).
  { unfold memcpy. exec (load_bytes_ok _ _ _ H8p). exec (load_bytes_ok _ _ _ H8b).
    rewrite bool_decide_false by (intros E; injection E as E; congruence).
    rewrite length_replicate.
    replace (N.of_nat (length bs) <? size) with false by (symmetry; apply N.ltb_ge; lia).
    replace (N.of_nat (N.to_nat size) <? size) with false
      by (symmetry; apply N.ltb_ge; lia).
    cbn [orb]. rewrite Hcs, drop_replicate, Nat.sub_diag, app_nil_r.
    eapply store_ok. exact H8b. }
  exec (get_payload_ok _ _ _ H8d). exec Ecpy. name_mem m9.
  assert (H9d : heap m9 !! d = Some (OData (mk_data (Vptr b) None)))
    by (unfold m9; lk).
  exec (set_size_ok _ _ size _ H9d). name_mem m10.
  assert (H10n : heap m10 !! n = Some (ONode (mk_node Vundef (Vptr (e_node e0)) (Vptr n))))
    by (unfold m10, m9, m8; lk).
  exec (set_data_ok _ _ (Vptr d) _ H10n). name_mem m11.
  (* the final assertion *)
  assert (H11n : heap m11 !! n = Some (ONode (mk_node (Vptr d) (Vptr (e_node e0)) (Vptr n))))
    by (unfold m11; lk).
  assert (H11d : heap m11 !! d = Some (OData (mk_data (Vptr b) (Some size))))
    by (unfold m11, m10; lk).
  assert (H11b : heap m11 !! b = Some (OBytes (Some <$> cs)))
    by (unfold m11, m10, m9; lk).
  assert (H11p : heap m11 !! p = Some (OBytes bs)).
  { unfold m11, m10, m9. cbn [heap].
    rewrite !lookup_insert_ne; trivial; intros E; rewrite E in *; congruence. }
  assert (H11k : heap m11 !! e_node ek = Some (ONode
            (mk_node (Vptr (e_data ek)) (Vptr n) (node_at es (S (S k))))))
    by (unfold m11, m10, m9, m8; lk).
  exec (get_data_ok _ _ _ H11n). exec (get_payload_ok _ _ _ H11d).
  assert (Hcmp : bytes_cmp (N.to_nat size) bs (Some <$> cs) = Some 0%Z).
  { rewrite <- Hcs. eapply bytes_cmp_take; eauto. }
  exec (memcmp_ok _ _ _ _ _ _ _ H11p H11b Hcmp).
  unfold bind at 1. cbn [assert Z.eqb ret].
  exists n, d, b, m11. repeat split; trivial.
  intros l Hln Hld Hlb Hlk.
  unfold m11, m10, m9, m8, m7, m6, m5, m4, m3, m2, m1. lk.
Qed.

(** Seen from the root, an insertion in the middle changes nothing: the
    call returns the old root, and afterwards the forward chain, the length
    and the payload at every position are what they were. *)
Lemma list_insert_middle_forward_chain m root es p bs (cs : list byte) size k ek fuel :
  is_list (heap m) root es ->
  heap m !! p = Some (OBytes bs) ->
  length cs = N.to_nat size ->
  take (N.to_nat size) bs = Some <$> cs ->
  es !! S k = Some ek ->
  N.of_nat (length es) < SIZE_MOD ->
  (length es < fuel)%nat ->
  allocs_succeed 3 (allocs m) ->
  exists m',
    list_insert fuel root (Vptr p) size (N.of_nat (S k)) m = Ret root m' /\
    chain (heap m') es /\
    list_len fuel root m' = Ret (N.of_nat (length es)) m' /\
    (forall j e, es !! j = Some e ->
       list_get fuel root (N.of_nat j) m' = Ret (Vptr (e_buf e)) m' /\
       heap m' !! e_buf e = Some (OBytes (e_bytes e))).
Proof.
  intros Hlist Hp Hlen Hcs Hk Hmax Hf Hal.
  destruct (list_insert_middle _ _ _ _ _ _ _ _ _ _ Hlist Hp Hlen Hcs Hk Hmax Hf Hal)
    as (n & d & b & m' & Hrun & (Fn & Fd & Fb) & _ & _ & _ & Hnk & Hframe).
  destruct Hlist as (Hroot & Hl & Hs).
  assert (Hold : forall l o, heap m !! l = Some o -> l <> n /\ l <> d /\ l <> b).
  { intros l o Hlo. repeat split; intros E; rewrite E in Hlo; congruence. }
  assert (Hc : chain (heap m') es).
  { apply chain_intro. intros i e Hi.
    destruct (linked_lookup _ _ _ _ _ Hl Hi) as (Hn & Hd & Hb).
    destruct (separate_own _ _ _ Hs Hi) as (Hnd & Hnb & Hdb).
    destruct (Hold _ _ Hn) as (? & ? & ?). destruct (Hold _ _ Hd) as (? & ? & ?).
    destruct (Hold _ _ Hb) as (? & ? & ?).
    destruct (decide (i = S k)) as [->|Hne].
    - rewrite Hk in Hi. injection Hi as <-. repeat split.
      + eexists. exact Hnk.
      + rewrite Hframe by congruence. exact Hd.
      + rewrite Hframe by congruence. exact Hb.
    - assert (Hsep : forall x, x ∈ entry_locs e -> x <> e_node ek).
      { intros x Hx. apply (separate_ne es i (S k) e ek); auto with locs. }
      repeat split.
      + eexists. rewrite Hframe by auto with locs. exact Hn.
      + rewrite Hframe by auto with locs. exact Hd.
      + rewrite Hframe by auto with locs. exact Hb. }
  exists m'. split; [exact Hrun|]. split; [exact Hc|]. rewrite Hroot. split.
  - rewrite (list_len_ok m' es fuel Hc Hf). now rewrite wrap_small.
  - intros j e Hj. split.
    + now apply list_get_chain.
    + now destruct (chain_lookup _ _ _ _ Hc Hj) as (_ & _ & Hb).
Qed.


(** Two forward chains from the same reference visit the same nodes. *)
Lemma chain_nodes_agree h es :
  forall es',
    chain h es -> chain h es' -> node_at es 0 = node_at es' 0 ->
    forall i, node_at es i = node_at es' i.
Proof.
  induction es as [|e es IH]; intros [|e' es'] Hc Hc' H0 i;
    try discriminate.
  - reflexivity.
  - injection H0 as H0.
    destruct Hc as ((pv & Hn) & _ & _ & Hc), Hc' as ((pv' & Hn') & _ & _ & Hc').
    rewrite H0, Hn' in Hn. injection Hn as _ _ Hnext.
    destruct i as [|i].
    + unfold node_at. simpl. now rewrite H0.
    + change (node_at es i = node_at es' i). apply IH; auto.
Qed.

(** After an insertion in the middle, the memory holds no well-formed
    doubly-linked list from the returned root: the node at the position
    points back to the new node, which no forward chain from the root
    reaches. *)
Lemma list_insert_middle_not_list m root es p bs (cs : list byte) size k ek fuel :
  is_list (heap m) root es ->
  heap m !! p = Some (OBytes bs) ->
  length cs = N.to_nat size ->
  take (N.to_nat size) bs = Some <$> cs ->
  es !! S k = Some ek ->
  N.of_nat (length es) < SIZE_MOD ->
  (length es < fuel)%nat ->
  allocs_succeed 3 (allocs m) ->
  exists m',
    list_insert fuel root (Vptr p) size (N.of_nat (S k)) m = Ret root m' /\
    forall es', ~ is_list (heap m') root es'.
Proof.
  intros Hlist Hp Hlen Hcs Hk Hmax Hf Hal.
  destruct (list_insert_middle_forward_chain _ _ _ _ _ _ _ _ _ _
              Hlist Hp Hlen Hcs Hk Hmax Hf Hal) as (m1 & Hrun1 & Hc & _).
  destruct (list_insert_middle _ _ _ _ _ _ _ _ _ _ Hlist Hp Hlen Hcs Hk Hmax Hf Hal)
    as (n & d & b & m' & Hrun & (Fn & _) & _ & _ & _ & Hnk & _).
  rewrite Hrun in Hrun1. injection Hrun1 as <-.
  exists m'. split; [exact Hrun|]. intros es' (Hroot' & Hl' & _).
  destruct Hlist as (Hroot & Hl & Hs).
  pose proof (chain_nodes_agree _ _ _ Hc (linked_chain _ _ _ Hl')
                ltac:(congruence)) as Hagree.
  destruct (lookup_lt_is_Some_2 es k) as [e0 H0];
    [apply lookup_lt_Some in Hk; lia|].
  destruct (linked_lookup _ _ _ _ _ Hl H0) as (Hn0 & _).
  destruct (es' !! S k) as [e'|] eqn:Ek'.
  - destruct (linked_lookup _ _ _ _ _ Hl' Ek') as (Hnk' & _).
    pose proof (Hagree (S k)) as Ea.
    rewrite (node_at_Some _ _ _ Hk), (node_at_Some _ _ _ Ek') in Ea.
    injection Ea as Ea. rewrite <- Ea, Hnk in Hnk'. cbn [prev_at] in Hnk'.
    rewrite <- (Hagree k), (node_at_Some _ _ _ H0) in Hnk'.
    injection Hnk' as _ Hnew _. rewrite Hnew in Fn. congruence.
  - pose proof (Hagree (S k)) as Ea.
    rewrite (node_at_Some _ _ _ Hk) in Ea. unfold node_at in Ea.
    rewrite Ek' in Ea. discriminate.
Qed.

Lemma bytes_cmp_defined n :
  forall a b, readable n a -> readable n b -> exists r, bytes_cmp n a b = Some r.
Proof.
  induction n as [|n IH]; intros a b (ca & La & Ha) (cb & Lb & Hb).
  - now exists 0%Z.
  - destruct ca as [|x ca], cb as [|y cb]; try discriminate.
    rewrite fmap_cons in Ha, Hb.
    destruct a as [|a0 a], b as [|b0 b]; try discriminate.
    injection Ha as -> Ha. injection Hb as -> Hb.
    destruct (IH a b) as (r & Hr); [exists ca|exists cb|]; auto.
    simpl. rewrite Hr. destruct (Byte.to_N x ?= Byte.to_N y); eauto.
Qed.

Lemma readable_compare size buf e :
  readable (N.to_nat size) buf -> readable (N.to_nat size) (e_bytes e) ->
  matches size buf e \/ differs size buf e.
Proof.
  intros Hb He. destruct (bytes_cmp_defined _ _ _ He Hb) as (r & Hr).
  destruct (decide (r = 0%Z)) as [->|Hne]; [now left|right]. now exists r.
Qed.

(** * The claims *)

(** C9. For every reference from which a chain of [n] nodes leads to an
    absent forward relation, [list_len] returns [n], and [list_get] returns
    the absent result exactly when the reference is absent or the position
    is not below [n]; otherwise it returns the payload block of the node at
    that position of the chain, which holds that node's bytes. Neither call
    changes the memory. *)
Theorem list_get_spec m es fuel pos :
  chain (heap m) es ->
  N.of_nat (length es) < SIZE_MOD ->
  (length es < fuel)%nat ->
  exists v,
    list_get fuel (node_at es 0) pos m = Ret v m /\
    list_len fuel (node_at es 0) m = Ret (N.of_nat (length es)) m /\
    (v = Vnull <-> node_at es 0 = Vnull \/ N.of_nat (length es) <= pos) /\
    (forall e, es !! N.to_nat pos = Some e ->
       v = Vptr (e_buf e) /\
       heap m !! e_buf e = Some (OBytes (e_bytes e))) /\
    (pos < N.of_nat (length es) -> is_Some (es !! N.to_nat pos)).
Proof.
  intros Hl Hmax Hf.
  assert (Hlen : list_len fuel (node_at es 0) m = Ret (N.of_nat (length es)) m).
  { rewrite (list_len_ok m es fuel Hl Hf). now rewrite wrap_small. }
  assert (Hsome : pos < N.of_nat (length es) -> is_Some (es !! N.to_nat pos))
    by (intros Hpos; apply lookup_lt_is_Some_2; lia).
  unfold list_get. destruct es as [|e0 es'] eqn:Ees.
  - exists Vnull. split; [reflexivity|]. split; [exact Hlen|].
    split; [split; auto|]. split; [|exact Hsome]. intros e He. discriminate.
  - rewrite <- Ees in *. assert (Hroot : node_at es 0 = Vptr (e_node e0)) by now subst.
    rewrite Hroot. unfold bind at 1. cbn [is_null ret]. rewrite <- Hroot.
    rewrite (bind_ret _ _ _ _ _ Hlen).
    destruct (N.of_nat (length es) <=? pos) eqn:Hcmp.
    + apply N.leb_le in Hcmp. exists Vnull. split; [reflexivity|].
      split; [exact Hlen|]. split; [split; auto|]. split; [|exact Hsome].
      intros e He. apply lookup_lt_Some in He. lia.
    + apply N.leb_gt in Hcmp.
      assert (Hpos : (N.to_nat pos < length es)%nat) by lia.
      destruct (lookup_lt_is_Some_2 es _ Hpos) as [e He].
      destruct (chain_lookup _ _ _ _ Hl He) as ((pv & Hn) & Hd & Hb).
      rewrite (bind_ret _ _ _ _ _ (get_walk_ok m es _ Hl Hpos)).
      rewrite (node_at_Some _ _ _ He). exec (get_data_ok _ _ _ Hn).
      rewrite (get_payload_ok _ _ _ Hd). cbn [data_payload].
      exists (Vptr (e_buf e)). split; [reflexivity|]. split; [exact Hlen|].
      split; [|split; [|exact Hsome]].
      * split; [discriminate|]. intros [H|H]; [congruence | lia].
      * intros e' He'. assert (e' = e) by congruence. subst e'. auto.
Qed.

Lemma list_get_spec_witness :
  exists v,
    list_get 3 (Vptr 1) 1 two_nodes = Ret v two_nodes /\
    list_len 3 (Vptr 1) two_nodes = Ret (N.of_nat 2) two_nodes /\
    (v = Vnull <-> Vptr 1 = Vnull \/ N.of_nat 2 <= 1) /\
    (forall e, [node_a; node_b] !! N.to_nat 1 = Some e ->
       v = Vptr (e_buf e) /\
       heap two_nodes !! e_buf e = Some (OBytes (e_bytes e))) /\
    (1 < N.of_nat 2 -> is_Some ([node_a; node_b] !! N.to_nat 1)).
Proof.
  apply (list_get_spec two_nodes [node_a; node_b] 3 1).
  - vm_compute. repeat (split || eexists).
  - reflexivity.
  - simpl. lia.
Defined.

(** C6. [list_insert] with an absent root, or with a position beyond the
    length of the list, returns the absent result in the memory it was
    called in: no block is changed, and [list_len] of the original root
    gives afterwards what it gave before. *)
Theorem list_insert_rejected_unchanged m es fuel payload size pos :
  chain (heap m) es ->
  (length es < fuel)%nat ->
  payload <> Vundef ->
  es = [] \/ N.of_nat (length es) < pos ->
  list_insert fuel (node_at es 0) payload size pos m = Ret Vnull m /\
  exists len,
    list_len fuel (node_at es 0) m = Ret len m /\
    (run list_insert fuel (node_at es 0) payload size pos ;
     list_len fuel (node_at es 0)) m = Ret len m.
Proof.
  intros Hl Hf Hp Hrej.
  assert (Hins : list_insert fuel (node_at es 0) payload size pos m = Ret Vnull m).
  { unfold list_insert. destruct es as [|e0 es'] eqn:Ees; [reflexivity|].
    destruct Hrej as [|Hpos]; [discriminate|]. rewrite <- Ees in *.
    assert (Hroot : node_at es 0 = Vptr (e_node e0)) by now subst.
    rewrite Hroot. unfold bind at 1. cbn [is_null ret].
    destruct payload as [| |pl]; [congruence|reflexivity|].
    unfold bind at 1. cbn [is_null ret]. rewrite <- Hroot.
    rewrite (bind_ret _ _ _ _ _ (list_len_ok m es fuel Hl Hf)).
    replace (wrap (N.of_nat (length es)) <? pos) with true; [reflexivity|].
    symmetry. apply N.ltb_lt. pose proof (wrap_le (N.of_nat (length es))). lia. }
  split; [exact Hins|]. exists (wrap (N.of_nat (length es))).
  rewrite (bind_ret _ _ _ _ _ Hins). split; exact (list_len_ok m es fuel Hl Hf).
Qed.

Lemma list_insert_rejected_unchanged_witness :
  list_insert 3 (Vptr 1) (Vptr 7) 1 3 two_nodes = Ret Vnull two_nodes /\
  exists len,
    list_len 3 (Vptr 1) two_nodes = Ret len two_nodes /\
    (run list_insert 3 (Vptr 1) (Vptr 7) 1 3 ; list_len 3 (Vptr 1)) two_nodes
    = Ret len two_nodes.
Proof.
  apply (list_insert_rejected_unchanged two_nodes [node_a; node_b] 3
           (Vptr 7) 1 3).
  - vm_compute. repeat (split || eexists).
  - simpl. lia.
  - discriminate.
  - right. simpl. lia.
Defined.

(** C3. When the first node whose stored bytes compare equal to the
    supplied buffer is at position [i], [list_del] returns normally; the
    memory then holds the well-formed list of the remaining nodes, in their
    order and with their payloads; the returned root is the old root unless
    the first node was deleted, in which case it is the former second node
    (absent if there was none); the three blocks of the deleted node are
    released, and no block outside the list is changed. *)
Theorem list_del_removes_first_match m root es pb buf size fuel i e :
  is_list (heap m) root es ->
  heap m !! pb = Some (OBytes buf) ->
  es !! i = Some e ->
  Forall (differs size buf) (take i es) ->
  matches size buf e ->
  (i < fuel)%nat ->
  exists root' m',
    list_del fuel root (Vptr pb) size m = Ret root' m' /\
    is_list (heap m') root' (delete i es) /\
    (i <> O -> root' = root) /\
    (i = O -> root' = node_at es 1) /\
    (forall l, l ∈ entry_locs e -> heap m' !! l = None) /\
    (forall l, l ∉ es ≫= entry_locs -> heap m' !! l = heap m !! l) /\
    allocs m' = allocs m.
Proof.
  intros Hlist Hbuf Hi Hd Hm Hf.
  rewrite (list_del_found _ _ _ _ _ _ _ _ _ Hlist Hbuf Hi Hd Hm Hf).
  destruct Hlist as (-> & Hl & Hs).
  eexists _, _. split; [reflexivity|]. cbn [heap allocs]. repeat split.
  - now apply unlinked_linked.
  - now apply separate_delete.
  - intros Hne. apply node_at_delete_lt. lia.
  - intros ->. now apply node_at_delete_ge.
  - intros l Hl'. now apply release_own.
  - intros l Hout. unfold unlinked.
    assert (Hnot : forall j e', es !! j = Some e' -> l ∉ entry_locs e').
    { intros j e' Hj Hin. apply Hout, list_elem_of_bind. exists e'.
      split; [exact Hin|]. eapply list_elem_of_lookup_2, Hj. }
    rewrite release_other by eauto. apply relinked_other.
    + intros e1 H1 E. apply (Hnot _ _ H1). rewrite <- E. apply in_locs_node.
    + intros k e0 _ H0 E. apply (Hnot _ _ H0). rewrite <- E. apply in_locs_node.
Qed.

Lemma list_del_removes_first_match_witness :
  exists root' m',
    list_del 3 (Vptr 1) (Vptr 8) 1 two_nodes = Ret root' m' /\
    is_list (heap m') root' (delete 1%nat [node_a; node_b]) /\
    (1%nat <> O -> root' = Vptr 1) /\
    (1%nat = O -> root' = node_at [node_a; node_b] 1) /\
    (forall l, l ∈ entry_locs node_b -> heap m' !! l = None) /\
    (forall l, l ∉ [node_a; node_b] ≫= entry_locs ->
               heap m' !! l = heap two_nodes !! l) /\
    allocs m' = allocs two_nodes.
Proof.
  apply (list_del_removes_first_match two_nodes (Vptr 1) [node_a; node_b]
           8%positive [Some x14; Some x00] 1 3 1 node_b).
  - split; [reflexivity|]. split; [vm_compute; repeat split|].
    apply (bool_decide_unpack _). vm_compute. exact I.
  - reflexivity.
  - reflexivity.
  - repeat constructor. exists (-1)%Z. split; [reflexivity|discriminate].
  - reflexivity.
  - lia.
Defined.

(** C4. On a list whose payloads can all be compared with the supplied
    buffer, [list_del] fails its final assertion, after the whole list has
    been scanned, if and only if no node matches the buffer. *)
Theorem list_del_aborts_iff_no_match m root es pb buf size fuel :
  is_list (heap m) root es ->
  heap m !! pb = Some (OBytes buf) ->
  readable (N.to_nat size) buf ->
  Forall (fun e => readable (N.to_nat size) (e_bytes e)) es ->
  (length es < fuel)%nat ->
  list_del fuel root (Vptr pb) size m = Abort <->
  (forall e, e ∈ es -> ~ matches size buf e).
Proof.
  intros Hlist Hbuf Hrb Hre Hf.
  assert (Hcmp : Forall (fun e => matches size buf e \/ differs size buf e) es).
  { eapply list.Forall_impl; [exact Hre|]. intros e He. now apply readable_compare. }
  split.
  - intros Habort e He Hm.
    destruct (first_match _ _ _ Hcmp) as [Hall|(i & e' & Hi & Hpre & Hm')].
    + eapply matches_not_differs; [exact Hm|].
      exact (proj1 (list.Forall_forall _ _) Hall e He).
    + assert (Hlt : (i < fuel)%nat) by (apply lookup_lt_Some in Hi; lia).
      rewrite (list_del_found _ _ _ _ _ _ _ _ _ Hlist Hbuf Hi Hpre Hm' Hlt)
        in Habort.
      discriminate.
  - intros Hno. destruct Hlist as (-> & Hl & _). unfold list_del.
    eapply list_del_miss; eauto.
    apply list.Forall_forall. intros e He.
    destruct (proj1 (list.Forall_forall _ _) Hcmp e He) as [Hm|Hd]; [|exact Hd].
    now destruct (Hno e He).
Qed.

Lemma list_del_aborts_iff_no_match_witness :
  list_del 3 (Vptr 1) (Vptr 7) 1 two_nodes = Abort <->
  (forall e, e ∈ [node_a; node_b] -> ~ matches 1 [Some x05] e).
Proof.
  apply (list_del_aborts_iff_no_match two_nodes (Vptr 1) [node_a; node_b]
           7%positive [Some x05] 1 3).
  - split; [reflexivity|]. split; [vm_compute; repeat split|].
    apply (bool_decide_unpack _). vm_compute. exact I.
  - reflexivity.
  - exists [x05]. split; reflexivity.
  - repeat constructor; [exists [x0a] | exists [x14]]; split; reflexivity.
  - simpl. lia.
Defined.

(** C10. In [list_search] and [list_del] a node matches as soon as the first
    [size] bytes of its payload equal the first [size] bytes of the supplied
    buffer: neither the size recorded in the payload holder nor the bytes
    stored after the first [size] ones play a part.  The first such node is
    the one found, respectively deleted; with [size = 0] it is the first
    node of the list. *)
Theorem match_ignores_stored_size m root es pb buf size fuel i e (cs : list byte) :
  is_list (heap m) root es ->
  heap m !! pb = Some (OBytes buf) ->
  es !! i = Some e ->
  Forall (differs size buf) (take i es) ->
  length cs = N.to_nat size ->
  take (N.to_nat size) (e_bytes e) = Some <$> cs ->
  take (N.to_nat size) buf = Some <$> cs ->
  (i < fuel)%nat ->
  list_search fuel root (Vptr pb) size m = Ret (Vptr (e_node e)) m /\
  (exists r m', list_del fuel root (Vptr pb) size m = Ret r m' /\
                is_list (heap m') r (delete i es)) /\
  list_search fuel root (Vptr pb) 0 m = Ret root m /\
  (exists r m', list_del fuel root (Vptr pb) 0 m = Ret r m' /\
                is_list (heap m') r (delete 0%nat es)).
Proof.
  intros Hlist Hbuf Hi Hd Hlen He Hb Hf.
  assert (Hm : matches size buf e) by (apply bytes_cmp_zero; eauto).
  destruct es as [|e0 es'] eqn:Ees; [discriminate|]. rewrite <- Ees in *.
  assert (H0 : es !! 0%nat = Some e0) by now subst.
  assert (Hz : matches 0 buf e0) by reflexivity.
  assert (Hf0 : (0 < fuel)%nat) by lia.
  pose proof Hlist as (Hroot & Hl & Hs).
  assert (Hwf : forall k, is_list (unlinked es k
                 (default e0 (es !! k)) (heap m)) (node_at (delete k es) 0)
                 (delete k es) \/ es !! k = None).
  { intros k. destruct (es !! k) as [ek|] eqn:Ek; [left|now right].
    repeat split; [now apply unlinked_linked | now apply separate_delete]. }
  repeat split.
  - rewrite Hroot. eapply list_search_found; eauto.
  - rewrite (list_del_found _ _ _ _ _ _ _ _ _ Hlist Hbuf Hi Hd Hm Hf).
    eexists _, _. split; [reflexivity|]. cbn [heap].
    destruct (Hwf i) as [H|H]; [|congruence]. now rewrite Hi in H.
  - rewrite Hroot at 1.
    rewrite (list_search_found m Vnull es pb buf 0 Hl Hbuf 0 e0 fuel H0
               (Forall_nil _) Hz Hf0).
    now rewrite Hroot, (node_at_Some _ _ _ H0).
  - rewrite (list_del_found _ _ _ _ _ _ _ _ _ Hlist Hbuf H0 (Forall_nil _) Hz Hf0).
    eexists _, _. split; [reflexivity|]. cbn [heap].
    destruct (Hwf 0%nat) as [H|H]; [|congruence]. now rewrite H0 in H.
Qed.

Lemma match_ignores_stored_size_witness :
  list_search 3 (Vptr 1) (Vptr 8) 1 wide_nodes = Ret (Vptr (e_node wide_b)) wide_nodes /\
  (exists r m', list_del 3 (Vptr 1) (Vptr 8) 1 wide_nodes = Ret r m' /\
                is_list (heap m') r (delete 1%nat [wide_a; wide_b])) /\
  list_search 3 (Vptr 1) (Vptr 8) 0 wide_nodes = Ret (Vptr 1) wide_nodes /\
  (exists r m', list_del 3 (Vptr 1) (Vptr 8) 0 wide_nodes = Ret r m' /\
                is_list (heap m') r (delete 0%nat [wide_a; wide_b])).
Proof.
  apply (match_ignores_stored_size wide_nodes (Vptr 1) [wide_a; wide_b]
           8%positive [Some x14; Some x00] 1 3 1 wide_b [x14]).
  - split; [reflexivity|]. split; [vm_compute; repeat split|].
    apply (bool_decide_unpack _). vm_compute. exact I.
  - reflexivity.
  - reflexivity.
  - repeat constructor. exists (-1)%Z. split; [reflexivity|discriminate].
  - reflexivity.
  - reflexivity.
  - reflexivity.
  - lia.
Defined.

(** C7. Given a caller buffer whose first [size > 0] bytes are initialised,
    and as long as its three allocation requests succeed, [list_init]
    returns a well-formed list of one node (no predecessor, no successor)
    whose payload holder records [size] and owns a block, different from
    the caller's, that holds a copy of those bytes; overwriting the
    caller's buffer afterwards leaves that list as it is. *)
Theorem list_init_single_node m p bs (cs : list byte) size :
  heap m !! p = Some (OBytes bs) ->
  0 < size ->
  length cs = N.to_nat size ->
  take (N.to_nat size) bs = Some <$> cs ->
  allocs_succeed 3 (allocs m) ->
  exists n d b m',
    list_init (Vptr p) size m = Ret (Vptr n) m' /\
    is_list (heap m') (Vptr n) [mk_entry n d b (Some <$> cs) (Some size)] /\
    heap m' !! n = Some (ONode (mk_node (Vptr d) Vnull Vnull)) /\
    b <> p /\
    (forall bs', exists m'',
        store (Vptr p) (OBytes bs') m' = Ret tt m'' /\
        heap m'' !! b = Some (OBytes (Some <$> cs)) /\
        is_list (heap m'') (Vptr n) [mk_entry n d b (Some <$> cs) (Some size)]).
Proof.
  intros Hp Hsize Hlen Hcs Hal.
  destruct (list_init_ok m p bs cs size Hp Hsize Hlen Hcs Hal)
    as (n & d & b & m' & Hrun & Hn & Hd & Hb & (Fn & Fd & Fb) & (Nnd & Nnb & Ndb)
        & Hframe & _).
  assert (Hsep : separate [mk_entry n d b (Some <$> cs) (Some size)]).
  { unfold separate. change (NoDup [n; d; b]).
    rewrite !list.NoDup_cons, !not_elem_of_cons.
    repeat split; try congruence; try apply not_elem_of_nil. apply NoDup_nil_2. }
  assert (Hpn : p <> n) by congruence.
  assert (Hpd : p <> d) by congruence.
  assert (Hpb : p <> b) by congruence.
  exists n, d, b, m'. repeat split; trivial; try congruence.
  intros bs'. eexists. split.
  - eapply store_ok. rewrite Hframe by trivial. exact Hp.
  - cbn [heap]. rewrite !lookup_insert_ne by trivial.
    repeat split; cbn; rewrite ?lookup_insert_ne by trivial; trivial.
Qed.

Lemma list_init_single_node_witness :
  exists n d b m',
    list_init (Vptr 7) 2 caller_only = Ret (Vptr n) m' /\
    is_list (heap m') (Vptr n) [mk_entry n d b (Some <$> [x05; x06]) (Some 2)] /\
    heap m' !! n = Some (ONode (mk_node (Vptr d) Vnull Vnull)) /\
    b <> 7%positive /\
    (forall bs', exists m'',
        store (Vptr 7) (OBytes bs') m' = Ret tt m'' /\
        heap m'' !! b = Some (OBytes (Some <$> [x05; x06])) /\
        is_list (heap m'') (Vptr n) [mk_entry n d b (Some <$> [x05; x06]) (Some 2)]).
Proof.
  apply (list_init_single_node caller_only 7%positive [Some x05; Some x06]
           [x05; x06] 2).
  - reflexivity.
  - reflexivity.
  - reflexivity.
  - reflexivity.
  - exact I.
Defined.

(** [list_init] turns down an absent payload and a zero size before it
    allocates anything. *)
Lemma list_init_rejects m payload size :
  payload = Vnull \/ (payload <> Vundef /\ size = 0) ->
  list_init payload size m = Ret Vnull m.
Proof.
  intros [->|[Hp ->]]; [reflexivity|].
  destruct payload; [congruence|reflexivity|reflexivity].
Qed.

(** [list_insert] turns down an absent payload before it allocates
    anything. *)
Lemma list_insert_rejects_null_payload m fuel root size pos :
  root <> Vundef ->
  list_insert fuel root Vnull size pos m = Ret Vnull m.
Proof. intros Hr. destruct root; [congruence|reflexivity|reflexivity]. Qed.

(** C1. Inserting the payload [5] at position 1 of the two-node list
    [10; 20] takes the middle branch of [list_insert]. The call returns the
    old root, but the forward chain from the root is what it was: the list
    still has length 2 and position 1 still holds [20]. The new node (block
    10) is its own successor, and the root still points to the old second
    node. *)
Theorem list_insert_middle_not_linked :
  is_list (heap two_nodes) (Vptr 1) [node_a; node_b] /\
  exists m',
    list_insert 3 (Vptr 1) (Vptr 7) 1 1 two_nodes = Ret (Vptr 1) m' /\
    list_len 3 (Vptr 1) m' = Ret 2 m' /\
    list_get 3 (Vptr 1) 1 m' = Ret (Vptr 6) m' /\
    load_bytes (Vptr 6) m' = Ret [Some x14] m' /\
    get_next (Vptr 1) m' = Ret (Vptr 4) m' /\
    get_next (Vptr 10) m' = Ret (Vptr 10) m' /\
    get_prev (Vptr 4) m' = Ret (Vptr 10) m'.
Proof.
  split.
  - split; [reflexivity|]. split; [vm_compute; repeat split|].
    apply (bool_decide_unpack _). vm_compute. exact I.
  - eexists. split; [vm_compute; reflexivity|]. vm_compute. repeat split.
Qed.

(** C2. After the same insertion in the middle of the well-formed list
    [10; 20], the root's forward relation leads to the old second node
    while that node's back-relation leads to the new node: from the
    returned root, the memory holds no well-formed doubly-linked list. *)
Theorem list_insert_middle_breaks_invariant :
  is_list (heap two_nodes) (Vptr 1) [node_a; node_b] /\
  exists m',
    list_insert 3 (Vptr 1) (Vptr 7) 1 1 two_nodes = Ret (Vptr 1) m' /\
    get_next (Vptr 1) m' = Ret (Vptr 4) m' /\
    get_prev (Vptr 4) m' = Ret (Vptr 10) m' /\
    forall es, ~ is_list (heap m') (Vptr 1) es.
Proof.
  split.
  - split; [reflexivity|]. split; [vm_compute; repeat split|].
    apply (bool_decide_unpack _). vm_compute. exact I.
  - eexists. split; [vm_compute; reflexivity|].
    split; [vm_compute; reflexivity|]. split; [vm_compute; reflexivity|].
    intros es (Hroot & Hl & _).
    destruct es as [|e1 [|e2 es]]; [discriminate| |].
    + injection Hroot as Hroot. destruct Hl as (Hn & _). rewrite <- Hroot in Hn.
      compute_lhs Hn. discriminate.
    + injection Hroot as Hroot. destruct Hl as (Hn & _ & _ & Hn2 & _).
      cbn [node_at lookup list_lookup] in Hn. rewrite <- Hroot in Hn, Hn2.
      compute_lhs Hn. injection Hn as _ Hn. rewrite <- Hn in Hn2.
      compute_lhs Hn2. discriminate.
Qed.

(** C5. [list_insert] does not turn a zero size down: on the one-node list
    [10], a call with size 0 and position 1 allocates three blocks,
    appends a node with an empty payload and returns the root, so that the
    list has two nodes afterwards. Where the environment answers the
    zero-byte request with a null pointer, the call runs into its cleanup
    label, which reads the [data] field of the node before it was ever
    written. *)
Theorem list_insert_accepts_zero_size :
  is_list (heap one_node) (Vptr 1) [node_c] /\
  list_len 3 (Vptr 1) one_node = Ret 1 one_node /\
  (exists m',
     list_insert 3 (Vptr 1) (Vptr 7) 0 1 one_node = Ret (Vptr 1) m' /\
     list_len 3 (Vptr 1) m' = Ret 2 m' /\
     size (heap m') = (size (heap one_node) + 3)%nat) /\
  list_insert 3 (Vptr 1) (Vptr 7) 0 1
    (mk_mem (heap one_node) [true; true; false]) = Fault.
Proof.
  split; [|split; [|split]].
  - split; [reflexivity|]. split; [vm_compute; repeat split|].
    apply (bool_decide_unpack _). vm_compute. exact I.
  - vm_compute. reflexivity.
  - eexists. split; [vm_compute; reflexivity|]. vm_compute. repeat split.
  - vm_compute. reflexivity.
Qed.

(** C8. Printing the one-node list with a callback that writes nine bytes
    makes [list_print] double its 16-byte buffer once: the cursor ends at
    9 and the capacity at 32, the bytes 9 to 24 are zero, and the bytes 25
    to 31, which lie beyond the cursor, were never written: they are
    indeterminate. *)
Theorem list_print_leaves_indeterminate_bytes :
  exists buff m' bs,
    list_print_state 3 (Vptr 1) (Some print_nine) one_node
    = Ret (Vptr buff, 9, 32) m' /\
    list_print 3 (Vptr 1) (Some print_nine) one_node = Ret (Vptr buff) m' /\
    heap m' !! buff = Some (OBytes bs) /\
    length bs = 32%nat /\
    take 16 (drop 9 bs) = replicate 16 (Some x00) /\
    drop 25 bs = replicate 7 None.
Proof.
  eexists _, _, _. split; [vm_compute; reflexivity|].
  split; [vm_compute; reflexivity|]. split; [vm_compute; reflexivity|].
  vm_compute. repeat split.
Qed.

(** * Further properties of the operations *)

(** ** Destruction *)

Lemma release_None e (h : gmap loc obj) l : h !! l = None -> release e h !! l = None.
Proof.
  intros H. unfold release.
  rewrite !lookup_delete. repeat case_decide; trivial.
Qed.

Lemma release_all_None es : forall (h : gmap loc obj) l,
  h !! l = None -> release_all es h !! l = None.
Proof. induction es as [|e es IH]; intros h l H; simpl; auto using release_None. Qed.

Lemma release_all_other es : forall (h : gmap loc obj) l,
  l ∉ es ≫= entry_locs -> release_all es h !! l = h !! l.
Proof.
  induction es as [|e es IH]; intros h l H; [reflexivity|].
  change (l ∉ entry_locs e ++ (es ≫= entry_locs)) in H.
  rewrite not_elem_of_app in H. destruct H as [H1 H2]. simpl.
  rewrite IH by exact H2. now apply release_other.
Qed.

Lemma release_all_own es : forall (h : gmap loc obj) l,
  l ∈ es ≫= entry_locs -> release_all es h !! l = None.
Proof.
  induction es as [|e es IH]; intros h l H; [now apply elem_of_nil in H|].
  change (l ∈ entry_locs e ++ (es ≫= entry_locs)) in H.
  apply elem_of_app in H as [H|H]; simpl.
  - apply release_all_None. now apply release_own.
  - now apply IH.
Qed.

(** The rest of a chain survives the release of its first node. *)
Lemma chain_release h e es :
  chain h (e :: es) -> separate (e :: es) -> chain (release e h) es.
Proof.
  intros (_ & _ & _ & Hc) Hs. apply separate_cons in Hs as (_ & Hd & _).
  apply chain_intro. intros i e' Hi.
  destruct (chain_lookup _ _ _ _ Hc Hi) as ((pv & Hn) & Hdt & Hb).
  assert (Hout : forall x, x ∈ entry_locs e' -> x ∉ entry_locs e).
  { intros x Hx Hx'. apply (Hd x Hx' e'); [|exact Hx].
    eapply list_elem_of_lookup_2, Hi. }
  repeat split.
  - exists pv. rewrite release_other by auto with locs. exact Hn.
  - rewrite release_other by auto with locs. exact Hdt.
  - rewrite release_other by auto with locs. exact Hb.
Qed.

Lemma separate_tail e es : separate (e :: es) -> separate es.
Proof. intros H. now apply separate_cons in H. Qed.

(** The loop of [list_destroy] releases every node of the chain. *)
Lemma list_destroy_loop_ok es :
  forall m fuel,
    chain (heap m) es -> separate es -> (length es < fuel)%nat ->
    list_destroy_loop fuel (node_at es 0) m
    = Ret tt (mk_mem (release_all es (heap m)) (allocs m)).
Proof.
  induction es as [|e es IH]; intros m fuel Hc Hs Hf;
    (destruct fuel as [|fuel]; [simpl in Hf; lia|]).
  - destruct m. reflexivity.
  - pose proof Hc as ((pv & Hn) & Hd & Hb & _).
    destruct (separate_own (e :: es) 0 e Hs eq_refl) as (Hnd & Hnb & Hdb).
    cbn [list_destroy_loop node_at lookup list_lookup].
    unfold bind at 1. cbn [is_null ret].
    exec (get_next_ok _ _ _ Hn). exec (get_data_ok _ _ _ Hn).
    exec (get_payload_ok _ _ _ Hd). exec (free_ok _ _ _ Hb).
    assert (Hn' : heap (mk_mem (delete (e_buf e) (heap m)) (allocs m)) !! e_node e
                  = Some (ONode (mk_node (Vptr (e_data e)) pv (node_at es 0))))
      by (cbn [heap]; now rewrite lookup_delete_ne).
    assert (Hd' : heap (mk_mem (delete (e_buf e) (heap m)) (allocs m)) !! e_data e
                  = Some (OData (mk_data (Vptr (e_buf e)) (e_size e))))
      by (cbn [heap]; now rewrite lookup_delete_ne).
    exec (get_data_ok _ _ _ Hn'). exec (free_ok _ _ _ Hd').
    cbn [heap allocs].
    assert (Hn'' : heap (mk_mem (delete (e_data e) (delete (e_buf e) (heap m)))
                           (allocs m)) !! e_node e
                   = Some (ONode (mk_node (Vptr (e_data e)) pv (node_at es 0))))
      by (cbn [heap]; now rewrite !lookup_delete_ne by congruence).
    exec (free_ok _ _ _ Hn''). cbn [heap allocs].
    change (delete (e_node e) (delete (e_data e) (delete (e_buf e) (heap m))))
      with (release e (heap m)).
    simpl in Hf. rewrite IH; cbn [heap allocs]; trivial.
    + now apply chain_release.
    + now apply separate_tail in Hs.
    + lia.
Qed.

Lemma chain_drop h es k : chain h es -> chain h (drop k es).
Proof.
  revert k. induction es as [|e es IH]; intros [|k] Hc; trivial.
  destruct Hc as (_ & _ & _ & Hc). now apply IH.
Qed.

Lemma separate_sublist es es' : es' `sublist_of` es -> separate es -> separate es'.
Proof.
  unfold separate. intros Hsub H. eapply sublist_NoDup; [exact H|].
  now apply bind_sublist.
Qed.

Lemma node_at_take_lt es k i : (i < k)%nat -> node_at (take k es) i = node_at es i.
Proof. intros H. unfold node_at. now rewrite lookup_take_lt. Qed.

Lemma node_at_take_ge es k i : (k <= i)%nat -> node_at (take k es) i = Vnull.
Proof. intros H. unfold node_at. now rewrite lookup_take_ge. Qed.

Lemma node_at_drop es k i : node_at (drop k es) i = node_at es (k + i).
Proof. unfold node_at. now rewrite lookup_drop. Qed.

(** The blocks of the entries before position [k] are not among those of
    the entries from position [k] on. *)
Lemma separate_take_drop es k i e x :
  separate es -> es !! i = Some e -> (i < k)%nat -> x ∈ entry_locs e ->
  x ∉ drop k es ≫= entry_locs.
Proof.
  intros Hs Hi Hlt Hx Hin. apply list_elem_of_bind in Hin as (e' & Hx' & He').
  apply list_elem_of_lookup in He' as (t & Ht). rewrite lookup_drop in Ht.
  apply (separate_ne es i (k + t) e e' x x Hs Hi Ht); trivial. lia.
Qed.

Lemma not_in_locs_drop es k l :
  l ∉ es ≫= entry_locs -> l ∉ drop k es ≫= entry_locs.
Proof.
  intros H Hin. apply H. apply list_elem_of_bind in Hin as (e' & Hx' & He').
  apply list_elem_of_bind. exists e'. split; trivial.
  eapply elem_of_sublist; [exact He'|]. apply sublist_drop.
Qed.

(** Releasing the nodes from position [k] on keeps the list of the nodes
    before it. *)
Lemma destroy_rest m es k fuel :
  chain (heap m) (drop k es) -> separate es ->
  linked (heap m) Vnull (take k es) ->
  (length es < fuel)%nat ->
  let m' := mk_mem (release_all (drop k es) (heap m)) (allocs m) in
  list_destroy_loop fuel (node_at es k) m = Ret tt m' /\
  linked (heap m') Vnull (take k es) /\
  (forall l, l ∈ drop k es ≫= entry_locs -> heap m' !! l = None) /\
  (forall l, l ∉ es ≫= entry_locs -> heap m' !! l = heap m !! l).
Proof.
  intros Hc Hs Hl Hf m'. repeat split.
  - replace (node_at es k) with (node_at (drop k es) 0)
      by (rewrite node_at_drop; f_equal; lia).
    apply list_destroy_loop_ok; trivial.
    + eapply separate_sublist; [apply sublist_drop|exact Hs].
    + rewrite length_drop. lia.
  - apply linked_intro. intros i e Hi.
    destruct (linked_lookup _ _ _ _ _ Hl Hi) as (Hn & Hd & Hb).
    apply lookup_take_Some in Hi as [Hi Hlt]. unfold m'. cbn [heap].
    rewrite !release_all_other
      by (eapply separate_take_drop; eauto with locs). auto.
  - intros l Hin. now apply release_all_own.
  - intros l Hout. apply release_all_other. now apply not_in_locs_drop.
Qed.

(** What [list_destroy] does when it is given the node at position [k] of
    a well-formed list. *)
Lemma list_destroy_at m es k e fuel :
  linked (heap m) Vnull es -> separate es ->
  es !! k = Some e ->
  (length es < fuel)%nat ->
  exists m',
    list_destroy fuel (Vptr (e_node e)) m = Ret tt m' /\
    linked (heap m') Vnull (take k es) /\
    (forall l, l ∈ drop k es ≫= entry_locs -> heap m' !! l = None) /\
    (forall l, l ∉ es ≫= entry_locs -> heap m' !! l = heap m !! l) /\
    allocs m' = allocs m.
Proof.
  intros Hl Hs Hk Hf.
  destruct (linked_lookup _ _ _ _ _ Hl Hk) as (Hn & _).
  pose proof (linked_chain _ _ _ Hl) as Hc.
  unfold list_destroy. exec (get_prev_ok _ _ _ Hn).
  rewrite <- (node_at_Some _ _ _ Hk).
  destruct k as [|j]; cbn [prev_at].
  - unfold bind at 1. cbn [is_null ret negb]. unfold bind at 1. cbn [ret].
    destruct (destroy_rest m es 0 fuel) as (Hrun & Hl' & Hfree & Hframe);
      [exact Hc | exact Hs | exact I | exact Hf |].
    eexists. split; [exact Hrun|]. auto.
  - destruct (lookup_lt_is_Some_2 es j) as [e0 H0];
      [apply lookup_lt_Some in Hk; lia|].
    destruct (linked_lookup _ _ _ _ _ Hl H0) as (Hn0 & _).
    rewrite (node_at_Some _ _ _ H0).
    unfold bind at 1. cbn [is_null ret negb]. unfold bind at 1.
    rewrite (node_at_Some _ _ _ Hk). exec (get_prev_ok _ _ _ Hn).
    cbn [prev_at]. rewrite (node_at_Some _ _ _ H0).
    rewrite (set_next_ok _ _ Vnull _ Hn0). cbn [node_data node_prev].
    rewrite <- (node_at_Some _ _ _ Hk).
    set (m1 := mk_mem _ (allocs m)).
    assert (Hother : forall i e', es !! i = Some e' -> i <> j ->
              forall x, x ∈ entry_locs e' -> heap m1 !! x = heap m !! x).
    { intros i e' Hi Hne x Hx. unfold m1. cbn [heap]. apply lookup_insert_ne.
      apply (separate_ne es j i e0 e'); auto with locs. }
    destruct (separate_own _ _ _ Hs H0) as (Hnd0 & Hnb0 & _).
    destruct (destroy_rest m1 es (S j) fuel) as (Hrun & Hl' & Hfree & Hframe);
      [| exact Hs | | exact Hf |].
    + apply chain_intro. intros i e' Hi.
      destruct (chain_lookup _ _ _ _ (chain_drop _ _ (S j) Hc) Hi)
        as ((pv & Hn') & Hd' & Hb').
      rewrite lookup_drop in Hi.
      rewrite !(Hother _ _ Hi) by (lia || auto with locs). eauto.
    + apply linked_intro. intros i e' Hi.
      apply lookup_take_Some in Hi as [Hi Hlt].
      destruct (linked_lookup _ _ _ _ _ Hl Hi) as (Hn' & Hd' & Hb').
      assert (Hprev : prev_at Vnull (take (S j) es) i = prev_at Vnull es i)
        by (destruct i; simpl; [|rewrite node_at_take_lt by lia]; reflexivity).
      rewrite Hprev. destruct (decide (i = j)) as [->|Hne].
      * rewrite H0 in Hi. injection Hi as <-. unfold m1. cbn [heap].
        rewrite lookup_insert_eq, !lookup_insert_ne by congruence.
        now rewrite node_at_take_ge by lia.
      * rewrite !(Hother _ _ Hi) by auto with locs.
        now rewrite node_at_take_lt by lia.
    + eexists. split; [exact Hrun|]. repeat split; auto.
      intros l Hout. rewrite Hframe by trivial. unfold m1. cbn [heap].
      apply lookup_insert_ne. intros <-. apply Hout, list_elem_of_bind.
      exists e0. split; [apply in_locs_node|]. eapply list_elem_of_lookup_2, H0.
Qed.

(** ** Insertion at the ends *)

(** The three allocations at the start of [list_insert]. *)
Lemma insert_allocs m size :
  allocs_succeed 3 (allocs m) ->
  exists n d b m4,
    (forall K : val -> val -> M val,
       (do ptr_node <- malloc undef_node ;
        do ptr_data <- malloc undef_data ;
        do buf <- malloc (undef_bytes size) ;
        run set_payload ptr_data buf ;
        K ptr_node ptr_data) m = K (Vptr n) (Vptr d) m4) /\
    (heap m !! n = None /\ heap m !! d = None /\ heap m !! b = None) /\
    (n <> d /\ n <> b /\ d <> b) /\
    heap m4 !! n = Some undef_node /\
    heap m4 !! d = Some (OData (mk_data (Vptr b) None)) /\
    heap m4 !! b = Some (undef_bytes size) /\
    (forall l, l <> n -> l <> d -> l <> b -> heap m4 !! l = heap m !! l) /\
    allocs m4 = drop 3 (allocs m).
Proof.
  intros Hal.
  destruct (malloc_ok undef_node m (allocs_succeed_one _ _ Hal)) as [Fn En].
  set (n := fresh (dom (heap m))) in *.
  set (m1 := mk_mem (<[n := undef_node]> (heap m)) (tail (allocs m))) in *.
  assert (Hal1 : allocs_succeed 2 (allocs m1))
    by (apply allocs_succeed_tail in Hal; exact Hal).
  destruct (malloc_ok undef_data m1 (allocs_succeed_one _ _ Hal1)) as [Fd Ed].
  set (d := fresh (dom (heap m1))) in *.
  set (m2 := mk_mem (<[d := undef_data]> (heap m1)) (tail (allocs m1))) in *.
  assert (Hal2 : allocs_succeed 1 (allocs m2))
    by (apply allocs_succeed_tail in Hal1; exact Hal1).
  destruct (malloc_ok (undef_bytes size) m2 Hal2) as [Fb Eb].
  set (b := fresh (dom (heap m2))) in *.
  set (m3 := mk_mem (<[b := undef_bytes size]> (heap m2)) (tail (allocs m2))) in *.
  assert (Hdn : d <> n).
  { intros E. rewrite E in Fd. unfold m1 in Fd. cbn [heap] in Fd.
    rewrite lookup_insert_eq in Fd. discriminate. }
  assert (Hbd : b <> d).
  { intros E. rewrite E in Fb. unfold m2 in Fb. cbn [heap] in Fb.
    rewrite lookup_insert_eq in Fb. discriminate. }
  assert (Hbn : b <> n).
  { intros E. rewrite E in Fb. unfold m2, m1 in Fb. cbn [heap] in Fb.
    rewrite lookup_insert_ne, lookup_insert_eq in Fb by congruence. discriminate. }
  assert (Fd' : heap m !! d = None).
  { unfold m1 in Fd. cbn [heap] in Fd. now rewrite lookup_insert_ne in Fd by congruence. }
  assert (Fb' : heap m !! b = None).
  { unfold m2, m1 in Fb. cbn [heap] in Fb.
    now rewrite !lookup_insert_ne in Fb by congruence. }
  assert (H3d : heap m3 !! d = Some undef_data) by (unfold m3, m2; lk).
  pose proof (set_payload_ok _ _ (Vptr b) _ H3d) as Eset.
  set (m4 := mk_mem (<[d := OData (mk_data (Vptr b) None)]> (heap m3)) (allocs m3)).
  exists n, d, b, m4. repeat split; trivial; try congruence.
  - intros K. exec En. exec Ed. exec Eb. exec Eset. reflexivity.
  - unfold m4, m3, m2, m1. lk.
  - unfold m4; lk.
  - unfold m4, m3; lk.
  - intros l Hln Hld Hlb. unfold m4, m3, m2, m1. lk.
  - unfold m4, m3, m2, m1. cbn [allocs].
    now destruct (allocs m) as [|? [|? [|? ?]]].
Qed.

(** The end of [list_insert]: the payload is copied, the holder and the
    node are completed and the copy is checked. *)
Lemma insert_finish m n d b p bs (cs : list byte) size pv nx (root : val) :
  heap m !! n = Some (ONode (mk_node Vundef pv nx)) ->
  heap m !! d = Some (OData (mk_data (Vptr b) None)) ->
  heap m !! b = Some (undef_bytes size) ->
  heap m !! p = Some (OBytes bs) ->
  n <> d -> n <> b -> d <> b -> p <> b ->
  length cs = N.to_nat size ->
  take (N.to_nat size) bs = Some <$> cs ->
  (do pl <- get_payload (Vptr d) ;
   run memcpy pl (Vptr p) size ;
   run set_size (Vptr d) size ;
   run set_data (Vptr n) (Vptr d) ;
   do d1 <- get_data (Vptr n) ;
   do pl' <- get_payload d1 ;
   do r <- memcmp (Vptr p) pl' size ;
   run assert (r =? 0)%Z ;
   ret root) m
  = Ret root
      (mk_mem (<[n := ONode (mk_node (Vptr d) pv nx)]>
                 (<[d := OData (mk_data (Vptr b) (Some size))]>
                    (<[b := OBytes (Some <$> cs)]> (heap m))))
         (allocs m)).
Proof.
  intros Hn Hd Hb Hp Hnd Hnb Hdb Hpb Hlen Hcs.
  assert (Hpn : p <> n) by (intros E; rewrite E in Hp; congruence).
  assert (Hpd : p <> d) by (intros E; rewrite E in Hp; congruence).
  assert (Hlenbs : (N.to_nat size <= length bs)%nat).
  { apply (f_equal length) in Hcs. rewrite length_take, length_fmap in Hcs. lia. }
  assert (Ecpy : memcpy (Vptr b) (Vptr p) size m
                 = Ret tt (mk_mem (<[b := OBytes (Some <$> cs)]> (heap m))
                             (allocs m))).
  { unfold memcpy. exec (load_bytes_ok _ _ _ Hp). exec (load_bytes_ok _ _ _ Hb).
    rewrite bool_decide_false by (intros E; injection E as E; congruence).
    rewrite length_replicate.
    replace (N.of_nat (length bs) <? size) with false by (symmetry; apply N.ltb_ge; lia).
    replace (N.of_nat (N.to_nat size) <? size) with false
      by (symmetry; apply N.ltb_ge; lia).
    cbn [orb]. rewrite Hcs, drop_replicate, Nat.sub_diag, app_nil_r.
    eapply store_ok. exact Hb. }
  exec (get_payload_ok _ _ _ Hd). exec Ecpy. name_mem m9.
  assert (H9d : heap m9 !! d = Some (OData (mk_data (Vptr b) None)))
    by (unfold m9; lk).
  exec (set_size_ok _ _ size _ H9d). name_mem m10.
  assert (H10n : heap m10 !! n = Some (ONode (mk_node Vundef pv nx)))
    by (unfold m10, m9; lk).
  exec (set_data_ok _ _ (Vptr d) _ H10n). name_mem m11.
  assert (H11n : heap m11 !! n = Some (ONode (mk_node (Vptr d) pv nx)))
    by (unfold m11; lk).
  assert (H11d : heap m11 !! d = Some (OData (mk_data (Vptr b) (Some size))))
    by (unfold m11, m10; lk).
  assert (H11b : heap m11 !! b = Some (OBytes (Some <$> cs)))
    by (unfold m11, m10, m9; lk).
  assert (H11p : heap m11 !! p = Some (OBytes bs))
    by (unfold m11, m10, m9; lk).
  exec (get_data_ok _ _ _ H11n). exec (get_payload_ok _ _ _ H11d).
  assert (Hcmp : bytes_cmp (N.to_nat size) bs (Some <$> cs) = Some 0%Z).
  { rewrite <- Hcs. eapply bytes_cmp_take; eauto. }
  exec (memcmp_ok _ _ _ _ _ _ _ H11p H11b Hcmp).
  unfold bind at 1. cbn [assert Z.eqb ret]. reflexivity.
Qed.

(** Every block of a well-formed list is live. *)
Lemma linked_live h prv es x :
  linked h prv es -> x ∈ es ≫= entry_locs -> is_Some (h !! x).
Proof.
  intros Hl Hx. apply list_elem_of_bind in Hx as (e & Hx & He).
  apply list_elem_of_lookup in He as (i & Hi).
  destruct (linked_lookup _ _ _ _ _ Hl Hi) as (Hn & Hd & Hb).
  unfold entry_locs in Hx. rewrite !elem_of_cons in Hx.
  destruct Hx as [->|[->|[->|Hx]]]; eauto. now apply elem_of_nil in Hx.
Qed.

Lemma separate_snoc es e :
  separate es -> NoDup (entry_locs e) ->
  (forall x, x ∈ entry_locs e -> x ∉ es ≫= entry_locs) ->
  separate (es ++ [e]).
Proof.
  unfold separate. intros Hs He Hout. rewrite bind_app.
  assert (E : [e] ≫= entry_locs = entry_locs e) by apply app_nil_r.
  rewrite E. apply list.NoDup_app. repeat split; trivial.
  intros x Hx Hx'. exact (Hout x Hx' Hx).
Qed.

Lemma NoDup_three (n d b : loc) : n <> d -> n <> b -> d <> b -> NoDup [n; d; b].
Proof.
  intros. rewrite !list.NoDup_cons, !not_elem_of_cons.
  repeat split; try congruence; try apply not_elem_of_nil. apply NoDup_nil_2.
Qed.

(** Appending: with the position equal to the length, [list_insert] links a
    new last node after the old one. *)
Lemma list_insert_append m root es p bs (cs : list byte) size fuel :
  is_list (heap m) root es ->
  es <> [] ->
  heap m !! p = Some (OBytes bs) ->
  length cs = N.to_nat size ->
  take (N.to_nat size) bs = Some <$> cs ->
  N.of_nat (length es) < SIZE_MOD ->
  (length es < fuel)%nat ->
  allocs_succeed 3 (allocs m) ->
  exists n d b m',
    list_insert fuel root (Vptr p) size (N.of_nat (length es)) m = Ret root m' /\
    is_list (heap m') root (es ++ [mk_entry n d b (Some <$> cs) (Some size)]) /\
    (heap m !! n = None /\ heap m !! d = None /\ heap m !! b = None) /\
    (forall l, l ∉ es ≫= entry_locs -> l <> n -> l <> d -> l <> b ->
               heap m' !! l = heap m !! l) /\
    allocs m' = drop 3 (allocs m).
Proof.
  intros (-> & Hl & Hs) Hne Hp Hlen Hcs Hmax Hf Hal.
  pose proof (linked_chain _ _ _ Hl) as Hc.
  destruct (length es) as [|k] eqn:Elength; [now destruct es|].
  destruct (lookup_lt_is_Some_2 es k) as [el Hk]; [lia|].
  destruct (lookup_lt_is_Some_2 es 0) as [er Hr]; [lia|].
  destruct (linked_lookup _ _ _ _ _ Hl Hk) as (Hnk & Hdk & Hbk).
  assert (Hend : node_at es (S k) = Vnull) by (apply node_at_None; lia).
  pose proof (list_len_ok m es fuel Hc ltac:(lia)) as Elen.
  pose proof (insert_walk_ok m es Hc (S k) 0%nat Vnull ltac:(lia)) as Ewalk.
  cbn [Nat.add] in Ewalk. rewrite Hend in *. rewrite Elength in Elen.
  destruct (insert_allocs m size Hal)
    as (n & d & b & m4 & Erun & (Fn & Fd & Fb) & (Hnd & Hnb & Hdb)
        & H4n & H4d & H4b & Hframe & Hallocs).
  assert (Hold : forall l o, heap m !! l = Some o -> l <> n /\ l <> d /\ l <> b).
  { intros l o Hlo. repeat split; intros E; rewrite E in Hlo; congruence. }
  destruct (Hold _ _ Hp) as (Hpn & Hpd & Hpb).
  destruct (Hold _ _ Hnk) as (Hkn & Hkd & Hkb).
  exists n, d, b.
  rewrite (node_at_Some _ _ _ Hk), ?(node_at_Some _ _ _ Hr) in *.
  unfold list_insert.
  unfold bind at 1. cbn [is_null ret]. unfold bind at 1. cbn [is_null ret].
  exec Elen. rewrite wrap_small by exact Hmax.
  rewrite N.ltb_irrefl, Nat2N.id. exec Ewalk. rewrite Erun.
  unfold bind at 1. cbn [is_null ret]. unfold bind at 1. cbn [is_null ret].
  unfold bind at 1. exec (get_payload_ok _ _ _ H4d). cbn [is_null ret].
  unfold bind at 1. cbn [is_null ret].
  (* appending at the end *)
  unfold bind at 1. unfold bind at 1. cbn [is_null ret].
  unfold bind at 1. cbn [assert negb andb].
  exec (set_next_ok _ _ Vnull _ H4n). name_mem m5.
  assert (H5n : heap m5 !! n = Some (ONode (mk_node Vundef Vundef Vnull)))
    by (unfold m5; lk).
  exec (set_prev_ok _ _ (Vptr (e_node el)) _ H5n). name_mem m6.
  assert (H6k : heap m6 !! e_node el = Some (ONode
            (mk_node (Vptr (e_data el)) (prev_at Vnull es k) Vnull))).
  { unfold m6, m5. cbn [heap]. rewrite !lookup_insert_ne by congruence.
    rewrite Hframe by trivial. exact Hnk. }
  exec (set_next_ok _ _ (Vptr n) _ H6k). cbn [ret]. name_mem m7.
  assert (H7n : heap m7 !! n = Some (ONode (mk_node Vundef (Vptr (e_node el)) Vnull)))
    by (unfold m7, m6; lk).
  assert (H7d : heap m7 !! d = Some (OData (mk_data (Vptr b) None)))
    by (unfold m7, m6, m5; lk).
  assert (H7b : heap m7 !! b = Some (undef_bytes size))
    by (unfold m7, m6, m5; lk).
  assert (H7p : heap m7 !! p = Some (OBytes bs)).
  { unfold m7, m6, m5. cbn [heap]. rewrite !lookup_insert_ne by congruence.
    rewrite Hframe by trivial. exact Hp. }
  rewrite (insert_finish m7 n d b p bs cs size _ _ _ H7n H7d H7b H7p
             Hnd Hnb Hdb Hpb Hlen Hcs).
  set (h' := <[n := _]> _).
  assert (Hout : forall l, l <> n -> l <> d -> l <> b -> l <> e_node el ->
                   h' !! l = heap m !! l).
  { intros l ? ? ? ?. unfold h', m7, m6, m5. cbn [heap].
    rewrite !lookup_insert_ne by congruence. now apply Hframe. }
  eexists. split; [reflexivity|]. cbn [heap allocs].
  assert (Hfresh : forall x, x ∈ [n; d; b] -> x ∉ es ≫= entry_locs).
  { intros x Hx Hin. destruct (linked_live _ _ _ _ Hl Hin) as [o Ho].
    rewrite !elem_of_cons in Hx.
    destruct Hx as [->|[->|[->|Hx]]]; try congruence. now apply elem_of_nil in Hx. }
  repeat split; trivial.
  - (* the root *)
    unfold node_at. rewrite lookup_app_l by lia. now rewrite Hr.
  - (* the links *)
    apply linked_intro. intros i e Hi.
    destruct (decide (i < S k)%nat) as [Hlt|Hge].
    + rewrite lookup_app_l in Hi by lia.
      destruct (linked_lookup _ _ _ _ _ Hl Hi) as (Hn & Hd & Hb).
      destruct (Hold _ _ Hn) as (? & ? & ?). destruct (Hold _ _ Hd) as (? & ? & ?).
      destruct (Hold _ _ Hb) as (? & ? & ?).
      assert (Hprev : prev_at Vnull (es ++ [mk_entry n d b (Some <$> cs) (Some size)]) i
                      = prev_at Vnull es i).
      { destruct i; trivial. simpl. unfold node_at. now rewrite lookup_app_l by lia. }
      rewrite Hprev. destruct (decide (i = k)) as [->|Hik].
      * rewrite Hk in Hi. injection Hi as Hi. subst e.
        destruct (separate_own _ _ _ Hs Hk) as (? & ? & ?).
        rewrite (Hout (e_data el)), (Hout (e_buf el)) by congruence.
        repeat split; trivial.
        unfold h', m7. cbn [heap]. rewrite !lookup_insert_ne by congruence.
        rewrite lookup_insert_eq. unfold node_at.
        rewrite lookup_app_r by lia. now rewrite Elength, Nat.sub_diag.
      * assert (Hsep : forall x, x ∈ entry_locs e -> x <> e_node el).
        { intros x Hx. apply (separate_ne es i k e el); auto with locs. }
        rewrite !Hout by auto with locs. repeat split; trivial.
        rewrite Hn. do 3 f_equal. unfold node_at.
        assert (Hx : (S i < length es)%nat) by (clear - Hlt Hik Elength; lia).
        rewrite lookup_app_l by exact Hx. reflexivity.
    + rewrite lookup_app_r in Hi by lia. rewrite Elength in Hi.
      destruct (i - S k)%nat as [|?] eqn:Ei; [|discriminate].
      injection Hi as <-. assert (i = S k) as -> by lia. cbn [e_node e_data e_buf
        e_bytes e_size prev_at]. repeat split.
      * unfold h'. rewrite lookup_insert_eq. unfold node_at.
        rewrite lookup_app_l, Hk by lia.
        now rewrite lookup_ge_None_2 by (rewrite length_app; simpl; lia).
      * unfold h'. now rewrite lookup_insert_ne, lookup_insert_eq by congruence.
      * unfold h'. now rewrite !lookup_insert_ne, lookup_insert_eq by congruence.
  - (* no block is owned twice *)
    apply separate_snoc; [exact Hs | now apply NoDup_three | exact Hfresh].
  - (* the frame *)
    intros l Hl' ? ? ?. apply Hout; trivial. intros ->. apply Hl'.
    apply list_elem_of_bind. exists el. split; [apply in_locs_node|].
    eapply list_elem_of_lookup_2, Hk.
Qed.

Lemma separate_cons_intro e es :
  separate es -> NoDup (entry_locs e) ->
  (forall x, x ∈ entry_locs e -> x ∉ es ≫= entry_locs) ->
  separate (e :: es).
Proof.
  unfold separate. intros Hs He Hout.
  change (NoDup (entry_locs e ++ (es ≫= entry_locs))).
  apply list.NoDup_app. repeat split; trivial.
Qed.

(** Prepending: with position 0, [list_insert] links a new first node
    before the old root and returns it. *)
Lemma list_insert_prepend m root es p bs (cs : list byte) size fuel :
  is_list (heap m) root es ->
  es <> [] ->
  heap m !! p = Some (OBytes bs) ->
  length cs = N.to_nat size ->
  take (N.to_nat size) bs = Some <$> cs ->
  (length es < fuel)%nat ->
  allocs_succeed 3 (allocs m) ->
  exists n d b m',
    list_insert fuel root (Vptr p) size 0 m = Ret (Vptr n) m' /\
    is_list (heap m') (Vptr n) (mk_entry n d b (Some <$> cs) (Some size) :: es) /\
    (heap m !! n = None /\ heap m !! d = None /\ heap m !! b = None) /\
    (forall l, l ∉ es ≫= entry_locs -> l <> n -> l <> d -> l <> b ->
               heap m' !! l = heap m !! l) /\
    allocs m' = drop 3 (allocs m).
Proof.
  intros (-> & Hl & Hs) Hne Hp Hlen Hcs Hf Hal.
  pose proof (linked_chain _ _ _ Hl) as Hc.
  destruct (lookup_lt_is_Some_2 es 0) as [er Hr];
    [destruct es; [congruence|simpl; lia]|].
  destruct (linked_lookup _ _ _ _ _ Hl Hr) as (Hnr & Hdr & Hbr).
  cbn [prev_at] in Hnr.
  pose proof (list_len_ok m es fuel Hc Hf) as Elen.
  destruct (insert_allocs m size Hal)
    as (n & d & b & m4 & Erun & (Fn & Fd & Fb) & (Hnd & Hnb & Hdb)
        & H4n & H4d & H4b & Hframe & Hallocs).
  assert (Hold : forall l o, heap m !! l = Some o -> l <> n /\ l <> d /\ l <> b).
  { intros l o Hlo. repeat split; intros E; rewrite E in Hlo; congruence. }
  destruct (Hold _ _ Hp) as (Hpn & Hpd & Hpb).
  destruct (Hold _ _ Hnr) as (Hrn & Hrd & Hrb).
  exists n, d, b.
  rewrite (node_at_Some _ _ _ Hr) in *.
  unfold list_insert.
  unfold bind at 1. cbn [is_null ret]. unfold bind at 1. cbn [is_null ret].
  exec Elen.
  replace (wrap (N.of_nat (length es)) <? 0) with false
    by (symmetry; apply N.ltb_ge, N.le_0_l).
  change (N.to_nat 0) with O. cbn [insert_walk]. unfold bind at 1. cbn [ret].
  rewrite Erun.
  unfold bind at 1. cbn [is_null ret]. unfold bind at 1. cbn [is_null ret].
  unfold bind at 1. exec (get_payload_ok _ _ _ H4d). cbn [is_null ret].
  unfold bind at 1. cbn [is_null ret].
  (* beginning of the list *)
  assert (H4r : heap m4 !! e_node er = Some (ONode
            (mk_node (Vptr (e_data er)) Vnull (node_at es 1))))
    by (rewrite Hframe by trivial; exact Hnr).
  unfold bind at 1. exec (get_prev_ok _ _ _ H4r).
  unfold bind at 1. cbn [is_null ret].
  unfold bind at 1. cbn [assert negb andb].
  exec (set_next_ok _ _ (Vptr (e_node er)) _ H4n). name_mem m5.
  assert (H5n : heap m5 !! n = Some (ONode (mk_node Vundef Vundef (Vptr (e_node er)))))
    by (unfold m5; lk).
  exec (set_prev_ok _ _ Vnull _ H5n). name_mem m6.
  assert (H6r : heap m6 !! e_node er = Some (ONode
            (mk_node (Vptr (e_data er)) Vnull (node_at es 1))))
    by (unfold m6, m5; lk).
  exec (set_prev_ok _ _ (Vptr n) _ H6r). cbn [ret]. name_mem m7.
  assert (H7n : heap m7 !! n = Some (ONode (mk_node Vundef Vnull (Vptr (e_node er)))))
    by (unfold m7, m6; lk).
  assert (H7d : heap m7 !! d = Some (OData (mk_data (Vptr b) None)))
    by (unfold m7, m6, m5; lk).
  assert (H7b : heap m7 !! b = Some (undef_bytes size))
    by (unfold m7, m6, m5; lk).
  assert (H7p : heap m7 !! p = Some (OBytes bs)).
  { unfold m7, m6, m5. cbn [heap]. rewrite !lookup_insert_ne by congruence.
    rewrite Hframe by trivial. exact Hp. }
  rewrite (insert_finish m7 n d b p bs cs size _ _ _ H7n H7d H7b H7p
             Hnd Hnb Hdb Hpb Hlen Hcs).
  set (h' := <[n := _]> _).
  assert (Hout : forall l, l <> n -> l <> d -> l <> b -> l <> e_node er ->
                   h' !! l = heap m !! l).
  { intros l ? ? ? ?. unfold h', m7, m6, m5. cbn [heap].
    rewrite !lookup_insert_ne by congruence. now apply Hframe. }
  eexists. split; [reflexivity|]. cbn [heap allocs].
  assert (Hfresh : forall x, x ∈ [n; d; b] -> x ∉ es ≫= entry_locs).
  { intros x Hx Hin. destruct (linked_live _ _ _ _ Hl Hin) as [o Ho].
    rewrite !elem_of_cons in Hx.
    destruct Hx as [->|[->|[->|Hx]]]; try congruence. now apply elem_of_nil in Hx. }
  split; [|split; [auto|split; [|unfold m7, m6, m5; exact Hallocs]]].
  - split; [reflexivity|]. split.
    + (* the links *)
      cbn [linked e_node e_data e_buf e_bytes e_size]. repeat split.
      * unfold h'. rewrite lookup_insert_eq. now rewrite (node_at_Some _ _ _ Hr).
      * unfold h'. now rewrite lookup_insert_ne, lookup_insert_eq by congruence.
      * unfold h'. now rewrite !lookup_insert_ne, lookup_insert_eq by congruence.
      * apply linked_intro. intros i e Hi.
        destruct (linked_lookup _ _ _ _ _ Hl Hi) as (Hn & Hd & Hb).
        destruct (Hold _ _ Hn) as (? & ? & ?). destruct (Hold _ _ Hd) as (? & ? & ?).
        destruct (Hold _ _ Hb) as (? & ? & ?).
        destruct i as [|i].
        -- rewrite Hr in Hi. injection Hi as Hi. subst e.
           destruct (separate_own _ _ _ Hs Hr) as (? & ? & ?).
           rewrite (Hout (e_data er)), (Hout (e_buf er)) by congruence.
           repeat split; trivial.
           unfold h', m7. cbn [heap]. rewrite !lookup_insert_ne by congruence.
           now rewrite lookup_insert_eq.
        -- assert (Hsep : forall x, x ∈ entry_locs e -> x <> e_node er).
           { intros x Hx. apply (separate_ne es (S i) 0 e er); auto with locs. }
           rewrite !Hout by auto with locs. auto.
    + (* no block is owned twice *)
      apply separate_cons_intro; [exact Hs | now apply NoDup_three | exact Hfresh].
  - (* the frame *)
    intros l Hl' ? ? ?. apply Hout; trivial. intros ->. apply Hl'.
    apply list_elem_of_bind. exists er. split; [apply in_locs_node|].
    eapply list_elem_of_lookup_2, Hr.
Qed.

(** ** Allocation failures *)

(** Whether the next allocation request succeeds. *)
Lemma malloc_case o m :
  malloc o m
  = match allocs m with
    | false :: rest => Ret Vnull (mk_mem (heap m) rest)
    | _ => Ret (Vptr (fresh (dom (heap m))))
             (mk_mem (<[fresh (dom (heap m)) := o]> (heap m)) (tail (allocs m)))
    end.
Proof. unfold malloc. now destruct (allocs m) as [|[] rest]. Qed.

Lemma fresh_None (h : gmap loc obj) : h !! fresh (dom h) = None.
Proof. apply not_elem_of_dom, is_fresh. Qed.

(** Storing into the payload holder that was not allocated. *)
Lemma set_payload_null o (K : M val) m :
  (do buf <- malloc o ; run set_payload Vnull buf ; K) m = Fault.
Proof.
  unfold bind at 1. rewrite malloc_case.
  destruct (allocs m) as [|[] rest]; reflexivity.
Qed.

(** X11. [list_insert] does not survive a failed allocation: once its guard has
    accepted the call, a null result of any of its three [malloc] calls
    leads to an invalid access, either in the store to the payload holder
    or in [free_node] at the cleanup label. *)
Lemma list_insert_alloc_failure m root es p size k fuel :
  is_list (heap m) root es ->
  es <> [] ->
  (k <= length es)%nat ->
  N.of_nat (length es) < SIZE_MOD ->
  (length es < fuel)%nat ->
  ~ allocs_succeed 3 (allocs m) ->
  list_insert fuel root (Vptr p) size (N.of_nat k) m = Fault.
Proof.
  intros (-> & Hl & Hs) Hne Hk Hmax Hf Hal.
  pose proof (linked_chain _ _ _ Hl) as Hc.
  destruct (lookup_lt_is_Some_2 es 0) as [er Hr];
    [destruct es; [congruence|simpl; lia]|].
  pose proof (list_len_ok m es fuel Hc Hf) as Elen.
  pose proof (insert_walk_ok m es Hc k 0%nat Vnull ltac:(lia)) as Ewalk.
  cbn [Nat.add] in Ewalk.
  unfold list_insert. rewrite (node_at_Some _ _ _ Hr) at 1.
  unfold bind at 1. cbn [is_null ret]. unfold bind at 1. cbn [is_null ret].
  exec Elen. rewrite wrap_small by exact Hmax.
  replace (N.of_nat (length es) <? N.of_nat k) with false
    by (symmetry; apply N.ltb_ge; lia).
  rewrite Nat2N.id. exec Ewalk.
  unfold bind at 1. rewrite malloc_case.
  destruct (allocs m) as [|a1 al1] eqn:E1; [now destruct Hal|].
  destruct a1; cbn [tail].
  - (* the node is allocated *)
    unfold bind at 1. rewrite malloc_case. cbn [allocs heap].
    destruct al1 as [|a2 al2]; [destruct Hal; simpl; auto|].
    destruct a2; cbn [tail]; [|apply set_payload_null].
    (* the holder is allocated *)
    unfold bind at 1. rewrite malloc_case. cbn [allocs heap].
    destruct al2 as [|a3 al3]; [destruct Hal; simpl; auto|].
    destruct a3; [destruct Hal; simpl; auto|].
    (* the payload is not *)
    set (n := fresh (dom (heap m))).
    set (h1 := <[n := undef_node]> (heap m)).
    set (d := fresh (dom h1)).
    assert (Hdn : d <> n).
    { intros E. pose proof (fresh_None h1) as F. fold d in F. rewrite E in F.
      unfold h1 in F. rewrite lookup_insert_eq in F. discriminate. }
    set (m3 := mk_mem (<[d := undef_data]> h1) al3).
    assert (H3d : heap m3 !! d = Some undef_data) by (unfold m3; lk).
    exec (set_payload_ok _ _ Vnull _ H3d). name_mem m4.
    assert (H4d : heap m4 !! d = Some (OData (mk_data Vnull None)))
      by (unfold m4; lk).
    assert (H4n : heap m4 !! n = Some undef_node)
      by (unfold m4, m3, h1; lk).
    unfold bind at 1. cbn [is_null ret]. unfold bind at 1. cbn [is_null ret].
    unfold bind at 1. exec (get_payload_ok _ _ _ H4d). cbn [is_null ret].
    unfold free_node. unfold bind at 1. unfold bind at 1.
    rewrite (get_data_ok _ _ _ H4n). reflexivity.
  - (* the node is not allocated *)
    unfold bind at 1. rewrite malloc_case. cbn [allocs heap].
    destruct al1 as [|a2 al2]; cbn [tail].
    + unfold bind at 1. rewrite malloc_case. cbn [allocs heap tail].
      set (d := fresh (dom (heap m))).
      set (h1 := <[d := undef_data]> (heap m)).
      set (m3 := mk_mem (<[fresh (dom h1) := undef_bytes size]> h1) []).
      assert (H3d : heap m3 !! d = Some undef_data).
      { unfold m3. cbn [heap]. rewrite lookup_insert_ne.
        - unfold h1. apply lookup_insert_eq.
        - intros E. pose proof (fresh_None h1) as F. rewrite E in F.
          unfold h1 in F. rewrite lookup_insert_eq in F. discriminate. }
      exec (set_payload_ok _ _ (Vptr (fresh (dom h1))) _ H3d). reflexivity.
    + destruct a2; cbn [tail]; [|apply set_payload_null].
      unfold bind at 1. rewrite malloc_case. cbn [allocs heap].
      set (d := fresh (dom (heap m))).
      set (h1 := <[d := undef_data]> (heap m)).
      destruct al2 as [|[] al3]; cbn [tail].
      * set (m3 := mk_mem (<[fresh (dom h1) := undef_bytes size]> h1) []).
        assert (H3d : heap m3 !! d = Some undef_data).
        { unfold m3. cbn [heap]. rewrite lookup_insert_ne.
          - unfold h1. apply lookup_insert_eq.
          - intros E. pose proof (fresh_None h1) as F. rewrite E in F.
            unfold h1 in F. rewrite lookup_insert_eq in F. discriminate. }
        exec (set_payload_ok _ _ (Vptr (fresh (dom h1))) _ H3d). reflexivity.
      * set (m3 := mk_mem (<[fresh (dom h1) := undef_bytes size]> h1) al3).
        assert (H3d : heap m3 !! d = Some undef_data).
        { unfold m3. cbn [heap]. rewrite lookup_insert_ne.
          - unfold h1. apply lookup_insert_eq.
          - intros E. pose proof (fresh_None h1) as F. rewrite E in F.
            unfold h1 in F. rewrite lookup_insert_eq in F. discriminate. }
        exec (set_payload_ok _ _ (Vptr (fresh (dom h1))) _ H3d). reflexivity.
      * set (m3 := mk_mem h1 al3).
        assert (H3d : heap m3 !! d = Some undef_data)
          by (unfold m3, h1; lk).
        exec (set_payload_ok _ _ Vnull _ H3d). reflexivity.
Qed.

(** X12. [list_init] gives back what it allocated when a later allocation
    fails: the call returns the absent result and the memory holds the
    blocks it held before, with their contents. *)
Lemma list_init_alloc_failure m p bs (cs : list byte) size :
  heap m !! p = Some (OBytes bs) ->
  0 < size ->
  length cs = N.to_nat size ->
  take (N.to_nat size) bs = Some <$> cs ->
  ~ allocs_succeed 3 (allocs m) ->
  exists m', list_init (Vptr p) size m = Ret Vnull m' /\ heap m' = heap m.
Proof.
  intros Hp Hsize Hlen Hcs Hal. unfold list_init.
  unfold bind at 1. cbn [is_null ret orb].
  replace (size <=? 0) with false by (symmetry; apply N.leb_gt; exact Hsize).
  unfold bind at 1. rewrite malloc_case.
  destruct (allocs m) as [|a1 al1] eqn:E1; [now destruct Hal|].
  destruct a1; cbn [tail].
  2:{ (* the payload holder is not allocated *)
      eexists. split; [reflexivity|reflexivity]. }
  set (d := fresh (dom (heap m))).
  assert (Fd : heap m !! d = None) by apply fresh_None.
  assert (Hpd : p <> d) by congruence.
  name_mem m1. unfold bind at 1. cbn [is_null ret].
  assert (H1 : heap m1 !! d = Some undef_data) by (unfold m1; lk).
  exec (set_size_ok _ _ size _ H1). name_mem m2.
  assert (H2d : heap m2 !! d = Some (OData (mk_data Vundef (Some size))))
    by (unfold m2; lk).
  assert (Eal2 : allocs m2 = al1) by reflexivity.
  unfold bind at 1. rewrite malloc_case, Eal2.
  destruct al1 as [|a2 al2] eqn:E2.
  - destruct Hal. simpl. auto.
  - destruct a2; cbn [tail].
    + (* the payload is allocated, the node is not *)
      destruct al2 as [|a3 al3]; [destruct Hal; simpl; auto|].
      destruct a3; [destruct Hal; simpl; auto|].
      set (b := fresh (dom (heap m2))).
      assert (Fb : heap m2 !! b = None) by apply fresh_None.
      assert (Hbd : b <> d) by congruence.
      assert (Fb' : heap m !! b = None).
      { unfold m2, m1 in Fb. cbn [heap] in Fb.
        now rewrite !lookup_insert_ne in Fb by congruence. }
      assert (Hpb : p <> b) by congruence.
      name_mem m3.
      assert (H3d : heap m3 !! d = Some (OData (mk_data Vundef (Some size))))
        by (unfold m3; lk).
      exec (set_payload_ok _ _ (Vptr b) _ H3d). name_mem m4.
      assert (H4d : heap m4 !! d = Some (OData (mk_data (Vptr b) (Some size))))
        by (unfold m4; lk).
      exec (get_payload_ok _ _ _ H4d). unfold bind at 1. cbn [is_null ret].
      exec (get_payload_ok _ _ _ H4d).
      assert (H4b : heap m4 !! b = Some (undef_bytes size))
        by (unfold m4, m3; lk).
      assert (H4p : heap m4 !! p = Some (OBytes bs))
        by (unfold m4, m3, m2, m1; lk).
      assert (Hlenbs : (N.to_nat size <= length bs)%nat).
      { apply (f_equal length) in Hcs. rewrite length_take, length_fmap in Hcs. lia. }
      assert (Ecpy : memcpy (Vptr b) (Vptr p) size m4
                     = Ret tt (mk_mem (<[b := OBytes (Some <$> cs)]> (heap m4))
                                 (allocs m4))).
      { unfold memcpy. exec (load_bytes_ok _ _ _ H4p). exec (load_bytes_ok _ _ _ H4b).
        rewrite bool_decide_false by (intros E; injection E as E; congruence).
        rewrite length_replicate.
        replace (N.of_nat (length bs) <? size) with false
          by (symmetry; apply N.ltb_ge; lia).
        replace (N.of_nat (N.to_nat size) <? size) with false
          by (symmetry; apply N.ltb_ge; lia).
        cbn [orb]. rewrite Hcs, drop_replicate, Nat.sub_diag, app_nil_r.
        eapply store_ok. exact H4b. }
      exec Ecpy. name_mem m5.
      assert (Eal5 : allocs m5 = false :: al3) by reflexivity.
      unfold bind at 1. rewrite malloc_case, Eal5.
      unfold bind at 1. cbn [is_null ret].
      unfold init_err_node. unfold bind at 1. cbn [free].
      unfold init_err_payload.
      assert (H5d : heap (mk_mem (heap m5) al3) !! d
                    = Some (OData (mk_data (Vptr b) (Some size))))
        by (unfold m5; lk).
      exec (get_payload_ok _ _ _ H5d).
      assert (H5b : heap (mk_mem (heap m5) al3) !! b = Some (OBytes (Some <$> cs)))
        by (unfold m5; lk).
      exec (free_ok _ _ _ H5b). unfold init_err_data.
      assert (H6d : heap (mk_mem (delete b (heap m5)) al3) !! d
                    = Some (OData (mk_data (Vptr b) (Some size))))
        by (cbn [heap]; rewrite lookup_delete_ne by congruence; exact H5d).
      exec (free_ok _ _ _ H6d). cbn [heap allocs ret].
      eexists. split; [reflexivity|]. cbn [heap].
      apply map_eq. intros l. unfold m5, m4, m3, m2, m1. cbn [heap].
      destruct (decide (l = d)) as [->|Hld];
        [now rewrite lookup_delete_eq|rewrite lookup_delete_ne by congruence].
      destruct (decide (l = b)) as [->|Hlb];
        [now rewrite lookup_delete_eq|rewrite lookup_delete_ne by congruence].
      now rewrite !lookup_insert_ne by congruence.
    + (* the payload is not allocated *)
      name_mem m3.
      assert (H3d : heap m3 !! d = Some (OData (mk_data Vundef (Some size))))
        by (unfold m3; lk).
      exec (set_payload_ok _ _ Vnull _ H3d). name_mem m4.
      assert (H4d : heap m4 !! d = Some (OData (mk_data Vnull (Some size))))
        by (unfold m4; lk).
      exec (get_payload_ok _ _ _ H4d). unfold bind at 1. cbn [is_null ret].
      unfold init_err_payload. exec (get_payload_ok _ _ _ H4d).
      unfold bind at 1. cbn [free]. unfold init_err_data.
      exec (free_ok _ _ _ H4d). cbn [heap allocs ret].
      eexists. split; [reflexivity|]. cbn [heap].
      apply map_eq. intros l. unfold m4, m3, m2, m1. cbn [heap].
      destruct (decide (l = d)) as [->|Hld];
        [now rewrite lookup_delete_eq|rewrite lookup_delete_ne by congruence].
      now rewrite !lookup_insert_ne by congruence.
Qed.

(** ** Printing *)

Lemma write_at_ok b c off (w : list mbyte) m :
  heap m !! b = Some (OBytes c) ->
  off + N.of_nat (length w) <= N.of_nat (length c) ->
  write_at (Vptr b) off w m
  = Ret tt (mk_mem (<[b := OBytes (take (N.to_nat off) c ++ w
                                   ++ drop (N.to_nat off + length w) c)]> (heap m))
              (allocs m)).
Proof.
  intros Hb Hfit. unfold write_at. exec (load_bytes_ok _ _ _ Hb).
  replace (N.of_nat (length c) <? off + N.of_nat (length w)) with false
    by (symmetry; apply N.ltb_ge; exact Hfit).
  eapply store_ok, Hb.
Qed.

Lemma realloc_ok b c n m :
  heap m !! b = Some (OBytes c) ->
  (length c <= N.to_nat n)%nat ->
  allocs_succeed 1 (allocs m) ->
  let q := fresh (dom (heap m)) in
  heap m !! q = None /\
  realloc (Vptr b) n m
  = Ret (Vptr q)
      (mk_mem (delete b (<[q := OBytes (c ++ replicate (N.to_nat n - length c) None)]>
                           (heap m)))
         (tail (allocs m))).
Proof.
  intros Hb Hlen Hal q. destruct (malloc_ok (OBytes (c ++ replicate
    (N.to_nat n - length c) None)) m Hal) as [Fq Eq]. fold q in Fq, Eq.
  split; [exact Fq|]. unfold realloc. exec (load_bytes_ok _ _ _ Hb).
  rewrite take_ge by exact Hlen. exec Eq.
  unfold bind at 1. cbn [is_null ret].
  assert (Hb' : heap (mk_mem (<[q := OBytes (c ++ replicate (N.to_nat n - length c) None)]>
                                (heap m)) (tail (allocs m))) !! b = Some (OBytes c)).
  { cbn [heap]. rewrite lookup_insert_ne; [exact Hb|]. intros E. congruence. }
  exec (free_ok _ _ _ Hb'). reflexivity.
Qed.

Lemma size_add_int_small a n :
  a + N.of_nat n < SIZE_MOD -> size_add_int a (Z.of_nat n) = a + N.of_nat n.
Proof.
  intros H. unfold size_add_int. rewrite Z.mod_small by lia. lia.
Qed.

Lemma size_sub_small a b : b <= a -> a < SIZE_MOD -> size_sub a b = a - b.
Proof.
  intros Hb Ha. unfold size_sub. rewrite (N.mod_small b) by lia.
  replace (a + SIZE_MOD - b) with (a - b + 1 * SIZE_MOD) by lia.
  rewrite N.Div0.mod_add. apply N.mod_small. lia.
Qed.

(** A chain is kept by every change that leaves its blocks alone. *)
Lemma chain_frame h h' es :
  chain h es -> (forall x, x ∈ es ≫= entry_locs -> h' !! x = h !! x) -> chain h' es.
Proof.
  intros Hc Hsame. apply chain_intro. intros i e Hi.
  destruct (chain_lookup _ _ _ _ Hc Hi) as ((pv & Hn) & Hd & Hb).
  assert (Hin : forall x, x ∈ entry_locs e -> x ∈ es ≫= entry_locs).
  { intros x Hx. apply list_elem_of_bind. exists e. split; [exact Hx|].
    eapply list_elem_of_lookup_2, Hi. }
  rewrite !Hsame by auto with locs. eauto.
Qed.

Lemma chain_live h es x : chain h es -> x ∈ es ≫= entry_locs -> is_Some (h !! x).
Proof.
  intros Hc Hx. apply list_elem_of_bind in Hx as (e & Hx & He).
  apply list_elem_of_lookup in He as (i & Hi).
  destruct (chain_lookup _ _ _ _ Hc Hi) as ((pv & Hn) & Hd & Hb).
  unfold entry_locs in Hx. rewrite !elem_of_cons in Hx.
  destruct Hx as [->|[->|[->|Hx]]]; eauto. now apply elem_of_nil in Hx.
Qed.

Lemma allocs_succeed_S n al : allocs_succeed (S n) al -> allocs_succeed n al.
Proof.
  revert al. induction n as [|n IH]; intros al H; [exact I|].
  destruct al as [|a al]; [exact I|]. destruct H as [-> H]. split; auto.
Qed.

Lemma splice_length (c w : list mbyte) a n :
  length w = n -> (a + n <= length c)%nat ->
  length (take a c ++ w ++ drop (a + n) c) = length c.
Proof. intros <- H. rewrite !length_app, length_take, length_drop. lia. Qed.

Lemma splice_lookup_after (c w : list mbyte) a n j :
  length w = n -> (a + n <= length c)%nat -> (a + n <= j)%nat ->
  (take a c ++ w ++ drop (a + n) c) !! j = c !! j.
Proof.
  intros <- H Hj.
  rewrite lookup_app_r by (rewrite length_take; lia).
  rewrite lookup_app_r by (rewrite length_take; lia).
  rewrite lookup_drop, length_take. f_equal. lia.
Qed.

Lemma splice_lookup_mid (c w r : list mbyte) a j :
  (a <= length c)%nat -> (a <= j < a + length w)%nat ->
  (take a c ++ w ++ r) !! j = w !! (j - a)%nat.
Proof.
  intros H Hj.
  rewrite lookup_app_r by (rewrite length_take; lia).
  rewrite length_take, lookup_app_l by lia. f_equal. lia.
Qed.

Lemma splice_take (c w : list mbyte) a n :
  length w = n -> (a + n <= length c)%nat ->
  take (a + n) (take a c ++ w ++ drop (a + n) c) = take a c ++ w.
Proof.
  intros <- H. rewrite app_assoc. apply take_app_length'.
  rewrite length_app, length_take. lia.
Qed.

(** One iteration of [list_print] on a node whose callback is well
    behaved; the allocator is asked only when the buffer has to grow. *)
Lemma print_step f m es i e buff buff_ptr curr out fuel :
  chain (heap m) es ->
  es !! i = Some e ->
  (forall x, x ∈ es ≫= entry_locs -> x <> buff) ->
  well_behaved f e ->
  print_inv m buff buff_ptr curr out ->
  2 * (buff_ptr + 8) + 16 <= SIZE_MOD ->
  (curr - REALLOC_THRESHOLD < buff_ptr + N.of_nat (length (printed f e)) ->
   allocs_succeed 1 (allocs m)) ->
  exists buff' curr' m',
    list_print_loop (S fuel) f (node_at es i) (Vptr buff) buff_ptr curr m
    = list_print_loop fuel f (node_at es (S i)) (Vptr buff')
        (buff_ptr + N.of_nat (length (printed f e))) curr' m' /\
    print_inv m' buff' (buff_ptr + N.of_nat (length (printed f e))) curr'
      (out ++ printed f e) /\
    chain (heap m') es /\
    (forall x, x ∈ es ≫= entry_locs -> x <> buff') /\
    (forall l, l <> buff -> l <> buff' -> heap m' !! l = heap m !! l) /\
    (buff' = buff \/ heap m' !! buff = None) /\
    (buff' = buff \/ heap m !! buff' = None) /\
    (allocs m' = allocs m \/ allocs m' = tail (allocs m)).
Proof.
  intros Hc Hi Hbuff (Hret & Hsmall)
    (content & Hcont & Hclen & Htake & Hroom & Hcurr & Hzero) Hbound Hal.
  destruct (chain_lookup _ _ _ _ Hc Hi) as ((pv & Hn) & Hd & Hb).
  unfold REALLOC_THRESHOLD in *.
  rewrite (node_at_Some _ _ _ Hi). cbn [list_print_loop].
  unfold REALLOC_THRESHOLD.
  unfold bind at 1. cbn [is_null ret].
  exec (get_data_ok _ _ _ Hn). exec (get_payload_ok _ _ _ Hd).
  exec (load_bytes_ok _ _ _ Hb).
  unfold printed in *. destruct (f (e_bytes e)) as [w written] eqn:Ef.
  cbn [fst snd] in *. subst written.
  assert (Hlw : length (Some <$> w : list mbyte) = length w) by apply length_fmap.
  assert (Hfit : buff_ptr + N.of_nat (length (Some <$> w : list mbyte))
                 <= N.of_nat (length content)) by lia.
  exec (write_at_ok _ _ _ _ _ Hcont Hfit). rewrite Hlw.
  remember (length w) as lw eqn:Elw.
  remember (take (N.to_nat buff_ptr) content ++ (Some <$> w)
              ++ drop (N.to_nat buff_ptr + lw) content) as content1 eqn:Ec1.
  assert (Hlen1 : length content1 = length content).
  { rewrite Ec1. apply splice_length; lia. }
  assert (Htake1 : take (N.to_nat (buff_ptr + N.of_nat lw)) content1
                   = Some <$> (out ++ w)).
  { replace (N.to_nat (buff_ptr + N.of_nat lw)) with (N.to_nat buff_ptr + lw)%nat by lia.
    rewrite Ec1, splice_take by lia. now rewrite Htake, fmap_app. }
  assert (Hz1 : forall j, (N.to_nat buff_ptr + lw <= j)%nat ->
                          content1 !! j = content !! j).
  { intros j Hj. rewrite Ec1. apply splice_lookup_after; lia. }
  clear Ec1 Hfit.
  remember (mk_mem (<[buff := OBytes content1]> (heap m)) (allocs m)) as m1 eqn:Em1.
  assert (H1buff : heap m1 !! buff = Some (OBytes content1)) by (rewrite Em1; lk).
  assert (H1other : forall l, l <> buff -> heap m1 !! l = heap m !! l)
    by (intros l Hl; rewrite Em1; cbn [heap]; now rewrite lookup_insert_ne).
  assert (H1al : allocs m1 = allocs m) by now rewrite Em1.
  clear Em1.
  replace (Z.of_nat lw =? -1)%Z with false by (symmetry; apply Z.eqb_neq; lia).
  rewrite size_add_int_small by lia.
  rewrite size_sub_small by lia.
  assert (Hnode : e_node e <> buff).
  { apply Hbuff, list_elem_of_bind. exists e. split; [apply in_locs_node|].
    eapply list_elem_of_lookup_2, Hi. }
  destruct (curr - 8 <? buff_ptr + N.of_nat lw) eqn:Hgrow.
  - (* the buffer grows *)
    apply N.ltb_lt in Hgrow.
    rewrite wrap_small by lia.
    destruct (realloc_ok buff content1 (curr * 2) m1 H1buff ltac:(lia)
                ltac:(rewrite H1al; exact (Hal Hgrow))) as (Fq & Erealloc).
    remember (fresh (dom (heap m1))) as q eqn:Eq. clear Eq.
    assert (Hqb : q <> buff) by congruence.
    exec Erealloc. unfold bind at 1. cbn [is_null ret].
    remember (content1 ++ replicate (N.to_nat (curr * 2) - length content1) None)
      as content2 eqn:Ec2.
    assert (Hlen2 : length content2 = N.to_nat (curr * 2)).
    { rewrite Ec2, length_app, length_replicate. lia. }
    assert (Htake2 : take (N.to_nat (buff_ptr + N.of_nat lw)) content2
                     = Some <$> (out ++ w)).
    { rewrite Ec2, take_app_le by lia. exact Htake1. }
    clear Ec2.
    remember (mk_mem (delete buff (<[q := OBytes content2]> (heap m1)))
                (tail (allocs m1))) as m2 eqn:Em2.
    assert (H2q : heap m2 !! q = Some (OBytes content2)).
    { rewrite Em2. cbn [heap]. rewrite lookup_delete_ne by congruence.
      apply lookup_insert_eq. }
    assert (H2buff : heap m2 !! buff = None)
      by (rewrite Em2; cbn [heap]; apply lookup_delete_eq).
    assert (H2other : forall l, l <> buff -> l <> q -> heap m2 !! l = heap m !! l).
    { intros l Hl1 Hl2. rewrite Em2. cbn [heap].
      rewrite lookup_delete_ne, lookup_insert_ne by congruence. now apply H1other. }
    assert (H2al : allocs m2 = tail (allocs m)) by now rewrite Em2, H1al.
    clear Em2.
    assert (Hzeros : length (replicate (N.to_nat curr) (Some "000"%byte) : list mbyte)
                     = N.to_nat curr) by apply length_replicate.
    assert (Hfit2 : buff_ptr + N.of_nat lw
                    + N.of_nat (length (replicate (N.to_nat curr) (Some "000"%byte)
                                          : list mbyte))
                    <= N.of_nat (length content2)) by lia.
    unfold memset. exec (write_at_ok _ _ _ _ _ H2q Hfit2). rewrite Hzeros.
    match goal with
    | |- context [<[q := OBytes ?c]> (heap m2)] => remember c as content3 eqn:Ec3
    end.
    assert (Hlen3 : length content3 = N.to_nat (curr * 2)).
    { rewrite Ec3, splice_length; [exact Hlen2 | exact Hzeros | lia]. }
    assert (Htake3 : take (N.to_nat (buff_ptr + N.of_nat lw)) content3
                     = Some <$> (out ++ w)).
    { rewrite Ec3, take_app_le by (rewrite length_take; lia).
      rewrite take_take, Nat.min_id. exact Htake2. }
    assert (Hz3 : forall j, (N.to_nat (buff_ptr + N.of_nat lw) <= j)%nat ->
                            (j + 8 <= N.to_nat (curr * 2))%nat ->
                            content3 !! j = Some (Some "000"%byte)).
    { intros j Hj1 Hj2. rewrite Ec3, splice_lookup_mid by lia.
      apply lookup_replicate_2. lia. }
    clear Ec3 Hfit2.
    remember (mk_mem (<[q := OBytes content3]> (heap m2)) (allocs m2)) as m3 eqn:Em3.
    assert (H3q : heap m3 !! q = Some (OBytes content3)) by (rewrite Em3; lk).
    assert (H3buff : heap m3 !! buff = None).
    { rewrite Em3. cbn [heap]. rewrite lookup_insert_ne by congruence. exact H2buff. }
    assert (H3other : forall l, l <> buff -> l <> q -> heap m3 !! l = heap m !! l).
    { intros l Hl1 Hl2. rewrite Em3. cbn [heap].
      rewrite lookup_insert_ne by congruence. now apply H2other. }
    assert (H3al : allocs m3 = tail (allocs m)) by now rewrite Em3.
    clear Em3.
    assert (Hlive : forall x, x ∈ es ≫= entry_locs -> x <> q).
    { intros x Hx E. destruct (chain_live _ _ _ Hc Hx) as [o Ho].
      rewrite <- (H1other x (Hbuff x Hx)), E in Ho. congruence. }
    assert (H3n : heap m3 !! e_node e
                  = Some (ONode (mk_node (Vptr (e_data e)) pv (node_at es (S i))))).
    { rewrite H3other; trivial. apply Hlive, list_elem_of_bind.
      exists e. split; [apply in_locs_node|]. eapply list_elem_of_lookup_2, Hi. }
    exec (get_next_ok _ _ _ H3n).
    exists q, (curr * 2), m3. repeat split; auto.
    + exists content3. unfold REALLOC_THRESHOLD.
      split; [trivial|]. split; [trivial|]. split; [trivial|].
      split; [lia|]. split; [lia|exact Hz3].
    + eapply chain_frame; [exact Hc|]. intros x Hx. apply H3other; auto.
    + right. rewrite <- (H1other q Hqb). exact Fq.
  - (* the buffer is large enough *)
    apply N.ltb_ge in Hgrow.
    assert (H1n : heap m1 !! e_node e
                  = Some (ONode (mk_node (Vptr (e_data e)) pv (node_at es (S i)))))
      by (rewrite H1other; trivial).
    exec (get_next_ok _ _ _ H1n).
    exists buff, curr, m1. repeat split; auto.
    + exists content1. unfold REALLOC_THRESHOLD.
      split; [trivial|]. split; [congruence|]. split; [trivial|].
      split; [lia|]. split; [lia|].
      intros j Hj1 Hj2. rewrite Hz1 by lia. apply Hzero; lia.
    + eapply chain_frame; [exact Hc|]. intros x Hx. apply H1other; auto.
Qed.

(** The first [n] iterations of [list_print] from the node at position
    [i], on nodes whose callbacks are well behaved. *)
Lemma print_run f es :
  forall n i m buff buff_ptr curr out fuel,
    chain (heap m) es ->
    (forall x, x ∈ es ≫= entry_locs -> x <> buff) ->
    (forall j e, (i <= j < i + n)%nat -> es !! j = Some e -> well_behaved f e) ->
    (i + n <= length es)%nat ->
    print_inv m buff buff_ptr curr out ->
    2 * (buff_ptr + 8 * N.of_nat n) + 16 <= SIZE_MOD ->
    allocs_succeed n (allocs m) ->
    let outs := concat (printed f <$> take n (drop i es)) in
    exists buff' curr' m',
      list_print_loop (n + fuel) f (node_at es i) (Vptr buff) buff_ptr curr m
      = list_print_loop fuel f (node_at es (i + n)) (Vptr buff')
          (buff_ptr + N.of_nat (length outs)) curr' m' /\
      print_inv m' buff' (buff_ptr + N.of_nat (length outs)) curr' (out ++ outs) /\
      chain (heap m') es /\
      (forall x, x ∈ es ≫= entry_locs -> x <> buff') /\
      (forall l, l <> buff -> l <> buff' -> heap m' !! l = heap m !! l) /\
      (buff' = buff \/ heap m' !! buff = None) /\
      (buff' = buff \/ heap m !! buff' = None).
Proof.
  induction n as [|n IH]; intros i m buff buff_ptr curr out fuel
    Hc Hbuff Hwb Hlen Hinv Hbound Hal outs.
  - exists buff, curr, m. unfold outs. cbn [take fmap list_fmap concat length].
    rewrite Nat.add_0_r, N.add_0_r, app_nil_r. repeat split; auto.
  - destruct (lookup_lt_is_Some_2 es i) as [e Hi]; [lia|].
    assert (Hwe : well_behaved f e) by (apply (Hwb i); trivial; lia).
    pose proof Hwe as (_ & Hsmall). unfold REALLOC_THRESHOLD in Hsmall.
    destruct (print_step f m es i e buff buff_ptr curr out (n + fuel)
                Hc Hi Hbuff Hwe Hinv ltac:(lia) (fun _ => allocs_succeed_one _ _ Hal))
      as (b1 & c1 & m1 & Erun1 & Hinv1 & Hc1 & Hbuff1 & Hframe1 & Hold1 & Hnew1 & Hal1).
    assert (Hal1' : allocs_succeed n (allocs m1)).
    { destruct Hal1 as [-> | ->];
        [now apply allocs_succeed_S | now apply allocs_succeed_tail]. }
    destruct (IH (S i) m1 b1 (buff_ptr + N.of_nat (length (printed f e))) c1
                (out ++ printed f e) fuel Hc1 Hbuff1
                ltac:(intros j e' Hj He'; apply (Hwb j); trivial; lia)
                ltac:(lia) Hinv1 ltac:(lia) Hal1')
      as (b2 & c2 & m2 & Erun2 & Hinv2 & Hc2 & Hbuff2 & Hframe2 & Hold2 & Hnew2).
    assert (Eouts : outs = printed f e ++ concat (printed f <$> take n (drop (S i) es))).
    { unfold outs. rewrite (drop_S _ _ _ Hi). reflexivity. }
    exists b2, c2, m2. rewrite Eouts, length_app, Nat2N.inj_add, N.add_assoc.
    rewrite app_assoc. cbn [Nat.add]. rewrite Erun1, Erun2.
    replace (S i + n)%nat with (i + S n)%nat by lia.
    repeat split; trivial.
    + intros l Hl1 Hl2. destruct (decide (l = b1)) as [->|Hlb].
      * destruct Hnew1 as [|Hnew1]; [congruence|].
        destruct Hold2 as [|Hold2]; congruence.
      * rewrite Hframe2 by trivial. now apply Hframe1.
    + destruct Hold1 as [->|Hold1]; [exact Hold2|].
      destruct (decide (b2 = buff)) as [|Hne]; [now left|right].
      destruct (decide (buff = b1)) as [->|Hne1].
      * destruct Hold2; congruence.
      * now rewrite Hframe2 by congruence.
    + destruct Hnew2 as [->|Hnew2]; [exact Hnew1|].
      destruct (decide (b2 = buff)) as [|Hne]; [now left|right].
      destruct (decide (b2 = b1)) as [->|Hne1].
      * destruct Hnew1; congruence.
      * now rewrite <- Hframe1 by congruence.
Qed.

(** The start of [list_print]: a zeroed buffer of [LIST_PRINT_BUFF_SIZE]
    bytes in a block that was not live. *)
Lemma print_start m es (K : val -> M (val * N * N)) :
  chain (heap m) es ->
  allocs_succeed 1 (allocs m) ->
  exists b0 m1,
    (do buff <- malloc (undef_bytes LIST_PRINT_BUFF_SIZE) ;
     run memset buff 0 "000"%byte LIST_PRINT_BUFF_SIZE ;
     K buff) m = K (Vptr b0) m1 /\
    heap m !! b0 = None /\
    heap m1 = <[b0 := OBytes (replicate 16 (Some "000"%byte))]> (heap m) /\
    allocs m1 = tail (allocs m) /\
    print_inv m1 b0 0 LIST_PRINT_BUFF_SIZE [] /\
    chain (heap m1) es /\
    (forall x, x ∈ es ≫= entry_locs -> x <> b0).
Proof.
  intros Hc Hal.
  destruct (malloc_ok (undef_bytes LIST_PRINT_BUFF_SIZE) m Hal) as [F0 E0].
  remember (fresh (dom (heap m))) as b0 eqn:Eb0. clear Eb0.
  exists b0. eexists. split; [|split; [exact F0|]].
  - exec E0. unfold memset.
    erewrite bind_ret by (eapply write_at_ok; [cbn [heap]; apply lookup_insert_eq|];
                          vm_compute; discriminate).
    reflexivity.
  - cbn [heap allocs].
    assert (Hlive : forall x, x ∈ es ≫= entry_locs -> x <> b0).
    { intros x Hx E. destruct (chain_live _ _ _ Hc Hx) as [o Ho]. congruence. }
    split; [|split; [reflexivity|split; [|split; [|exact Hlive]]]].
    + rewrite insert_insert_eq. reflexivity.
    + eexists. split; [apply lookup_insert_eq|].
      split; [reflexivity|]. split; [reflexivity|].
      split; [vm_compute; congruence|]. split; [reflexivity|].
      intros j _ Hj.
      change ((replicate 16 (Some "000"%byte) : list mbyte) !! j
              = Some (Some "000"%byte)).
      apply lookup_replicate_2.
      change (N.to_nat LIST_PRINT_BUFF_SIZE) with 16%nat in Hj. lia.
    + eapply chain_frame; [exact Hc|]. intros x Hx.
      rewrite !lookup_insert_ne; trivial; intros E; apply (Hlive x Hx); congruence.
Qed.

Lemma realloc_fails b c n m rest :
  heap m !! b = Some (OBytes c) ->
  allocs m = false :: rest ->
  realloc (Vptr b) n m = Ret Vnull (mk_mem (heap m) rest).
Proof.
  intros Hb Hal. unfold realloc. exec (load_bytes_ok _ _ _ Hb).
  unfold bind at 1. rewrite malloc_case, Hal. reflexivity.
Qed.

(** An iteration of [list_print] in which the buffer has to grow and the
    allocator turns the request down: the old buffer is released and the
    traversal ends. *)
Lemma print_step_no_memory f m es i e buff buff_ptr curr out rest fuel :
  chain (heap m) es ->
  es !! i = Some e ->
  well_behaved f e ->
  print_inv m buff buff_ptr curr out ->
  2 * (buff_ptr + 8) + 16 <= SIZE_MOD ->
  curr - REALLOC_THRESHOLD < buff_ptr + N.of_nat (length (printed f e)) ->
  allocs m = false :: rest ->
  list_print_loop (S fuel) f (node_at es i) (Vptr buff) buff_ptr curr m
  = Ret (Vnull, buff_ptr + N.of_nat (length (printed f e)), curr)
        (mk_mem (delete buff (heap m)) rest).
Proof.
  intros Hc Hi (Hret & Hsmall) (content & Hcont & Hclen & _ & Hroom & Hcurr & _)
    Hbound Hgrow Hal.
  destruct (chain_lookup _ _ _ _ Hc Hi) as ((pv & Hn) & Hd & Hb).
  unfold REALLOC_THRESHOLD in *.
  rewrite (node_at_Some _ _ _ Hi). cbn [list_print_loop].
  unfold REALLOC_THRESHOLD.
  unfold bind at 1. cbn [is_null ret].
  exec (get_data_ok _ _ _ Hn). exec (get_payload_ok _ _ _ Hd).
  exec (load_bytes_ok _ _ _ Hb).
  unfold printed in *. destruct (f (e_bytes e)) as [w written] eqn:Ef.
  cbn [fst snd] in *. subst written.
  assert (Hlw : length (Some <$> w : list mbyte) = length w) by apply length_fmap.
  assert (Hfit : buff_ptr + N.of_nat (length (Some <$> w : list mbyte))
                 <= N.of_nat (length content)) by lia.
  exec (write_at_ok _ _ _ _ _ Hcont Hfit). rewrite Hlw.
  remember (length w) as lw eqn:Elw.
  remember (take (N.to_nat buff_ptr) content ++ (Some <$> w)
              ++ drop (N.to_nat buff_ptr + lw) content) as content1 eqn:Ec1.
  clear Ec1 Hfit.
  replace (Z.of_nat lw =? -1)%Z with false by (symmetry; apply Z.eqb_neq; lia).
  rewrite size_add_int_small by lia.
  rewrite size_sub_small by lia.
  replace (curr - 8 <? buff_ptr + N.of_nat lw) with true
    by (symmetry; apply N.ltb_lt; exact Hgrow).
  erewrite bind_ret
    by (eapply realloc_fails; [cbn [heap]; apply lookup_insert_eq | exact Hal]).
  unfold bind at 1. cbn [is_null ret].
  erewrite bind_ret by (eapply free_ok; cbn [heap]; apply lookup_insert_eq).
  cbn [heap allocs]. now rewrite delete_insert_eq.
Qed.

(** The rest of the traversal of [list_print], from the node at position
    [i] to the end of the chain, whatever the allocator answers: either the
    buffer comes back with everything printed, or the absent result comes
    back and the buffer is gone. *)
Lemma print_rest f es :
  forall n i m buff buff_ptr curr out fuel,
    chain (heap m) es ->
    (forall x, x ∈ es ≫= entry_locs -> x <> buff) ->
    (forall j e, (i <= j < i + n)%nat -> es !! j = Some e -> well_behaved f e) ->
    (i + n = length es)%nat ->
    print_inv m buff buff_ptr curr out ->
    2 * (buff_ptr + 8 * N.of_nat n) + 16 <= SIZE_MOD ->
    let outs := concat (printed f <$> drop i es) in
    (exists buff' curr' m',
       list_print_loop (n + S fuel) f (node_at es i) (Vptr buff) buff_ptr curr m
       = Ret (Vptr buff', buff_ptr + N.of_nat (length outs), curr') m' /\
       print_inv m' buff' (buff_ptr + N.of_nat (length outs)) curr' (out ++ outs) /\
       (forall l, l <> buff -> l <> buff' -> heap m' !! l = heap m !! l) /\
       (buff' = buff \/ heap m' !! buff = None) /\
       (buff' = buff \/ heap m !! buff' = None)) \/
    (exists r c m',
       list_print_loop (n + S fuel) f (node_at es i) (Vptr buff) buff_ptr curr m
       = Ret (Vnull, r, c) m' /\
       heap m' = delete buff (heap m)).
Proof.
  induction n as [|n IH]; intros i m buff buff_ptr curr out fuel
    Hc Hbuff Hwb Hlen Hinv Hbound outs.
  - left. exists buff, curr, m.
    assert (Eouts : outs = []) by (unfold outs; now rewrite drop_ge by lia).
    rewrite Eouts. cbn [length]. rewrite N.add_0_r, app_nil_r.
    rewrite node_at_None by lia. repeat split; auto.
  - destruct (lookup_lt_is_Some_2 es i) as [e Hi]; [lia|].
    assert (Hwe : well_behaved f e) by (apply (Hwb i); trivial; lia).
    pose proof Hwe as (_ & Hsmall). unfold REALLOC_THRESHOLD in Hsmall.
    assert (Eouts : outs = printed f e ++ concat (printed f <$> drop (S i) es)).
    { unfold outs. rewrite (drop_S _ _ _ Hi). reflexivity. }
    assert (Hcase : (curr - REALLOC_THRESHOLD
                     < buff_ptr + N.of_nat (length (printed f e))
                     /\ exists rest, allocs m = false :: rest) \/
                    (curr - REALLOC_THRESHOLD
                     < buff_ptr + N.of_nat (length (printed f e)) ->
                     allocs_succeed 1 (allocs m))).
    { destruct (allocs m) as [|[] rest] eqn:Eal;
        [right; intros _; exact I | right; intros _; simpl; auto |].
      destruct (decide (curr - REALLOC_THRESHOLD
                        < buff_ptr + N.of_nat (length (printed f e))))
        as [Hg|Hg]; [left; eauto | right; intros; contradiction]. }
    destruct Hcase as [(Hgrow & rest & Hal)|Hal].
    { right. exists (buff_ptr + N.of_nat (length (printed f e))), curr,
        (mk_mem (delete buff (heap m)) rest).
      split; [|reflexivity]. cbn [Nat.add].
      apply (print_step_no_memory f m es i e buff buff_ptr curr out rest);
        trivial. clear - Hbound. lia. }
    destruct (print_step f m es i e buff buff_ptr curr out (n + S fuel)
                Hc Hi Hbuff Hwe Hinv ltac:(clear - Hbound; lia) Hal)
      as (b1 & c1 & m1 & Erun1 & Hinv1 & Hc1 & Hbuff1 & Hframe1 & Hold1 & Hnew1 & _).
    cbn [Nat.add]. rewrite Erun1.
    destruct (IH (S i) m1 b1 (buff_ptr + N.of_nat (length (printed f e))) c1
                (out ++ printed f e) fuel Hc1 Hbuff1
                ltac:(intros j e' Hj He'; apply (Hwb j); trivial; lia)
                ltac:(lia) Hinv1 ltac:(clear - Hbound Hsmall; lia))
      as [(b2 & c2 & m2 & Erun2 & Hinv2 & Hframe2 & Hold2 & Hnew2)
         |(r & c & m2 & Erun2 & Eh2)].
    + left. exists b2, c2, m2.
      rewrite Eouts, length_app, Nat2N.inj_add, N.add_assoc, app_assoc.
      rewrite Erun2. repeat split; trivial.
      * intros l Hl1 Hl2. destruct (decide (l = b1)) as [->|Hlb].
        -- destruct Hnew1 as [|Hnew1]; [congruence|].
           destruct Hold2 as [|Hold2]; congruence.
        -- rewrite Hframe2 by trivial. now apply Hframe1.
      * destruct Hold1 as [->|Hold1]; [exact Hold2|].
        destruct (decide (b2 = buff)) as [|Hne]; [now left|right].
        destruct (decide (buff = b1)) as [->|Hne1].
        -- destruct Hold2; congruence.
        -- now rewrite Hframe2 by congruence.
      * destruct Hnew2 as [->|Hnew2]; [exact Hnew1|].
        destruct (decide (b2 = buff)) as [|Hne]; [now left|right].
        destruct (decide (b2 = b1)) as [->|Hne1].
        -- destruct Hnew1; congruence.
        -- now rewrite <- Hframe1 by congruence.
    + right. exists r, c, m2. split; [exact Erun2|]. rewrite Eh2.
      apply map_eq. intros l. destruct (decide (l = b1)) as [->|Hlb].
      * rewrite lookup_delete_eq. symmetry.
        destruct Hnew1 as [->|Hnew1]; [apply lookup_delete_eq|].
        destruct (decide (b1 = buff)) as [->|Hne]; [apply lookup_delete_eq|].
        now rewrite lookup_delete_ne by congruence.
      * rewrite lookup_delete_ne by congruence.
        destruct (decide (l = buff)) as [->|Hne].
        -- rewrite lookup_delete_eq. destruct Hold1 as [|Hold1]; congruence.
        -- rewrite lookup_delete_ne by congruence. now apply Hframe1.
Qed.

(** An iteration of [list_print] whose callback reports a failure: the
    buffer is released and the traversal ends. *)
Lemma print_fail_step f m es i e buff buff_ptr curr out fuel :
  chain (heap m) es ->
  es !! i = Some e ->
  snd (f (e_bytes e)) = (-1)%Z ->
  N.of_nat (length (printed f e)) <= REALLOC_THRESHOLD ->
  print_inv m buff buff_ptr curr out ->
  list_print_loop (S fuel) f (node_at es i) (Vptr buff) buff_ptr curr m
  = Ret (Vnull, buff_ptr, curr) (mk_mem (delete buff (heap m)) (allocs m)).
Proof.
  intros Hc Hi Hret Hsmall (content & Hcont & Hclen & _ & Hroom & _).
  destruct (chain_lookup _ _ _ _ Hc Hi) as ((pv & Hn) & Hd & Hb).
  unfold REALLOC_THRESHOLD in *.
  rewrite (node_at_Some _ _ _ Hi). cbn [list_print_loop].
  unfold bind at 1. cbn [is_null ret].
  exec (get_data_ok _ _ _ Hn). exec (get_payload_ok _ _ _ Hd).
  exec (load_bytes_ok _ _ _ Hb).
  unfold printed in *. destruct (f (e_bytes e)) as [w written] eqn:Ef.
  cbn [fst snd] in *. subst written.
  assert (Hfit : buff_ptr + N.of_nat (length (Some <$> w : list mbyte))
                 <= N.of_nat (length content)) by (rewrite length_fmap; lia).
  exec (write_at_ok _ _ _ _ _ Hcont Hfit). cbn [Z.eqb Pos.eqb].
  erewrite bind_ret by (eapply free_ok; cbn [heap]; apply lookup_insert_eq).
  cbn [heap allocs ret]. now rewrite delete_insert_eq.
Qed.

(** ** Observing a list *)

(** What [list_len] and [list_get] observe on a well-formed list. *)
Lemma is_list_observe m root es fuel :
  is_list (heap m) root es ->
  N.of_nat (length es) < SIZE_MOD ->
  (length es < fuel)%nat ->
  list_len fuel root m = Ret (N.of_nat (length es)) m /\
  (forall j e, es !! j = Some e ->
     list_get fuel root (N.of_nat j) m = Ret (Vptr (e_buf e)) m /\
     heap m !! e_buf e = Some (OBytes (e_bytes e))).
Proof.
  intros (-> & Hl & _) Hmax Hf. pose proof (linked_chain _ _ _ Hl) as Hc. split.
  - rewrite (list_len_ok m es fuel Hc Hf). now rewrite wrap_small.
  - intros j e Hj. split; [now apply list_get_chain|].
    now destruct (linked_lookup _ _ _ _ _ Hl Hj) as (_ & _ & Hb).
Qed.

(** The caller's buffer survives the removal of a node it is no part of. *)
Lemma unlinked_outside h es i e l :
  es !! i = Some e -> l ∉ es ≫= entry_locs ->
  unlinked es i e h !! l = h !! l.
Proof.
  intros Hi Hout. unfold unlinked.
  assert (Hnot : forall j e', es !! j = Some e' -> l ∉ entry_locs e').
  { intros j e' Hj Hin. apply Hout, list_elem_of_bind. exists e'.
    split; [exact Hin|]. eapply list_elem_of_lookup_2, Hj. }
  rewrite release_other by eauto. apply relinked_other.
  - intros e1 H1 E. apply (Hnot _ _ H1). rewrite <- E. apply in_locs_node.
  - intros k e0 _ H0 E. apply (Hnot _ _ H0). rewrite <- E. apply in_locs_node.
Qed.

(** A comparison of more bytes than a run holds is not defined. *)
Lemma bytes_cmp_short n :
  forall a b, (length a < n)%nat -> bytes_cmp n a b = None.
Proof.
  induction n as [|n IH]; intros a b Hlen; [lia|].
  destruct a as [|[x|] a]; [reflexivity| |reflexivity].
  destruct b as [|[y|] b]; [reflexivity| |reflexivity].
  cbn [bytes_cmp]. rewrite IH; [reflexivity|]. simpl in Hlen. lia.
Qed.

(** Replacing the bytes of an entry leaves the blocks of a sequence and its
    node references as they are. *)
Lemma node_at_set_bytes es j e bs' i :
  es !! j = Some e ->
  node_at (<[j := mk_entry (e_node e) (e_data e) (e_buf e) bs' (e_size e)]> es) i
  = node_at es i.
Proof.
  intros Hj. unfold node_at. destruct (decide (i = j)) as [->|Hne].
  - rewrite list_lookup_insert_eq by (eapply lookup_lt_Some, Hj). now rewrite Hj.
  - now rewrite list_lookup_insert_ne by congruence.
Qed.

Lemma locs_set_bytes es : forall j e bs',
  es !! j = Some e ->
  <[j := mk_entry (e_node e) (e_data e) (e_buf e) bs' (e_size e)]> es ≫= entry_locs
  = es ≫= entry_locs.
Proof.
  induction es as [|a es IH]; intros j e bs' Hj; [discriminate|].
  destruct j as [|j].
  - injection Hj as ->. reflexivity.
  - change ((a :: <[j := mk_entry (e_node e) (e_data e) (e_buf e) bs' (e_size e)]> es)
            ≫= entry_locs = (a :: es) ≫= entry_locs).
    rewrite !bind_cons. f_equal. now apply IH.
Qed.

(** ** Properties of the remaining operations *)

(** X1. With a callback that, for every payload of the list, stores at most
    [REALLOC_THRESHOLD] bytes and returns their number, [list_print]
    returns a buffer that starts with the concatenation, in list order, of
    what the callback stored for each node, followed by a zero byte. The
    buffer is a block that was not live before the call, and no other block
    is changed. *)
Theorem list_print_concat f m es fuel :
  chain (heap m) es ->
  Forall (well_behaved f) es ->
  16 * (N.of_nat (length es) + 1) <= SIZE_MOD ->
  allocs_succeed (S (length es)) (allocs m) ->
  (length es < fuel)%nat ->
  exists buff content m',
    list_print fuel (node_at es 0) (Some f) m = Ret (Vptr buff) m' /\
    heap m !! buff = None /\
    heap m' !! buff = Some (OBytes content) /\
    take (length (concat (printed f <$> es))) content
      = Some <$> concat (printed f <$> es) /\
    content !! length (concat (printed f <$> es)) = Some (Some "000"%byte) /\
    (forall l, l <> buff -> heap m' !! l = heap m !! l).
Proof.
  intros Hc Hwb Hmax Hal Hf.
  destruct (print_start m es
              (fun buff => list_print_loop fuel f (node_at es 0) buff 0
                             LIST_PRINT_BUFF_SIZE)
              Hc (allocs_succeed_one _ _ Hal))
    as (b0 & m1 & Estart & F0 & Eh1 & Eal1 & Hinv1 & Hc1 & Hlive1).
  assert (Hal1 : allocs_succeed (length es) (allocs m1))
    by (rewrite Eal1; now apply allocs_succeed_tail).
  assert (Hbound : 2 * (0 + 8 * N.of_nat (length es)) + 16 <= SIZE_MOD)
    by (clear - Hmax; lia).
  destruct (print_run f es (length es) 0 m1 b0 0 LIST_PRINT_BUFF_SIZE []
              (S (fuel - S (length es))) Hc1 Hlive1
              ltac:(intros j e _ He; eapply Forall_lookup_1; eauto)
              ltac:(lia) Hinv1 Hbound Hal1)
    as (buff & curr & m' & Erun
        & (content & Hcont & _ & Htake & Hroom & _ & Hzero) & _ & _
        & Hframe & Hold & Hnew).
  cbn [Nat.add] in *. change (drop 0 es) with es in *.
  rewrite firstn_all in *. rewrite N.add_0_l in *. cbn [app] in Htake.
  replace (length es + S (fuel - S (length es)))%nat with fuel in Erun by lia.
  rewrite (node_at_None es (length es)) in Erun by lia.
  assert (F0' : forall l, l <> b0 -> heap m1 !! l = heap m !! l)
    by (intros l Hl; rewrite Eh1; now apply lookup_insert_ne).
  rewrite Nat2N.id in Htake, Hzero.
  exists buff, content, m'.
  split; [|split; [|split; [exact Hcont|split; [exact Htake|split]]]].
  - unfold list_print, list_print_state. unfold bind at 1.
    rewrite Estart, Erun. reflexivity.
  - destruct Hnew as [->|Hnew]; [exact F0|].
    destruct (decide (buff = b0)) as [->|Hne]; [exact F0|].
    now rewrite <- F0'.
  - apply Hzero; [lia|]. unfold REALLOC_THRESHOLD in Hroom. clear - Hroom. lia.
  - intros l Hl. destruct (decide (l = b0)) as [->|Hne].
    + destruct Hold as [|Hold]; congruence.
    + rewrite Hframe by trivial. now apply F0'.
Qed.

Lemma list_print_concat_witness :
  exists buff content m',
    list_print 3 (Vptr 1) (Some print_head) two_nodes = Ret (Vptr buff) m' /\
    heap two_nodes !! buff = None /\
    heap m' !! buff = Some (OBytes content) /\
    take 2 content = [Some x0a; Some x14] /\
    content !! 2%nat = Some (Some "000"%byte) /\
    (forall l, l <> buff -> heap m' !! l = heap two_nodes !! l).
Proof.
  apply (list_print_concat print_head two_nodes [node_a; node_b] 3).
  - vm_compute. repeat (split || eexists).
  - repeat (apply Forall_cons; [split; [reflexivity|vm_compute; discriminate]|]).
    apply Forall_nil.
  - vm_compute. discriminate.
  - exact I.
  - simpl. lia.
Defined.

(** X2. When the callback reports a failure (the value -1) for the node at
    position [k], after having behaved well on the nodes before it,
    [list_print] returns the absent result and gives its buffer back: the
    memory holds the blocks it held before the call, with their contents. *)
Theorem list_print_callback_failure f m es k e fuel :
  chain (heap m) es ->
  es !! k = Some e ->
  Forall (well_behaved f) (take k es) ->
  snd (f (e_bytes e)) = (-1)%Z ->
  N.of_nat (length (printed f e)) <= REALLOC_THRESHOLD ->
  16 * (N.of_nat k + 1) <= SIZE_MOD ->
  allocs_succeed (S k) (allocs m) ->
  (k < fuel)%nat ->
  exists m',
    list_print fuel (node_at es 0) (Some f) m = Ret Vnull m' /\
    heap m' = heap m.
Proof.
  intros Hc Hk Hwb Hret Hsmall Hmax Hal Hf.
  destruct (print_start m es
              (fun buff => list_print_loop fuel f (node_at es 0) buff 0
                             LIST_PRINT_BUFF_SIZE)
              Hc (allocs_succeed_one _ _ Hal))
    as (b0 & m1 & Estart & F0 & Eh1 & Eal1 & Hinv1 & Hc1 & Hlive1).
  assert (Hal1 : allocs_succeed k (allocs m1))
    by (rewrite Eal1; now apply allocs_succeed_tail).
  assert (Hbound : 2 * (0 + 8 * N.of_nat k) + 16 <= SIZE_MOD)
    by (clear - Hmax; lia).
  assert (Hklen : (k < length es)%nat) by (eapply lookup_lt_Some, Hk).
  destruct (print_run f es k 0 m1 b0 0 LIST_PRINT_BUFF_SIZE []
              (S (fuel - S k)) Hc1 Hlive1
              ltac:(intros j e' Hj He'; eapply (Forall_lookup_1 _ _ j);
                    [exact Hwb|rewrite lookup_take_lt by lia; exact He'])
              ltac:(lia) Hinv1 Hbound Hal1)
    as (buff & curr & m' & Erun & Hinv & Hc' & _ & Hframe & Hold & Hnew).
  cbn [Nat.add] in Erun.
  replace (k + S (fuel - S k))%nat with fuel in Erun by lia.
  rewrite (print_fail_step f m' es k e buff _ curr _ _ Hc' Hk Hret Hsmall Hinv)
    in Erun.
  assert (F0' : forall l, l <> b0 -> heap m1 !! l = heap m !! l)
    by (intros l Hl; rewrite Eh1; now apply lookup_insert_ne).
  eexists. split.
  - unfold list_print, list_print_state. unfold bind at 1.
    rewrite Estart, Erun. reflexivity.
  - cbn [heap]. apply map_eq. intros l.
    destruct (decide (l = buff)) as [->|Hlb].
    + rewrite lookup_delete_eq. symmetry.
      destruct Hnew as [->|Hnew]; [exact F0|].
      destruct (decide (buff = b0)) as [->|Hne]; [exact F0|].
      now rewrite <- F0'.
    + rewrite lookup_delete_ne by congruence.
      destruct (decide (l = b0)) as [->|Hne].
      * destruct Hold as [|Hold]; congruence.
      * rewrite Hframe by trivial. now apply F0'.
Qed.

Lemma list_print_callback_failure_witness :
  exists m',
    list_print 3 (Vptr 1) (Some print_small) two_nodes = Ret Vnull m' /\
    heap m' = heap two_nodes.
Proof.
  apply (list_print_callback_failure print_small two_nodes [node_a; node_b]
           1 node_b 3).
  - vm_compute. repeat (split || eexists).
  - reflexivity.
  - repeat (apply Forall_cons; [split; [reflexivity|vm_compute; discriminate]|]).
    apply Forall_nil.
  - reflexivity.
  - vm_compute. discriminate.
  - vm_compute. discriminate.
  - exact I.
  - lia.
Defined.

(** X3. Called without a callback, [list_print] returns the absent result
    after it has allocated and zeroed its buffer: the 16-byte block stays
    live although no reference to it is returned, and nothing else is
    changed. *)
Theorem list_print_without_callback m root fuel :
  allocs_succeed 1 (allocs m) ->
  exists b0 m',
    list_print fuel root None m = Ret Vnull m' /\
    heap m !! b0 = None /\
    heap m' = <[b0 := OBytes (replicate 16 (Some "000"%byte))]> (heap m).
Proof.
  intros Hal.
  destruct (print_start m [] (fun _ => ret (Vnull, 0, LIST_PRINT_BUFF_SIZE)) I Hal)
    as (b0 & m1 & Estart & F0 & Eh1 & _).
  exists b0, m1. split; [|split; [exact F0|exact Eh1]].
  unfold list_print, list_print_state. unfold bind at 1. now rewrite Estart.
Qed.

Lemma list_print_without_callback_witness :
  exists b0 m',
    list_print 0 (Vptr 1) None two_nodes = Ret Vnull m' /\
    heap two_nodes !! b0 = None /\
    heap m' = <[b0 := OBytes (replicate 16 (Some "000"%byte))]> (heap two_nodes).
Proof. apply (list_print_without_callback two_nodes (Vptr 1) 0). exact I. Defined.

(** X4. With a callback that, for every payload of the list, stores at most
    [REALLOC_THRESHOLD] bytes and returns their number, and once the first
    allocation has succeeded, [list_print] ends in one of two ways whatever
    the allocator answers later: it returns a buffer, not live before, that
    holds the concatenation of what was printed followed by a zero byte and
    changes no other block; or it returns the absent result and the memory
    holds the blocks it held before the call, with their contents. *)
Theorem list_print_outcomes f m es fuel :
  chain (heap m) es ->
  Forall (well_behaved f) es ->
  16 * (N.of_nat (length es) + 1) <= SIZE_MOD ->
  allocs_succeed 1 (allocs m) ->
  (length es < fuel)%nat ->
  (exists buff content m',
     list_print fuel (node_at es 0) (Some f) m = Ret (Vptr buff) m' /\
     heap m !! buff = None /\
     heap m' !! buff = Some (OBytes content) /\
     take (length (concat (printed f <$> es))) content
       = Some <$> concat (printed f <$> es) /\
     content !! length (concat (printed f <$> es)) = Some (Some "000"%byte) /\
     (forall l, l <> buff -> heap m' !! l = heap m !! l)) \/
  (exists m',
     list_print fuel (node_at es 0) (Some f) m = Ret Vnull m' /\
     heap m' = heap m).
Proof.
  intros Hc Hwb Hmax Hal Hf.
  destruct (print_start m es
              (fun buff => list_print_loop fuel f (node_at es 0) buff 0
                             LIST_PRINT_BUFF_SIZE) Hc Hal)
    as (b0 & m1 & Estart & F0 & Eh1 & Eal1 & Hinv1 & Hc1 & Hlive1).
  assert (Hbound : 2 * (0 + 8 * N.of_nat (length es)) + 16 <= SIZE_MOD)
    by (clear - Hmax; lia).
  assert (F0' : forall l, l <> b0 -> heap m1 !! l = heap m !! l)
    by (intros l Hl; rewrite Eh1; now apply lookup_insert_ne).
  destruct (print_rest f es (length es) 0 m1 b0 0 LIST_PRINT_BUFF_SIZE []
              (fuel - S (length es)) Hc1 Hlive1
              ltac:(intros j e _ He; eapply Forall_lookup_1; eauto)
              ltac:(lia) Hinv1 Hbound)
    as [(buff & curr & m' & Erun
         & (content & Hcont & _ & Htake & Hroom & _ & Hzero) & Hframe & Hold & Hnew)
       |(r & c & m' & Erun & Eh')];
    replace (length es + S (fuel - S (length es)))%nat with fuel in Erun by lia.
  - left. change (drop 0 es) with es in *. rewrite N.add_0_l in *.
    cbn [app] in Htake. rewrite Nat2N.id in Htake, Hzero.
    exists buff, content, m'.
    split; [|split; [|split; [exact Hcont|split; [exact Htake|split]]]].
    + unfold list_print, list_print_state. unfold bind at 1.
      rewrite Estart, Erun. reflexivity.
    + destruct Hnew as [->|Hnew]; [exact F0|].
      destruct (decide (buff = b0)) as [->|Hne]; [exact F0|].
      now rewrite <- F0'.
    + apply Hzero; [lia|]. unfold REALLOC_THRESHOLD in Hroom. clear - Hroom. lia.
    + intros l Hl. destruct (decide (l = b0)) as [->|Hne].
      * destruct Hold as [|Hold]; congruence.
      * rewrite Hframe by trivial. now apply F0'.
  - right. exists m'. split.
    + unfold list_print, list_print_state. unfold bind at 1.
      rewrite Estart, Erun. reflexivity.
    + rewrite Eh', Eh1, delete_insert_eq. now apply delete_id.
Qed.

Lemma list_print_outcomes_witness :
  (exists buff content m',
     list_print 3 (Vptr 1) (Some print_eight)
       (mk_mem (heap two_nodes) [true; false]) = Ret (Vptr buff) m' /\
     heap (mk_mem (heap two_nodes) [true; false]) !! buff = None /\
     heap m' !! buff = Some (OBytes content) /\
     take (length (concat (printed print_eight <$> [node_a; node_b]))) content
       = Some <$> concat (printed print_eight <$> [node_a; node_b]) /\
     content !! length (concat (printed print_eight <$> [node_a; node_b]))
       = Some (Some "000"%byte) /\
     (forall l, l <> buff ->
        heap m' !! l = heap (mk_mem (heap two_nodes) [true; false]) !! l)) \/
  (exists m',
     list_print 3 (Vptr 1) (Some print_eight)
       (mk_mem (heap two_nodes) [true; false]) = Ret Vnull m' /\
     heap m' = heap (mk_mem (heap two_nodes) [true; false])).
Proof.
  apply (list_print_outcomes print_eight (mk_mem (heap two_nodes) [true; false])
           [node_a; node_b] 3).
  - vm_compute. repeat (split || eexists).
  - repeat (apply Forall_cons; [split; [reflexivity|vm_compute; discriminate]|]).
    apply Forall_nil.
  - vm_compute. discriminate.
  - simpl. auto.
  - simpl. lia.
Defined.

(** X5. [list_print] does not check the result of its first allocation:
    when that request is turned down, the call zeroes through a null
    pointer, whatever the list and the callback are. *)
Theorem list_print_unchecked_malloc m root cb fuel rest :
  allocs m = false :: rest ->
  list_print fuel root cb m = Fault.
Proof.
  intros Hal. unfold list_print, list_print_state.
  unfold bind at 1. unfold bind at 1. now rewrite malloc_case, Hal.
Qed.

Lemma list_print_unchecked_malloc_witness :
  list_print 3 (Vptr 1) (Some print_head) (mk_mem (heap two_nodes) [false]) = Fault.
Proof.
  apply (list_print_unchecked_malloc (mk_mem (heap two_nodes) [false]) (Vptr 1)
           (Some print_head) 3 []).
  reflexivity.
Defined.

(** X6. [list_destroy] called on the node at position [k] of a well-formed
    list releases the three blocks of that node and of every node after it,
    and leaves the nodes before it as a well-formed list (of the old root
    when [k > 0], the empty list otherwise); no block outside the list is
    changed. *)
Theorem list_destroy_from m root es k e fuel :
  is_list (heap m) root es ->
  es !! k = Some e ->
  (length es < fuel)%nat ->
  exists m',
    list_destroy fuel (Vptr (e_node e)) m = Ret tt m' /\
    is_list (heap m') (match k with O => Vnull | S _ => root end) (take k es) /\
    (forall l, l ∈ drop k es ≫= entry_locs -> heap m' !! l = None) /\
    (forall l, l ∉ es ≫= entry_locs -> heap m' !! l = heap m !! l) /\
    allocs m' = allocs m.
Proof.
  intros (Hroot & Hl & Hs) Hk Hf.
  destruct (list_destroy_at m es k e fuel Hl Hs Hk Hf)
    as (m' & Hrun & Hl' & Hgone & Hframe & Hal).
  exists m'. repeat split; trivial.
  - destruct k as [|k]; [reflexivity|].
    rewrite Hroot. symmetry. apply node_at_take_lt. lia.
  - eapply separate_sublist; [|exact Hs]. apply sublist_take.
Qed.

Lemma list_destroy_from_witness :
  exists m',
    list_destroy 3 (Vptr 4) two_nodes = Ret tt m' /\
    is_list (heap m') (Vptr 1) [node_a] /\
    (forall l, l ∈ [node_b] ≫= entry_locs -> heap m' !! l = None) /\
    (forall l, l ∉ [node_a; node_b] ≫= entry_locs ->
               heap m' !! l = heap two_nodes !! l) /\
    allocs m' = allocs two_nodes.
Proof.
  apply (list_destroy_from two_nodes (Vptr 1) [node_a; node_b] 1 node_b 3).
  - split; [reflexivity|]. split; [vm_compute; repeat split|].
    apply (bool_decide_unpack _). vm_compute. exact I.
  - reflexivity.
  - simpl. lia.
Defined.

(** X7. [list_len] called on the node at position [k] of a chain returns
    the number of nodes from that node to the end of the chain (zero when
    the reference is absent), and changes nothing. *)
Theorem list_len_from_node m es k fuel :
  chain (heap m) es ->
  N.of_nat (length es) < SIZE_MOD ->
  (length es < fuel)%nat ->
  list_len fuel (node_at es k) m = Ret (N.of_nat (length es - k)) m.
Proof.
  intros Hc Hmax Hf.
  replace (node_at es k) with (node_at (drop k es) 0)
    by (rewrite node_at_drop; f_equal; lia).
  rewrite (list_len_ok m (drop k es) fuel (chain_drop _ _ _ Hc))
    by (rewrite length_drop; lia).
  rewrite length_drop, wrap_small by lia. reflexivity.
Qed.

Lemma list_len_from_node_witness :
  list_len 3 (Vptr 4) two_nodes = Ret 1 two_nodes.
Proof.
  apply (list_len_from_node two_nodes [node_a; node_b] 1 3).
  - vm_compute. repeat (split || eexists).
  - reflexivity.
  - simpl. lia.
Defined.

(** X8. Inserting at the position equal to the length of a well-formed,
    non-empty list appends a node: [list_insert] returns the old root, the
    memory holds the well-formed list of the old entries followed by one
    whose payload is a fresh copy of the caller's bytes, [list_len] is one
    more than before, [list_get] gives the copy at the last position and
    the old payloads at their old positions, and no block outside the list
    is changed. *)
Theorem list_insert_at_end m root es p bs (cs : list byte) size fuel :
  is_list (heap m) root es ->
  es <> [] ->
  heap m !! p = Some (OBytes bs) ->
  length cs = N.to_nat size ->
  take (N.to_nat size) bs = Some <$> cs ->
  N.of_nat (S (length es)) < SIZE_MOD ->
  (S (length es) < fuel)%nat ->
  allocs_succeed 3 (allocs m) ->
  exists n d b m',
    list_insert fuel root (Vptr p) size (N.of_nat (length es)) m = Ret root m' /\
    is_list (heap m') root (es ++ [mk_entry n d b (Some <$> cs) (Some size)]) /\
    list_len fuel root m' = Ret (N.of_nat (S (length es))) m' /\
    list_get fuel root (N.of_nat (length es)) m' = Ret (Vptr b) m' /\
    heap m' !! b = Some (OBytes (Some <$> cs)) /\
    heap m !! b = None /\
    (forall j e, es !! j = Some e ->
       list_get fuel root (N.of_nat j) m' = Ret (Vptr (e_buf e)) m' /\
       heap m' !! e_buf e = Some (OBytes (e_bytes e))) /\
    (forall l, l ∉ es ≫= entry_locs -> l <> n -> l <> d -> l <> b ->
               heap m' !! l = heap m !! l).
Proof.
  intros Hlist Hne Hp Hlen Hcs Hmax Hf Hal.
  destruct (list_insert_append m root es p bs cs size fuel Hlist Hne Hp Hlen Hcs
              ltac:(lia) ltac:(lia) Hal)
    as (n & d & b & m' & Hrun & Hlist' & (_ & _ & Fb) & Hframe & _).
  assert (Hlen' : length (es ++ [mk_entry n d b (Some <$> cs) (Some size)])
                  = S (length es)) by (rewrite length_app; simpl; lia).
  destruct (is_list_observe m' root _ fuel Hlist') as (Hlen1 & Hget);
    [rewrite Hlen'; lia | rewrite Hlen'; lia |].
  rewrite Hlen' in Hlen1.
  destruct (Hget (length es) (mk_entry n d b (Some <$> cs) (Some size)))
    as (Hget1 & Hb1); [now apply list_lookup_middle|].
  exists n, d, b, m'. split; [exact Hrun|]. split; [exact Hlist'|].
  split; [exact Hlen1|]. split; [exact Hget1|]. split; [exact Hb1|].
  split; [exact Fb|]. split; [|exact Hframe].
  intros j e Hj. apply Hget. now apply lookup_app_l_Some.
Qed.

Lemma list_insert_at_end_witness :
  exists n d b m',
    list_insert 4 (Vptr 1) (Vptr 7) 1 (N.of_nat 2) two_nodes = Ret (Vptr 1) m' /\
    is_list (heap m') (Vptr 1)
      ([node_a; node_b] ++ [mk_entry n d b (Some <$> [x05]) (Some 1)]) /\
    list_len 4 (Vptr 1) m' = Ret (N.of_nat 3) m' /\
    list_get 4 (Vptr 1) (N.of_nat 2) m' = Ret (Vptr b) m' /\
    heap m' !! b = Some (OBytes (Some <$> [x05])) /\
    heap two_nodes !! b = None /\
    (forall j e, [node_a; node_b] !! j = Some e ->
       list_get 4 (Vptr 1) (N.of_nat j) m' = Ret (Vptr (e_buf e)) m' /\
       heap m' !! e_buf e = Some (OBytes (e_bytes e))) /\
    (forall l, l ∉ [node_a; node_b] ≫= entry_locs -> l <> n -> l <> d -> l <> b ->
               heap m' !! l = heap two_nodes !! l).
Proof.
  apply (list_insert_at_end two_nodes (Vptr 1) [node_a; node_b] 7%positive
           [Some x05] [x05] 1 4).
  - split; [reflexivity|]. split; [vm_compute; repeat split|].
    apply (bool_decide_unpack _). vm_compute. exact I.
  - discriminate.
  - reflexivity.
  - reflexivity.
  - reflexivity.
  - reflexivity.
  - simpl. lia.
  - exact I.
Defined.

(** X9. Inserting at position 0 of a well-formed, non-empty list puts a new
    node in front: [list_insert] returns the new node as the root, the
    memory holds the well-formed list of an entry whose payload is a fresh
    copy of the caller's bytes followed by the old entries, [list_len] is
    one more than before, [list_get] gives the copy at position 0 and the
    old payloads one position further, and no block outside the list is
    changed. *)
Theorem list_insert_at_front m root es p bs (cs : list byte) size fuel :
  is_list (heap m) root es ->
  es <> [] ->
  heap m !! p = Some (OBytes bs) ->
  length cs = N.to_nat size ->
  take (N.to_nat size) bs = Some <$> cs ->
  N.of_nat (S (length es)) < SIZE_MOD ->
  (S (length es) < fuel)%nat ->
  allocs_succeed 3 (allocs m) ->
  exists n d b m',
    list_insert fuel root (Vptr p) size 0 m = Ret (Vptr n) m' /\
    is_list (heap m') (Vptr n) (mk_entry n d b (Some <$> cs) (Some size) :: es) /\
    list_len fuel (Vptr n) m' = Ret (N.of_nat (S (length es))) m' /\
    list_get fuel (Vptr n) 0 m' = Ret (Vptr b) m' /\
    heap m' !! b = Some (OBytes (Some <$> cs)) /\
    heap m !! b = None /\
    (forall j e, es !! j = Some e ->
       list_get fuel (Vptr n) (N.of_nat (S j)) m' = Ret (Vptr (e_buf e)) m' /\
       heap m' !! e_buf e = Some (OBytes (e_bytes e))) /\
    (forall l, l ∉ es ≫= entry_locs -> l <> n -> l <> d -> l <> b ->
               heap m' !! l = heap m !! l).
Proof.
  intros Hlist Hne Hp Hlen Hcs Hmax Hf Hal.
  destruct (list_insert_prepend m root es p bs cs size fuel Hlist Hne Hp Hlen Hcs
              ltac:(lia) Hal)
    as (n & d & b & m' & Hrun & Hlist' & (_ & _ & Fb) & Hframe & _).
  destruct (is_list_observe m' (Vptr n) _ fuel Hlist') as (Hlen1 & Hget);
    [simpl length; lia | simpl length; lia |].
  destruct (Hget 0%nat (mk_entry n d b (Some <$> cs) (Some size)))
    as (Hget1 & Hb1); [reflexivity|].
  exists n, d, b, m'. split; [exact Hrun|]. split; [exact Hlist'|].
  split; [exact Hlen1|]. split; [exact Hget1|]. split; [exact Hb1|].
  split; [exact Fb|]. split; [|exact Hframe].
  intros j e Hj. now apply (Hget (S j)).
Qed.

Lemma list_insert_at_front_witness :
  exists n d b m',
    list_insert 4 (Vptr 1) (Vptr 7) 1 0 two_nodes = Ret (Vptr n) m' /\
    is_list (heap m') (Vptr n)
      (mk_entry n d b (Some <$> [x05]) (Some 1) :: [node_a; node_b]) /\
    list_len 4 (Vptr n) m' = Ret (N.of_nat 3) m' /\
    list_get 4 (Vptr n) 0 m' = Ret (Vptr b) m' /\
    heap m' !! b = Some (OBytes (Some <$> [x05])) /\
    heap two_nodes !! b = None /\
    (forall j e, [node_a; node_b] !! j = Some e ->
       list_get 4 (Vptr n) (N.of_nat (S j)) m' = Ret (Vptr (e_buf e)) m' /\
       heap m' !! e_buf e = Some (OBytes (e_bytes e))) /\
    (forall l, l ∉ [node_a; node_b] ≫= entry_locs -> l <> n -> l <> d -> l <> b ->
               heap m' !! l = heap two_nodes !! l).
Proof.
  apply (list_insert_at_front two_nodes (Vptr 1) [node_a; node_b] 7%positive
           [Some x05] [x05] 1 4).
  - split; [reflexivity|]. split; [vm_compute; repeat split|].
    apply (bool_decide_unpack _). vm_compute. exact I.
  - discriminate.
  - reflexivity.
  - reflexivity.
  - reflexivity.
  - reflexivity.
  - simpl. lia.
  - exact I.
Defined.

(** X10. For every well-formed list and every position strictly inside it,
    [list_insert] returns the root and allocates the new node, but the
    forward chain from the root is what it was: [list_len] and every
    [list_get] give what they gave before the call, and from the returned
    root the memory holds no well-formed list any more. *)
Theorem list_insert_inside_unlinked m root es p bs (cs : list byte) size k ek fuel :
  is_list (heap m) root es ->
  heap m !! p = Some (OBytes bs) ->
  length cs = N.to_nat size ->
  take (N.to_nat size) bs = Some <$> cs ->
  es !! S k = Some ek ->
  N.of_nat (length es) < SIZE_MOD ->
  (length es < fuel)%nat ->
  allocs_succeed 3 (allocs m) ->
  exists m',
    list_insert fuel root (Vptr p) size (N.of_nat (S k)) m = Ret root m' /\
    list_len fuel root m' = Ret (N.of_nat (length es)) m' /\
    (forall j e, es !! j = Some e ->
       list_get fuel root (N.of_nat j) m' = Ret (Vptr (e_buf e)) m' /\
       heap m' !! e_buf e = Some (OBytes (e_bytes e))) /\
    (forall es', ~ is_list (heap m') root es').
Proof.
  intros Hlist Hp Hlen Hcs Hk Hmax Hf Hal.
  destruct (list_insert_middle_forward_chain m root es p bs cs size k ek fuel
              Hlist Hp Hlen Hcs Hk Hmax Hf Hal) as (m' & Hrun & _ & Hlen' & Hget).
  destruct (list_insert_middle_not_list m root es p bs cs size k ek fuel
              Hlist Hp Hlen Hcs Hk Hmax Hf Hal) as (m'' & Hrun' & Hnot).
  assert (m'' = m') by congruence. subst m''.
  exists m'. auto.
Qed.

Lemma list_insert_inside_unlinked_witness :
  exists m',
    list_insert 3 (Vptr 1) (Vptr 7) 1 (N.of_nat 1) two_nodes = Ret (Vptr 1) m' /\
    list_len 3 (Vptr 1) m' = Ret (N.of_nat 2) m' /\
    (forall j e, [node_a; node_b] !! j = Some e ->
       list_get 3 (Vptr 1) (N.of_nat j) m' = Ret (Vptr (e_buf e)) m' /\
       heap m' !! e_buf e = Some (OBytes (e_bytes e))) /\
    (forall es', ~ is_list (heap m') (Vptr 1) es').
Proof.
  apply (list_insert_inside_unlinked two_nodes (Vptr 1) [node_a; node_b]
           7%positive [Some x05] [x05] 1 0 node_b 3).
  - split; [reflexivity|]. split; [vm_compute; repeat split|].
    apply (bool_decide_unpack _). vm_compute. exact I.
  - reflexivity.
  - reflexivity.
  - reflexivity.
  - reflexivity.
  - reflexivity.
  - simpl. lia.
  - exact I.
Defined.

Lemma list_insert_alloc_failure_witness :
  list_insert 3 (Vptr 1) (Vptr 7) 1 (N.of_nat 2)
    (mk_mem (heap two_nodes) [true; false]) = Fault.
Proof.
  apply (list_insert_alloc_failure (mk_mem (heap two_nodes) [true; false])
           (Vptr 1) [node_a; node_b] 7%positive 1 2 3).
  - split; [reflexivity|]. split; [vm_compute; repeat split|].
    apply (bool_decide_unpack _). vm_compute. exact I.
  - discriminate.
  - simpl. lia.
  - reflexivity.
  - simpl. lia.
  - simpl. intros (_ & H & _). discriminate.
Defined.

Lemma list_init_alloc_failure_witness :
  exists m',
    list_init (Vptr 7) 2 (mk_mem (heap caller_only) [true; true; false])
    = Ret Vnull m' /\
    heap m' = heap (mk_mem (heap caller_only) [true; true; false]).
Proof.
  apply (list_init_alloc_failure (mk_mem (heap caller_only) [true; true; false])
           7%positive [Some x05; Some x06] [x05; x06] 2).
  - reflexivity.
  - reflexivity.
  - reflexivity.
  - reflexivity.
  - simpl. intros (_ & _ & H & _). discriminate.
Defined.

(** X13. On a well-formed list whose payloads, like the supplied buffer, have
    [size] readable bytes, [list_search] changes nothing; either every node
    differs from the buffer and it returns the absent result, or it returns
    the first node of the list that matches. The result is absent exactly
    when no node matches. *)
Theorem list_search_spec m root es pb buf size fuel :
  is_list (heap m) root es ->
  heap m !! pb = Some (OBytes buf) ->
  readable (N.to_nat size) buf ->
  Forall (fun e => readable (N.to_nat size) (e_bytes e)) es ->
  (length es < fuel)%nat ->
  exists v,
    list_search fuel root (Vptr pb) size m = Ret v m /\
    (v = Vnull <-> forall e, e ∈ es -> ~ matches size buf e) /\
    ((v = Vnull /\ Forall (differs size buf) es) \/
     exists i e, es !! i = Some e /\ v = Vptr (e_node e) /\
                 matches size buf e /\
                 Forall (differs size buf) (take i es)).
Proof.
  intros (-> & Hl & _) Hbuf Hrb Hre Hf.
  assert (Hcmp : Forall (fun e => matches size buf e \/ differs size buf e) es).
  { eapply list.Forall_impl; [exact Hre|]. intros e He. now apply readable_compare. }
  destruct (first_match _ _ _ Hcmp) as [Hall|(i & e & Hi & Hpre & Hm)].
  - exists Vnull. split; [now apply (list_search_miss m Vnull es pb buf size)|].
    split; [|left; split; [reflexivity|exact Hall]]. split; [|reflexivity].
    intros _ e He Hm. eapply matches_not_differs; [exact Hm|].
    exact (proj1 (list.Forall_forall _ _) Hall e He).
  - assert (Hlt : (i < fuel)%nat) by (apply lookup_lt_Some in Hi; lia).
    exists (Vptr (e_node e)).
    split; [now apply (list_search_found m Vnull es pb buf size Hl Hbuf i e)|].
    split.
    + split; [discriminate|]. intros Hno. destruct (Hno e); [|exact Hm].
      eapply list_elem_of_lookup_2, Hi.
    + right. exists i, e. repeat split; trivial.
Qed.

Lemma list_search_spec_witness :
  exists v,
    list_search 3 (Vptr 1) (Vptr 8) 1 two_nodes = Ret v two_nodes /\
    (v = Vnull <-> forall e, e ∈ [node_a; node_b] ->
                             ~ matches 1 [Some x14; Some x00] e) /\
    ((v = Vnull /\ Forall (differs 1 [Some x14; Some x00]) [node_a; node_b]) \/
     exists i e, [node_a; node_b] !! i = Some e /\ v = Vptr (e_node e) /\
                 matches 1 [Some x14; Some x00] e /\
                 Forall (differs 1 [Some x14; Some x00]) (take i [node_a; node_b])).
Proof.
  apply (list_search_spec two_nodes (Vptr 1) [node_a; node_b] 8%positive
           [Some x14; Some x00] 1 3).
  - split; [reflexivity|]. split; [vm_compute; repeat split|].
    apply (bool_decide_unpack _). vm_compute. exact I.
  - reflexivity.
  - exists [x14]. split; reflexivity.
  - repeat constructor; [exists [x0a] | exists [x14]]; split; reflexivity.
  - simpl. lia.
Defined.

(** X14. After [list_del] has removed the only node that matches a buffer
    lying outside the list, [list_search] for the same buffer returns the
    absent result, [list_len] is one less than before, and [list_get]
    gives the remaining payloads in their old order. *)
Theorem list_del_then_observe m root es pb buf size fuel i e :
  is_list (heap m) root es ->
  heap m !! pb = Some (OBytes buf) ->
  pb ∉ es ≫= entry_locs ->
  es !! i = Some e ->
  matches size buf e ->
  Forall (differs size buf) (delete i es) ->
  N.of_nat (length es) < SIZE_MOD ->
  (length es < fuel)%nat ->
  exists root' m',
    list_del fuel root (Vptr pb) size m = Ret root' m' /\
    list_search fuel root' (Vptr pb) size m' = Ret Vnull m' /\
    list_len fuel root' m' = Ret (N.of_nat (length es - 1)) m' /\
    (forall j e', delete i es !! j = Some e' ->
       list_get fuel root' (N.of_nat j) m' = Ret (Vptr (e_buf e')) m' /\
       heap m' !! e_buf e' = Some (OBytes (e_bytes e'))).
Proof.
  intros Hlist Hbuf Hout Hi Hm Hrest Hmax Hf.
  assert (Hpre : Forall (differs size buf) (take i es)).
  { rewrite delete_take_drop in Hrest. now apply Forall_app in Hrest. }
  assert (Hlt : (i < fuel)%nat) by (apply lookup_lt_Some in Hi; lia).
  rewrite (list_del_found _ _ _ _ _ _ _ _ _ Hlist Hbuf Hi Hpre Hm Hlt).
  destruct Hlist as (Hroot & Hl & Hs).
  remember (mk_mem (unlinked es i e (heap m)) (allocs m)) as m' eqn:Em'.
  assert (Hl' : linked (heap m') Vnull (delete i es))
    by (rewrite Em'; now apply unlinked_linked).
  assert (Hlist' : is_list (heap m') (node_at (delete i es) 0) (delete i es)).
  { split; [reflexivity|]. split; [exact Hl'|now apply separate_delete]. }
  assert (Hbuf' : heap m' !! pb = Some (OBytes buf)).
  { rewrite Em'. cbn [heap]. now rewrite unlinked_outside. }
  assert (Hlen : length (delete i es) = (length es - 1)%nat)
    by (apply length_delete; eauto).
  destruct (is_list_observe m' _ _ fuel Hlist') as (Hlen1 & Hget);
    [rewrite Hlen; lia | rewrite Hlen; lia |].
  rewrite Hlen in Hlen1.
  exists (node_at (delete i es) 0), m'. split; [reflexivity|].
  split; [|split; [exact Hlen1|exact Hget]].
  apply (list_search_miss m' Vnull (delete i es) pb buf size Hl' Hbuf');
    [exact Hrest | rewrite Hlen; lia].
Qed.

Lemma list_del_then_observe_witness :
  exists root' m',
    list_del 3 (Vptr 1) (Vptr 8) 1 two_nodes = Ret root' m' /\
    list_search 3 root' (Vptr 8) 1 m' = Ret Vnull m' /\
    list_len 3 root' m' = Ret (N.of_nat (2 - 1)) m' /\
    (forall j e', delete 1%nat [node_a; node_b] !! j = Some e' ->
       list_get 3 root' (N.of_nat j) m' = Ret (Vptr (e_buf e')) m' /\
       heap m' !! e_buf e' = Some (OBytes (e_bytes e'))).
Proof.
  apply (list_del_then_observe two_nodes (Vptr 1) [node_a; node_b] 8%positive
           [Some x14; Some x00] 1 3 1 node_b).
  - split; [reflexivity|]. split; [vm_compute; repeat split|].
    apply (bool_decide_unpack _). vm_compute. exact I.
  - reflexivity.
  - apply (bool_decide_unpack _). vm_compute. exact I.
  - reflexivity.
  - reflexivity.
  - repeat constructor. exists (-1)%Z. split; [reflexivity|discriminate].
  - reflexivity.
  - simpl. lia.
Defined.

(** X15. [list_del] called with a reference to a node that is not the first
    of its list and that matches the buffer unlinks and releases that very
    node, and then returns the reference it was given: the result refers
    to a block that is no longer live, while the list of the actual root
    stays well formed without the node. *)
Theorem list_del_from_inner_node m root es pb buf size fuel k e :
  is_list (heap m) root es ->
  heap m !! pb = Some (OBytes buf) ->
  es !! S k = Some e ->
  matches size buf e ->
  (0 < fuel)%nat ->
  exists m',
    list_del fuel (Vptr (e_node e)) (Vptr pb) size m = Ret (Vptr (e_node e)) m' /\
    heap m' !! e_node e = None /\
    is_list (heap m') root (delete (S k) es).
Proof.
  intros (Hroot & Hl & Hs) Hbuf Hk Hm Hf.
  destruct fuel as [|fuel]; [lia|].
  pose proof (list_del_at m (Vptr (e_node e)) es (S k) e pb buf size fuel
                Hl Hs Hbuf Hk Hm) as Hdel.
  rewrite (node_at_Some _ _ _ Hk) in Hdel.
  eexists. split; [exact Hdel|]. cbn [heap]. split.
  - apply release_own, in_locs_node.
  - split; [|split; [now apply unlinked_linked | now apply separate_delete]].
    rewrite Hroot. symmetry. apply node_at_delete_lt. lia.
Qed.

Lemma list_del_from_inner_node_witness :
  exists m',
    list_del 3 (Vptr 4) (Vptr 8) 1 two_nodes = Ret (Vptr 4) m' /\
    heap m' !! 4%positive = None /\
    is_list (heap m') (Vptr 1) (delete 1%nat [node_a; node_b]).
Proof.
  apply (list_del_from_inner_node two_nodes (Vptr 1) [node_a; node_b] 8%positive
           [Some x14; Some x00] 1 3 0 node_b).
  - split; [reflexivity|]. split; [vm_compute; repeat split|].
    apply (bool_decide_unpack _). vm_compute. exact I.
  - reflexivity.
  - reflexivity.
  - reflexivity.
  - lia.
Defined.

(** X16. Appending a payload that no node of the list matches and deleting
    it again is a round trip: [list_del] returns the root the list had, and
    the memory holds the blocks it held before the insertion, with their
    contents. *)
Theorem list_insert_then_del_restores m root es p bs (cs : list byte) size fuel :
  is_list (heap m) root es ->
  es <> [] ->
  heap m !! p = Some (OBytes bs) ->
  p ∉ es ≫= entry_locs ->
  length cs = N.to_nat size ->
  take (N.to_nat size) bs = Some <$> cs ->
  Forall (differs size bs) es ->
  N.of_nat (length es) < SIZE_MOD ->
  (length es < fuel)%nat ->
  allocs_succeed 3 (allocs m) ->
  exists m',
    (do r <- list_insert fuel root (Vptr p) size (N.of_nat (length es)) ;
     list_del fuel r (Vptr p) size) m = Ret root m' /\
    heap m' = heap m.
Proof.
  intros Hlist Hne Hp Hout Hlen Hcs Hdiff Hmax Hf Hal.
  destruct (list_insert_append m root es p bs cs size fuel Hlist Hne Hp Hlen Hcs
              Hmax Hf Hal)
    as (n & d & b & m1 & Hrun & Hlist1 & (Fn & Fd & Fb) & Hframe & _).
  set (new := mk_entry n d b (Some <$> cs) (Some size)) in *.
  assert (Hp1 : heap m1 !! p = Some (OBytes bs))
    by (rewrite Hframe; trivial; congruence).
  assert (Hi : (es ++ [new]) !! length es = Some new) by now apply list_lookup_middle.
  assert (Hpre : Forall (differs size bs) (take (length es) (es ++ [new])))
    by now rewrite take_app_length.
  assert (Hm : matches size bs new).
  { apply bytes_cmp_zero. exists cs. split; [exact Hlen|]. split; [|exact Hcs].
    apply take_ge. cbn [e_bytes new]. rewrite length_fmap. lia. }
  rewrite (bind_ret _ _ _ _ _ Hrun).
  rewrite (list_del_found _ _ _ _ _ _ _ _ _ Hlist1 Hp1 Hi Hpre Hm Hf).
  destruct Hlist as (Hroot & Hl & Hs). destruct Hlist1 as (_ & Hl1 & _).
  assert (Edel : delete (length es) (es ++ [new]) = es)
    by (rewrite delete_middle; apply app_nil_r).
  eexists. split; [now rewrite Edel, Hroot|]. cbn [heap].
  apply map_eq. intros l. unfold unlinked.
  destruct (decide (l ∈ entry_locs new)) as [Hin|Hnin].
  { rewrite release_own by exact Hin. unfold entry_locs in Hin. cbn in Hin.
    rewrite !elem_of_cons in Hin.
    destruct Hin as [->|[->|[->|Hin]]]; auto. now apply elem_of_nil in Hin. }
  rewrite release_other by exact Hnin.
  assert (Hlnew : l <> n /\ l <> d /\ l <> b).
  { repeat split; intros ->; apply Hnin; unfold entry_locs; cbn;
      rewrite !elem_of_cons; auto. }
  destruct Hlnew as (Hln & Hld & Hlb).
  unfold relink_next. rewrite lookup_ge_None_2 by (rewrite length_app; simpl; lia).
  destruct (length es) as [|k] eqn:Elen; [now destruct es|].
  destruct (lookup_lt_is_Some_2 es k) as [e0 Hk]; [lia|].
  unfold relink_prev. rewrite (lookup_app_l_Some _ _ _ _ Hk).
  assert (Hsame : forall j e', es !! j = Some e' -> j <> k -> l ∈ entry_locs e' ->
                               heap m1 !! l = heap m !! l).
  { intros j e' Hj Hjk Hin.
    pose proof (lookup_lt_Some _ _ _ Hj) as Hjlt.
    destruct (linked_lookup _ _ _ _ _ Hl Hj) as (Hn0 & Hd0 & Hb0).
    destruct (linked_lookup _ _ _ _ _ Hl1 (lookup_app_l_Some _ _ _ _ Hj))
      as (Hn1 & Hd1 & Hb1).
    assert (Ep : prev_at Vnull (es ++ [new]) j = prev_at Vnull es j).
    { destruct j as [|j]; [reflexivity|]. cbn [prev_at]. unfold node_at.
      now rewrite lookup_app_l by lia. }
    assert (En : node_at (es ++ [new]) (S j) = node_at es (S j)).
    { unfold node_at. now rewrite lookup_app_l by lia. }
    rewrite Ep, En in Hn1.
    unfold entry_locs in Hin. rewrite !elem_of_cons in Hin.
    destruct Hin as [->|[->|[->|Hin]]]; try congruence.
    now apply elem_of_nil in Hin. }
  destruct (decide (l = e_node e0)) as [->|Hl0].
  - rewrite lookup_insert_eq.
    destruct (linked_lookup _ _ _ _ _ Hl Hk) as (Hn0 & _). rewrite Hn0.
    rewrite (node_at_None es (S k)) by lia.
    rewrite (node_at_None (es ++ [new]) (S (S k))) by (rewrite length_app; simpl; lia).
    do 3 f_equal. destruct k as [|k]; [reflexivity|]. cbn [prev_at]. unfold node_at.
    now rewrite lookup_app_l by lia.
  - rewrite lookup_insert_ne by congruence.
    destruct (decide (l ∈ es ≫= entry_locs)) as [Hin|Hnin'].
    + apply list_elem_of_bind in Hin as (e' & Hin & He').
      apply list_elem_of_lookup in He' as (j & Hj).
      destruct (decide (j = k)) as [->|Hjk]; [|now apply (Hsame j e')].
      assert (e' = e0) by congruence. subst e'.
      destruct (linked_lookup _ _ _ _ _ Hl Hk) as (_ & Hd0 & Hb0).
      destruct (linked_lookup _ _ _ _ _ Hl1 (lookup_app_l_Some _ _ _ _ Hk))
        as (_ & Hd1 & Hb1).
      unfold entry_locs in Hin. rewrite !elem_of_cons in Hin.
      destruct Hin as [->|[->|[->|Hin]]]; try congruence.
      now apply elem_of_nil in Hin.
    + now apply Hframe.
Qed.

Lemma list_insert_then_del_restores_witness :
  exists m',
    (do r <- list_insert 3 (Vptr 1) (Vptr 7) 1 (N.of_nat 2) ;
     list_del 3 r (Vptr 7) 1) two_nodes = Ret (Vptr 1) m' /\
    heap m' = heap two_nodes.
Proof.
  apply (list_insert_then_del_restores two_nodes (Vptr 1) [node_a; node_b]
           7%positive [Some x05] [x05] 1 3).
  - split; [reflexivity|]. split; [vm_compute; repeat split|].
    apply (bool_decide_unpack _). vm_compute. exact I.
  - discriminate.
  - reflexivity.
  - apply (bool_decide_unpack _). vm_compute. exact I.
  - reflexivity.
  - reflexivity.
  - repeat constructor; exists 1%Z; (split; [reflexivity|discriminate]).
  - reflexivity.
  - simpl. lia.
  - exact I.
Defined.

(** X17. Creating a list from a buffer and deleting that payload again is a
    round trip: [list_del] returns the absent result, for the empty list,
    the three blocks of the node are released, and the memory holds the
    blocks it held before [list_init], with their contents. *)
Theorem list_init_then_del_restores m p bs (cs : list byte) size fuel :
  heap m !! p = Some (OBytes bs) ->
  0 < size ->
  length cs = N.to_nat size ->
  take (N.to_nat size) bs = Some <$> cs ->
  allocs_succeed 3 (allocs m) ->
  (0 < fuel)%nat ->
  exists m',
    (do r <- list_init (Vptr p) size ; list_del fuel r (Vptr p) size) m
    = Ret Vnull m' /\
    heap m' = heap m.
Proof.
  intros Hp Hsize Hlen Hcs Hal Hf.
  destruct (list_init_ok m p bs cs size Hp Hsize Hlen Hcs Hal)
    as (n & d & b & m1 & Hrun & Hn & Hd & Hb & (Fn & Fd & Fb) & (Nnd & Nnb & Ndb)
        & Hframe & _).
  set (new := mk_entry n d b (Some <$> cs) (Some size)).
  assert (Hlist1 : is_list (heap m1) (Vptr n) [new]).
  { split; [reflexivity|]. split; [cbn; auto|]. now apply NoDup_three. }
  assert (Hp1 : heap m1 !! p = Some (OBytes bs))
    by (rewrite Hframe; trivial; congruence).
  assert (Hm : matches size bs new).
  { apply bytes_cmp_zero. exists cs. split; [exact Hlen|]. split; [|exact Hcs].
    apply take_ge. cbn [e_bytes new]. rewrite length_fmap. lia. }
  rewrite (bind_ret _ _ _ _ _ Hrun).
  rewrite (list_del_found m1 (Vptr n) [new] 0 new p bs size fuel Hlist1 Hp1
             eq_refl (Forall_nil _) Hm Hf).
  eexists. split; [reflexivity|]. cbn [heap].
  apply map_eq. intros l. unfold unlinked.
  change (relink_prev [new] 0 (relink_next [new] 0 (heap m1))) with (heap m1).
  destruct (decide (l ∈ entry_locs new)) as [Hin|Hnin].
  - rewrite release_own by exact Hin. unfold entry_locs in Hin. cbn in Hin.
    rewrite !elem_of_cons in Hin.
    destruct Hin as [->|[->|[->|Hin]]]; auto. now apply elem_of_nil in Hin.
  - rewrite release_other by exact Hnin.
    apply Hframe; intros ->; apply Hnin; unfold entry_locs; cbn;
      rewrite !elem_of_cons; auto.
Qed.

Lemma list_init_then_del_restores_witness :
  exists m',
    (do r <- list_init (Vptr 7) 2 ; list_del 1 r (Vptr 7) 2) caller_only
    = Ret Vnull m' /\
    heap m' = heap caller_only.
Proof.
  apply (list_init_then_del_restores caller_only 7%positive [Some x05; Some x06]
           [x05; x06] 2 1).
  - reflexivity.
  - reflexivity.
  - reflexivity.
  - reflexivity.
  - exact I.
  - lia.
Defined.

(** X18. On an absent root, in any memory: [list_len] returns 0,
    [list_search] and [list_get] return the absent result, all three without
    a change; [list_del] fails its final assertion; and [list_destroy]
    reads the back-relation through the null pointer. *)
Theorem absent_root_behaviour m fuel payload size pos :
  (0 < fuel)%nat ->
  list_len fuel Vnull m = Ret 0 m /\
  list_search fuel Vnull payload size m = Ret Vnull m /\
  list_get fuel Vnull pos m = Ret Vnull m /\
  list_del fuel Vnull payload size m = Abort /\
  list_destroy fuel Vnull m = Fault.
Proof.
  intros Hf. destruct fuel as [|fuel]; [lia|]. repeat split.
Qed.

Lemma absent_root_behaviour_witness :
  list_len 1 Vnull two_nodes = Ret 0 two_nodes /\
  list_search 1 Vnull (Vptr 7) 1 two_nodes = Ret Vnull two_nodes /\
  list_get 1 Vnull 0 two_nodes = Ret Vnull two_nodes /\
  list_del 1 Vnull (Vptr 7) 1 two_nodes = Abort /\
  list_destroy 1 Vnull two_nodes = Fault.
Proof. apply (absent_root_behaviour two_nodes 1 (Vptr 7) 1 0). lia. Defined.

(** X19. [list_search] and [list_del] compare [size] bytes of every payload
    they visit without consulting the size recorded in the payload holder:
    when the scan reaches a node whose payload block is shorter than
    [size], the comparison reads outside that block. *)
Theorem scan_reads_past_short_payload m root es pb buf size fuel i e :
  is_list (heap m) root es ->
  heap m !! pb = Some (OBytes buf) ->
  es !! i = Some e ->
  Forall (differs size buf) (take i es) ->
  (length (e_bytes e) < N.to_nat size)%nat ->
  (i < fuel)%nat ->
  list_search fuel root (Vptr pb) size m = Fault /\
  list_del fuel root (Vptr pb) size m = Fault.
Proof.
  intros (-> & Hl & _) Hbuf Hi Hd Hshort Hf.
  destruct (linked_lookup _ _ _ _ _ Hl Hi) as (Hn & Hdt & Hb).
  assert (Hskip : forall j e', (0 <= j < 0 + i)%nat -> es !! j = Some e' ->
                               differs size buf e').
  { intros j e' Hj He'. apply (Forall_lookup_1 _ _ j e' Hd).
    rewrite lookup_take_lt by lia. exact He'. }
  assert (Hlen : (0 + i <= length es)%nat) by (apply lookup_lt_Some in Hi; lia).
  assert (Hcmp : forall K : Z -> M val,
            (do d <- get_data (Vptr (e_node e)) ;
             do pl <- get_payload d ;
             do r <- memcmp pl (Vptr pb) size ;
             K r) m = Fault).
  { intros K. exec (get_data_ok _ _ _ Hn). exec (get_payload_ok _ _ _ Hdt).
    unfold memcmp. unfold bind at 1.
    exec (load_bytes_ok _ _ _ Hb). exec (load_bytes_ok _ _ _ Hbuf).
    now rewrite bytes_cmp_short. }
  unfold list_del. replace fuel with (i + S (fuel - S i))%nat by lia.
  rewrite (list_search_skip m Vnull es pb buf size Hl Hbuf i 0 _ Hskip Hlen).
  rewrite (list_del_skip m Vnull es pb buf size Hl Hbuf (node_at es 0) i 0 _
             Hskip Hlen).
  cbn [Nat.add list_search list_del_loop]. rewrite (node_at_Some _ _ _ Hi).
  split; unfold bind at 1; cbn [is_null ret]; apply Hcmp.
Qed.

Lemma scan_reads_past_short_payload_witness :
  list_search 3 (Vptr 1) (Vptr 9) 2 two_nodes = Fault /\
  list_del 3 (Vptr 1) (Vptr 9) 2 two_nodes = Fault.
Proof.
  apply (scan_reads_past_short_payload two_nodes (Vptr 1) [node_a; node_b]
           9%positive [Some x07; Some x07] 2 3 0 node_a).
  - split; [reflexivity|]. split; [vm_compute; repeat split|].
    apply (bool_decide_unpack _). vm_compute. exact I.
  - reflexivity.
  - reflexivity.
  - apply Forall_nil.
  - simpl. lia.
  - lia.
Defined.

(** X20. [list_get] returns the payload block the list itself stores, not a
    copy: bytes written through the returned reference, within the bounds
    of the block, replace the bytes of the node at that position, in
    place; the block keeps its length, the list stays well formed, the size
    recorded for the node stays what it was, and no other block is
    changed. *)
Theorem list_get_exposes_payload m root es j e off (w : list byte) fuel :
  is_list (heap m) root es ->
  es !! j = Some e ->
  N.of_nat (length es) < SIZE_MOD ->
  (length es < fuel)%nat ->
  off + N.of_nat (length w) <= N.of_nat (length (e_bytes e)) ->
  exists m' bs',
    (do p <- list_get fuel root (N.of_nat j) ; write_at p off (Some <$> w)) m
    = Ret tt m' /\
    bs' = take (N.to_nat off) (e_bytes e) ++ (Some <$> w)
          ++ drop (N.to_nat off + length w) (e_bytes e) /\
    length bs' = length (e_bytes e) /\
    is_list (heap m') root
      (<[j := mk_entry (e_node e) (e_data e) (e_buf e) bs' (e_size e)]> es) /\
    (forall l, l <> e_buf e -> heap m' !! l = heap m !! l).
Proof.
  intros (-> & Hl & Hs) Hj Hmax Hf Hfit.
  pose proof (linked_chain _ _ _ Hl) as Hc.
  destruct (linked_lookup _ _ _ _ _ Hl Hj) as (_ & _ & Hb).
  rewrite (bind_ret _ _ _ _ _ (list_get_chain m es fuel j e Hc Hf Hmax Hj)).
  rewrite (write_at_ok _ _ _ _ _ Hb) by (rewrite length_fmap; exact Hfit).
  rewrite length_fmap.
  remember (take (N.to_nat off) (e_bytes e) ++ (Some <$> w)
              ++ drop (N.to_nat off + length w) (e_bytes e)) as bs' eqn:Ebs.
  eexists _, bs'. split; [reflexivity|]. split; [reflexivity|]. cbn [heap].
  split; [rewrite Ebs; apply splice_length; [apply length_fmap|lia]|].
  split; [|intros l Hne; now apply lookup_insert_ne].
  split; [now rewrite node_at_set_bytes|].
  split; [|unfold separate; now rewrite locs_set_bytes].
  apply linked_intro. intros i e' Hi.
  rewrite node_at_set_bytes by exact Hj.
  assert (Ep : prev_at Vnull
                 (<[j := mk_entry (e_node e) (e_data e) (e_buf e) bs' (e_size e)]> es) i
               = prev_at Vnull es i).
  { destruct i as [|i]; [reflexivity|]. cbn [prev_at]. now apply node_at_set_bytes. }
  rewrite Ep. destruct (separate_own _ _ _ Hs Hj) as (_ & Hnb & Hdb).
  destruct (decide (i = j)) as [->|Hne].
  - rewrite list_lookup_insert_eq in Hi by (eapply lookup_lt_Some, Hj).
    injection Hi as <-. cbn [e_node e_data e_buf e_bytes e_size].
    destruct (linked_lookup _ _ _ _ _ Hl Hj) as (Hn0 & Hd0 & _).
    rewrite !lookup_insert_ne by congruence. rewrite lookup_insert_eq. auto.
  - rewrite list_lookup_insert_ne in Hi by congruence.
    destruct (linked_lookup _ _ _ _ _ Hl Hi) as (Hn0 & Hd0 & Hb0).
    assert (Hother : forall x, x ∈ entry_locs e' -> x <> e_buf e).
    { intros x Hx. eapply (separate_ne es i j); eauto. apply in_locs_buf. }
    rewrite !lookup_insert_ne
      by (intros E; eapply Hother; [|symmetry; exact E]; auto with locs).
    auto.
Qed.

Lemma list_get_exposes_payload_witness :
  exists m' bs',
    (do p <- list_get 3 (Vptr 1) (N.of_nat 1) ;
     write_at p 0 (Some <$> [x01])) two_nodes = Ret tt m' /\
    bs' = take (N.to_nat 0) (e_bytes node_b) ++ (Some <$> [x01])
          ++ drop (N.to_nat 0 + length [x01]) (e_bytes node_b) /\
    length bs' = length (e_bytes node_b) /\
    is_list (heap m') (Vptr 1)
      (<[1%nat := mk_entry (e_node node_b) (e_data node_b) (e_buf node_b)
                    bs' (e_size node_b)]> [node_a; node_b]) /\
    (forall l, l <> e_buf node_b -> heap m' !! l = heap two_nodes !! l).
Proof.
  apply (list_get_exposes_payload two_nodes (Vptr 1) [node_a; node_b] 1 node_b
           0 [x01] 3).
  - split; [reflexivity|]. split; [vm_compute; repeat split|].
    apply (bool_decide_unpack _). vm_compute. exact I.
  - reflexivity.
  - reflexivity.
  - simpl. lia.
  - vm_compute. discriminate.
Defined.

(** X21. A node inserted strictly inside a well-formed list is lost:
    [list_destroy] on the returned root afterwards releases every block of
    the old nodes, but the three blocks allocated by [list_insert] stay
    live, with the new node still pointing to itself. *)
Theorem list_insert_inside_leaks m root es p bs (cs : list byte) size k ek fuel :
  is_list (heap m) root es ->
  heap m !! p = Some (OBytes bs) ->
  length cs = N.to_nat size ->
  take (N.to_nat size) bs = Some <$> cs ->
  es !! S k = Some ek ->
  N.of_nat (length es) < SIZE_MOD ->
  (length es < fuel)%nat ->
  allocs_succeed 3 (allocs m) ->
  exists n d b m' m'',
    list_insert fuel root (Vptr p) size (N.of_nat (S k)) m = Ret root m' /\
    list_destroy fuel root m' = Ret tt m'' /\
    (heap m !! n = None /\ heap m !! d = None /\ heap m !! b = None) /\
    (forall l, l ∈ es ≫= entry_locs -> heap m'' !! l = None) /\
    heap m'' !! n = Some (ONode (mk_node (Vptr d) (node_at es k) (Vptr n))) /\
    heap m'' !! d = Some (OData (mk_data (Vptr b) (Some size))) /\
    heap m'' !! b = Some (OBytes (Some <$> cs)).
Proof.
  intros Hlist Hp Hlen Hcs Hk Hmax Hf Hal.
  destruct (list_insert_middle m root es p bs cs size k ek fuel
              Hlist Hp Hlen Hcs Hk Hmax Hf Hal)
    as (n & d & b & m' & Hrun & (Fn & Fd & Fb) & Hn & Hd & Hb & Hek & Hframe).
  destruct (list_insert_middle_forward_chain m root es p bs cs size k ek fuel
              Hlist Hp Hlen Hcs Hk Hmax Hf Hal) as (m1 & Hrun1 & Hc & _).
  assert (m1 = m') by congruence. subst m1.
  destruct Hlist as (-> & Hl & Hs).
  assert (Hfresh : forall x, x ∈ es ≫= entry_locs -> x <> n /\ x <> d /\ x <> b).
  { intros x Hx. destruct (linked_live _ _ _ _ Hl Hx) as [o Ho].
    repeat split; congruence. }
  assert (Hout : forall x, x = n \/ x = d \/ x = b -> x ∉ es ≫= entry_locs).
  { intros x Hx Hin. destruct (Hfresh x Hin) as (? & ? & ?).
    destruct Hx as [|[|]]; congruence. }
  destruct es as [|e0 es'] eqn:Ees; [discriminate|]. rewrite <- Ees in *.
  assert (H0 : es !! 0%nat = Some e0) by now subst.
  destruct (linked_lookup _ _ _ _ _ Hl H0) as (Hn0 & _).
  assert (Hn0' : heap m' !! e_node e0
                 = Some (ONode (mk_node (Vptr (e_data e0)) Vnull (node_at es 1)))).
  { assert (Hin : e_node e0 ∈ es ≫= entry_locs).
    { apply list_elem_of_bind. exists e0. split; [apply in_locs_node|].
      eapply list_elem_of_lookup_2, H0. }
    destruct (Hfresh _ Hin) as (? & ? & ?).
    rewrite Hframe; trivial.
    apply (separate_ne es 0 (S k) e0 ek); auto with locs. }
  exists n, d, b, m'. eexists. split; [exact Hrun|]. split.
  - unfold list_destroy. rewrite (node_at_Some _ _ _ H0).
    exec (get_prev_ok _ _ _ Hn0'). unfold bind at 1. cbn [is_null ret negb].
    unfold bind at 1. cbn [ret]. rewrite <- (node_at_Some _ _ _ H0).
    apply list_destroy_loop_ok; trivial.
  - cbn [heap]. split; [auto|]. split; [intros l Hin; now apply release_all_own|].
    rewrite !release_all_other by (apply Hout; auto). auto.
Qed.

Lemma list_insert_inside_leaks_witness :
  exists n d b m' m'',
    list_insert 3 (Vptr 1) (Vptr 7) 1 (N.of_nat 1) two_nodes = Ret (Vptr 1) m' /\
    list_destroy 3 (Vptr 1) m' = Ret tt m'' /\
    (heap two_nodes !! n = None /\ heap two_nodes !! d = None /\
     heap two_nodes !! b = None) /\
    (forall l, l ∈ [node_a; node_b] ≫= entry_locs -> heap m'' !! l = None) /\
    heap m'' !! n = Some (ONode (mk_node (Vptr d) (node_at [node_a; node_b] 0) (Vptr n))) /\
    heap m'' !! d = Some (OData (mk_data (Vptr b) (Some 1))) /\
    heap m'' !! b = Some (OBytes (Some <$> [x05])).
Proof.
  apply (list_insert_inside_leaks two_nodes (Vptr 1) [node_a; node_b]
           7%positive [Some x05] [x05] 1 0 node_b 3).
  - split; [reflexivity|]. split; [vm_compute; repeat split|].
    apply (bool_decide_unpack _). vm_compute. exact I.
  - reflexivity.
  - reflexivity.
  - reflexivity.
  - reflexivity.
  - reflexivity.
  - simpl. lia.
  - exact I.
Defined.
